(** * Water-bridged residue interactions: a model of
      [select_residue_water_residue_combined.py]

    The script asks PyMOL ([cmd]) for the waters close to two domains, looks
    for hydrogen bonds and polar contacts between every such water and each
    domain, and turns the atom pairs found into residue-level interaction
    records.

    The embedding follows the script function by function.  Every call of
    [cmd.*] and every [print] is logged in a trace; what the toolkit answers
    to a query is supplied by a [Toolkit] record, a function of the selection
    text only (the structure is fixed while the script runs).  Python
    exceptions are an outcome of their own.  Floats are the kernel's binary64
    floats. *)

From Stdlib Require Import ZArith Ascii String DecimalString DecimalPos DecimalZ.
From Stdlib Require Import Floats.
From stdpp Require Import base option list gmap strings.

Local Open Scope string_scope.
Local Open Scope Z_scope.
Local Open Scope list_scope.
Local Open Scope stdpp_scope.

(** ** Data *)

(** [(model, index)], as [cmd.find_pairs] and [cmd.index] report an atom. *)
Definition AtomRef : Type := string * Z.

(** [atom.coord] and the result of [cmd.get_atom_coords]: three floats. *)
Definition Coord : Type := float * float * float.

(** The fields of a chempy atom the script reads. *)
Record Atom := {
  model : string;
  chain : string;
  resi : string;
  resn : string;
  index : Z;
  coord : Coord
}.

(** A contact is a tuple whose first component is an atom reference:
    [cmd.find_pairs] yields pairs, [find_polar_contacts] yields triples that
    also carry the distance. *)
Inductive Contact :=
| pair2 (a b : AtomRef)
| pair3 (a b : AtomRef) (dist : float).

(** [contact[0]] *)
Definition contact_0 (c : Contact) : AtomRef :=
  match c with pair2 a _ => a | pair3 a _ _ => a end.

(** [(atom.model, atom.chain, atom.resi, atom.resn)] *)
Definition ResidueKey : Type := string * string * string * string.

(** The dictionary appended to [interaction_list]. *)
Record InteractionRecord := {
  resA : string;
  resB : string;
  water : Z;
  type : string;
  distA : float;
  distB : float;
  total_distance : float
}.

(** ** Text *)

(** The double quote character, for the [alt ""] selections. *)
Definition dq : string := String (ascii_of_nat 34) EmptyString.

(** ['%d' % z] *)
Definition fmt_d (z : Z) : string := NilZero.string_of_int (Z.to_int z).

(** ['%s/%s`%s/%s' % res_info] *)
Definition fmt_res (k : ResidueKey) : string :=
  let '(m, c, i, n) := k in m +:+ "/" +:+ c +:+ "`" +:+ i +:+ "/" +:+ n.

(** ** Trace and outcome *)

Inductive SettingValue :=
| sv_float (x : float)
| sv_str (s : string).

(** One entry per [cmd] call or [print], in the order of execution. *)
Inductive Event :=
| cmd_select (name selection : string)
| cmd_delete (name : string)
| cmd_count_atoms (selection : string)
| cmd_index (selection : string)
| cmd_get_atom_coords (selection : string)
| cmd_find_pairs (selection1 selection2 : string) (mode : Z) (cutoff angle : float)
| cmd_get_model (selection : string)
| cmd_distance (name selection1 selection2 : string)
| cmd_show (representation selection : string)
| cmd_hide (representation selection : string)
| cmd_color (color selection : string)
| cmd_set (name : string) (value : SettingValue) (selection : option string)
| cmd_label (selection expression : string)
| py_print (line : string)
  (* the report line of one interaction; its '%.2f' rendering is left to the
     reader of the trace *)
| py_print_interaction (r : InteractionRecord).

Inductive exn := IndexError | KeyError | CmdException.

Inductive outcome (A : Type) :=
| Return (a : A)
| Raise (e : exn).
Arguments Return {A} a.
Arguments Raise {A} e.

(** A computation: the events it logs and how it ends. *)
Definition Py (A : Type) : Type := list Event * outcome A.

Definition py_ret {A} (a : A) : Py A := ([], Return a).
Definition py_raise {A} (e : exn) : Py A := ([], Raise e).
Definition py_bind {A B} (m : Py A) (f : A → Py B) : Py B :=
  match m with
  | (tr, Return a) => let '(tr', r) := f a in (tr ++ tr', r)
  | (tr, Raise e) => (tr, Raise e)
  end.

#[global] Instance Py_ret : MRet Py := @py_ret.
#[global] Instance Py_bind : MBind Py := λ A B f m, py_bind m f.

Definition log (e : Event) : Py unit := ([e], Return tt).

(** [for x in l: s = body x s] *)
Fixpoint for_each {A S : Type} (l : list A) (body : A → S → Py S) (s : S) : Py S :=
  match l with
  | [] => mret s
  | x :: l' => s' ← body x s; for_each l' body s'
  end.

(** [l[0]] *)
Definition item_0 {A} (l : list A) : Py A :=
  match l with
  | x :: _ => mret x
  | [] => py_raise IndexError
  end.

Definition print (line : string) : Py unit := log (py_print line).

(** ** The toolkit *)

(** What PyMOL answers to the script's queries.  The selection texts the
    script passes are taken to be texts PyMOL accepts.  A text it cannot
    parse, such as a malformed [domainA], first used at line 35, makes the
    call raise in PyMOL; runs that fail in this way during the set-up of
    lines 32-37 are not represented here.  Of the calls below only
    [get_atom_coords], which needs exactly one atom, can raise. *)
Record Toolkit := {
  tk_count_atoms : string → Z;
  tk_index : string → list AtomRef;
  (* [None]: the selection is not exactly one atom, the call raises *)
  tk_get_atom_coords : string → option Coord;
  tk_find_pairs : string → string → Z → float → float → list (AtomRef * AtomRef);
  tk_get_model : string → list Atom
}.

Module cmd.
Section calls.
Context (tk : Toolkit).

Definition select (name selection : string) : Py unit :=
  log (cmd_select name selection).
Definition delete (name : string) : Py unit := log (cmd_delete name).
Definition count_atoms (selection : string) : Py Z :=
  ([cmd_count_atoms selection], Return (tk_count_atoms tk selection)).
Definition index (selection : string) : Py (list AtomRef) :=
  ([cmd_index selection], Return (tk_index tk selection)).
Definition get_atom_coords (selection : string) : Py Coord :=
  ([cmd_get_atom_coords selection],
   match tk_get_atom_coords tk selection with
   | Some c => Return c
   | None => Raise CmdException
   end).
Definition find_pairs (selection1 selection2 : string) (mode : Z)
    (cutoff angle : float) : Py (list Contact) :=
  ([cmd_find_pairs selection1 selection2 mode cutoff angle],
   Return (uncurry pair2 <$> tk_find_pairs tk selection1 selection2 mode cutoff angle)).
(** [cmd.get_model(selection).atom] *)
Definition get_model (selection : string) : Py (list Atom) :=
  ([cmd_get_model selection], Return (tk_get_model tk selection)).
Definition distance (name selection1 selection2 : string) : Py unit :=
  log (cmd_distance name selection1 selection2).
Definition show (representation selection : string) : Py unit :=
  log (cmd_show representation selection).
Definition hide (representation selection : string) : Py unit :=
  log (cmd_hide representation selection).
Definition color (color selection : string) : Py unit :=
  log (cmd_color color selection).
Definition set (name : string) (value : SettingValue) (selection : option string) : Py unit :=
  log (cmd_set name value selection).
Definition label (selection expression : string) : Py unit :=
  log (cmd_label selection expression).
End calls.
End cmd.

(** ** Geometry *)

(** [math.sqrt((c1[0]-c2[0])**2 + (c1[1]-c2[1])**2 + (c1[2]-c2[2])**2)];
    the square [x ** 2], which Python computes with the power function of
    the C library, is taken as the product [x * x].  The two can differ in
    the last bit, and the power raises [OverflowError] where the product is
    infinite.  Nothing below depends on the squares: a distance is used as
    the value that is stored and compared, and its sign rests on the outer
    square root alone. *)
Definition distance_between_coords (coord1 coord2 : Coord) : float :=
  let '(x1, y1, z1) := coord1 in
  let '(x2, y2, z2) := coord2 in
  let sq (x : float) := (x * x)%float in
  PrimFloat.sqrt (sq (x1 - x2) + sq (y1 - y2) + sq (z1 - z2))%float.

(** ** Python values used as conditions and sets *)

(** [bool(l)] for a list: non-empty. *)
Definition truthy {A} (l : list A) : bool :=
  match l with [] => false | _ :: _ => true end.

(** [l1 or l2] on lists. *)
Definition py_or {A} (l1 l2 : list A) : list A :=
  if truthy l1 then l1 else l2.

(** A [set()] that only grows is represented by its elements in the order of
    their first insertion. *)
Definition set_add (k : ResidueKey) (s : list ResidueKey) : list ResidueKey :=
  if decide (k ∈ s) then s else s ++ [k].

(** The order in which [for x in s] visits a set is CPython's business: some
    enumeration of the elements, each once. *)
Record SetOrder := {
  set_iter : list ResidueKey → list ResidueKey;
  set_iter_perm : ∀ s, set_iter s ≡ₚ s
}.

(** [d[k]] *)
Definition getitem {V} (d : gmap ResidueKey V) (k : ResidueKey) : Py V :=
  match d !! k with
  | Some v => mret v
  | None => py_raise KeyError
  end.

(** ** Contact finder *)

Definition hbond_sele (domain_sele : string) : string :=
  "(" +:+ domain_sele +:+ " and (name N,O) and not resn HOH)".

Definition polar_sele (domain_sele : string) : string :=
  "(" +:+ domain_sele +:+ " and (name N*,O*) and alt " +:+ dq +:+ dq +:+ " and not resn HOH)".

Definition water_O_sele (water_sele : string) : string :=
  water_sele +:+ " and name O and alt " +:+ dq +:+ dq.

Definition find_hydrogen_bonds (tk : Toolkit) (domain_sele water_sele : string)
    (distance_cutoff angle_cutoff : float) : Py (list Contact) :=
  hbonds1 ← cmd.find_pairs tk (hbond_sele domain_sele) water_sele
              1 distance_cutoff angle_cutoff;
  hbonds2 ← cmd.find_pairs tk water_sele (hbond_sele domain_sele)
              1 distance_cutoff angle_cutoff;
  mret (hbonds1 ++ hbonds2).

Definition find_polar_contacts (tk : Toolkit) (domain_sele water_sele : string)
    (distance_cutoff : float) : Py (list Contact) :=
  polar_atoms ← cmd.get_model tk (polar_sele domain_sele);
  water_atoms ← cmd.get_model tk (water_O_sele water_sele);
  water_atom ← item_0 water_atoms;
  for_each polar_atoms (λ atom polar_contacts,
    let dist := distance_between_coords (coord atom) (coord water_atom) in
    if (dist <=? distance_cutoff)%float
    then mret (polar_contacts ++
                 [pair3 (model atom, index atom)
                        (model water_atom, index water_atom) dist])
    else mret polar_contacts) [].

(** ** Aggregation *)

(** ['index %d' % atom_idx] for [atom_idx = contact[0][1]] *)
Definition index_sele (contact : Contact) : string :=
  "index " +:+ fmt_d (contact_0 contact).2.

Definition residue_key (atom : Atom) : ResidueKey :=
  (model atom, chain atom, resi atom, resn atom).

(** The body of the loop over [contacts_A] (lines 194-203), which the script
    repeats word for word over [contacts_B] (lines 207-216); the accumulator
    is the set of residues and the dictionary from residue to
    [(atom_idx, dist)]. *)
Definition collect_step (tk : Toolkit) (water_coords : Coord) (contact : Contact)
    (acc : list ResidueKey * gmap ResidueKey (Z * float))
    : Py (list ResidueKey * gmap ResidueKey (Z * float)) :=
  let '(res_set, res_distances) := acc in
  let atom_idx := (contact_0 contact).2 in
  atoms ← cmd.get_model tk (index_sele contact);
  atom ← item_0 atoms;
  if String.eqb (resn atom) "HOH" then mret (res_set, res_distances)
  else
    let res_info := residue_key atom in
    let dist := distance_between_coords (coord atom) water_coords in
    mret (set_add res_info res_set,
          <[res_info := (atom_idx, dist)]> res_distances).

Definition collect_residues (tk : Toolkit) (contacts : list Contact)
    (water_coords : Coord) : Py (list ResidueKey * gmap ResidueKey (Z * float)) :=
  for_each contacts (collect_step tk water_coords) ([], ∅).

Definition residue_sele (res_info : ResidueKey) : string :=
  let '(m, c, i, _) := res_info in
  "model " +:+ m +:+ " and chain " +:+ c +:+ " and resi " +:+ i.

(** The body of the double loop of lines 223-257 for one pair of residues. *)
Definition emit_pair (resA_distances resB_distances : gmap ResidueKey (Z * float))
    (water_idx interaction_id : Z) (interaction_type water_sele : string)
    (resA_info resB_info : ResidueKey)
    (interaction_list : list InteractionRecord) : Py (list InteractionRecord) :=
  a ← getitem resA_distances resA_info;
  b ← getitem resB_distances resB_info;
  let distA := a.2 in
  let distB := b.2 in
  let total_distance := (distA + distB)%float in
  if (total_distance <=? 7.0)%float then
    let interaction_list := interaction_list ++ [{|
      resA := fmt_res resA_info;
      resB := fmt_res resB_info;
      water := water_idx;
      type := if String.eqb interaction_type "hbond"
              then "Hydrogen Bond" else "Polar Contact";
      distA := distA;
      distB := distB;
      total_distance := total_distance |}] in
    cmd.select "interacting_residues_domain1"
      ("interacting_residues_domain1 or (" +:+ residue_sele resA_info +:+ ")");;
    cmd.select "interacting_residues_domain2"
      ("interacting_residues_domain2 or (" +:+ residue_sele resB_info +:+ ")");;
    cmd.select "interacting_waters" ("interacting_waters or " +:+ water_sele);;
    let atomA_sele := "index " +:+ fmt_d a.1 in
    let atomB_sele := "index " +:+ fmt_d b.1 in
    (if String.eqb interaction_type "hbond" then
       cmd.distance ("hbond_" +:+ fmt_d interaction_id +:+ "_A") atomA_sele water_sele;;
       cmd.distance ("hbond_" +:+ fmt_d interaction_id +:+ "_B") water_sele atomB_sele
     else
       cmd.distance ("polar_contact_" +:+ fmt_d interaction_id +:+ "_A") atomA_sele water_sele;;
       cmd.distance ("polar_contact_" +:+ fmt_d interaction_id +:+ "_B") water_sele atomB_sele);;
    mret interaction_list
  else mret interaction_list.

(** [process_interactions] appends to the caller's [interaction_list]; here
    the list goes in and comes back next to the identifier returned. *)
Definition process_interactions (tk : Toolkit) (ord : SetOrder)
    (contacts_A contacts_B : list Contact) (water_obj : string) (water_idx : Z)
    (interaction_id : Z) (interaction_type : string)
    (interaction_list : list InteractionRecord)
    (domainA domainB water_sele : string) (water_coords : Coord)
    : Py (Z * list InteractionRecord) :=
  '(resA_set, resA_distances) ← collect_residues tk contacts_A water_coords;
  '(resB_set, resB_distances) ← collect_residues tk contacts_B water_coords;
  if negb (truthy resA_set) || negb (truthy resB_set)
  then mret (interaction_id, interaction_list)
  else
    let interaction_id := interaction_id + 1 in
    interaction_list ←
      for_each (set_iter ord resA_set) (λ resA_info,
        for_each (set_iter ord resB_set) (λ resB_info,
          emit_pair resA_distances resB_distances water_idx interaction_id
                    interaction_type water_sele resA_info resB_info))
        interaction_list;
    mret (interaction_id, interaction_list).

(** ** The analysis *)

Definition max_total_distance : float := 7.0%float.
Definition max_residue_water_distance : float := (max_total_distance / 2.0)%float.
Definition hbond_distance_cutoff : float := 3.5%float.
(* the script writes the integer 120; PyMOL reads it as a float *)
Definition hbond_angle_cutoff : float := 120%float.

(** ['%.1f' % max_residue_water_distance]: the constant is 3.5 exactly. *)
Definition max_residue_water_distance_1f : string := "3.5".

(** [hbond_id], [polar_contact_id] and [interaction_list], the variables the
    loop over the waters carries from one water to the next. *)
Definition LoopState : Type := Z * Z * list InteractionRecord.

(** Lines 91-110: the choice of the interaction type for one water and the
    call of [process_interactions]. *)
Definition classify_and_process (tk : Toolkit) (ord : SetOrder)
    (domainA domainB water_obj : string) (water_idx : Z) (water_sele : string)
    (water_coords : Coord)
    (hbonds_A hbonds_B polar_contacts_A polar_contacts_B : list Contact)
    (st : LoopState) : Py LoopState :=
  let '(hbond_id, polar_contact_id, interaction_list) := st in
  if truthy hbonds_A && truthy hbonds_B then
    '(hbond_id, interaction_list) ←
      process_interactions tk ord hbonds_A hbonds_B water_obj water_idx
        hbond_id "hbond" interaction_list domainA domainB water_sele water_coords;
    mret (hbond_id, polar_contact_id, interaction_list)
  else if (truthy hbonds_A && truthy polar_contacts_B)
          || (truthy polar_contacts_A && truthy hbonds_B) then
    let contacts_A := py_or hbonds_A polar_contacts_A in
    let contacts_B := py_or hbonds_B polar_contacts_B in
    '(polar_contact_id, interaction_list) ←
      process_interactions tk ord contacts_A contacts_B water_obj water_idx
        polar_contact_id "polar_contact" interaction_list domainA domainB
        water_sele water_coords;
    mret (hbond_id, polar_contact_id, interaction_list)
  else if truthy polar_contacts_A && truthy polar_contacts_B then
    '(polar_contact_id, interaction_list) ←
      process_interactions tk ord polar_contacts_A polar_contacts_B water_obj
        water_idx polar_contact_id "polar_contact" interaction_list domainA
        domainB water_sele water_coords;
    mret (hbond_id, polar_contact_id, interaction_list)
  else mret (hbond_id, polar_contact_id, interaction_list).

Definition water_sele_of (water_obj : string) (water_idx : Z) : string :=
  "(" +:+ water_obj +:+ " and index " +:+ fmt_d water_idx
      +:+ " and name O and alt " +:+ dq +:+ dq +:+ ")".

(** Lines 70-88: the searches of one water, with the polar-contact search of
    a side behind [if not hbonds]. *)
Definition search_contacts (tk : Toolkit) (domainA domainB water_sele : string)
    : Py (Coord * list Contact * list Contact * list Contact * list Contact) :=
  water_coords ← cmd.get_atom_coords tk water_sele;
  hbonds_A ← find_hydrogen_bonds tk domainA water_sele
               hbond_distance_cutoff hbond_angle_cutoff;
  hbonds_B ← find_hydrogen_bonds tk domainB water_sele
               hbond_distance_cutoff hbond_angle_cutoff;
  polar_contacts_A ←
    (if negb (truthy hbonds_A)
     then find_polar_contacts tk domainA water_sele max_residue_water_distance
     else mret []);
  polar_contacts_B ←
    (if negb (truthy hbonds_B)
     then find_polar_contacts tk domainB water_sele max_residue_water_distance
     else mret []);
  mret (water_coords, hbonds_A, hbonds_B, polar_contacts_A, polar_contacts_B).

(** The body of [for (water_obj, water_idx) in water_indices]. *)
Definition water_body (tk : Toolkit) (ord : SetOrder) (domainA domainB : string)
    (w : AtomRef) (st : LoopState) : Py LoopState :=
  let '(water_obj, water_idx) := w in
  let water_sele := water_sele_of water_obj water_idx in
  '(water_coords, hbonds_A, hbonds_B, polar_contacts_A, polar_contacts_B) ←
    search_contacts tk domainA domainB water_sele;
  classify_and_process tk ord domainA domainB water_obj water_idx water_sele
    water_coords hbonds_A hbonds_B polar_contacts_A polar_contacts_B st.

Definition bridge_query : string :=
  "water_bridge and name O and alt " +:+ dq +:+ dq.

Definition delete_temporaries : Py unit :=
  cmd.delete "all_waters";;
  cmd.delete "water_near_A";;
  cmd.delete "water_near_B";;
  cmd.delete "water_bridge".

Definition distance_label : string := dq +:+ "%.2f Å" +:+ dq +:+ " % (distance)".

(** Lines 113-141. *)
Definition visualize (interaction_list : list InteractionRecord) : Py unit :=
  if truthy interaction_list then
    cmd.show "sticks" "interacting_residues_domain1";;
    cmd.color "yellow" "interacting_residues_domain1";;
    cmd.show "sticks" "interacting_residues_domain2";;
    cmd.color "magenta" "interacting_residues_domain2";;
    cmd.show "spheres" "interacting_waters";;
    cmd.color "cyan" "interacting_waters";;
    cmd.set "sphere_scale" (sv_float 0.25) (Some "interacting_waters");;
    cmd.hide "labels" "hbond_*";;
    cmd.set "dash_color" (sv_str "green") (Some "hbond_*");;
    cmd.set "dash_width" (sv_float 2.0) None;;
    cmd.show "dashes" "hbond_*";;
    cmd.label "hbond_*" distance_label;;
    cmd.hide "labels" "polar_contact_*";;
    cmd.set "dash_color" (sv_str "orange") (Some "polar_contact_*");;
    cmd.set "dash_width" (sv_float 1.5) None;;
    cmd.show "dashes" "polar_contact_*";;
    cmd.label "polar_contact_*" distance_label
  else
    print "No residue interactions found via bridging water molecules within the specified criteria.".

(** The entry point.  The script returns nothing; the value here is its
    [interaction_list] when it ends (empty on the early exit, which leaves
    before the list exists). *)
Definition select_residue_water_residue_combined (tk : Toolkit) (ord : SetOrder)
    (domainA domainB : string) : Py (list InteractionRecord) :=
  cmd.select "all_waters" "resn HOH";;
  cmd.select "water_near_A"
    ("all_waters within " +:+ max_residue_water_distance_1f +:+ " of (" +:+ domainA +:+ ")");;
  cmd.select "water_near_B"
    ("all_waters within " +:+ max_residue_water_distance_1f +:+ " of (" +:+ domainB +:+ ")");;
  cmd.select "water_bridge" "water_near_A and water_near_B";;
  num_waters_A ← cmd.count_atoms tk "water_near_A and name O";
  num_waters_B ← cmd.count_atoms tk "water_near_B and name O";
  num_bridging_waters ← cmd.count_atoms tk "water_bridge and name O";
  print ("Number of water molecules near domainA: " +:+ fmt_d num_waters_A);;
  print ("Number of water molecules near domainB: " +:+ fmt_d num_waters_B);;
  print ("Number of bridging water molecules: " +:+ fmt_d num_bridging_waters);;
  water_indices ← cmd.index tk bridge_query;
  if negb (truthy water_indices) then
    print "No bridging water molecules found between the specified domains within the specified distance.";;
    delete_temporaries;;
    mret []
  else
    cmd.select "interacting_residues_domain1" "none";;
    cmd.select "interacting_residues_domain2" "none";;
    cmd.select "interacting_waters" "none";;
    '(_, _, interaction_list) ←
      for_each water_indices (water_body tk ord domainA domainB) (0, 0, []);
    visualize interaction_list;;
    let total_interactions := Z.of_nat (length interaction_list) in
    print ("Total interactions: " +:+ fmt_d total_interactions);;
    for_each interaction_list (λ interaction _, log (py_print_interaction interaction)) tt;;
    delete_temporaries;;
    mret interaction_list.


(** ** What the loops compute *)

Definition trace {A} (m : Py A) : list Event := m.1.
Definition result {A} (m : Py A) : outcome A := m.2.

(** The atom a contact stands for in [process_interactions]: the first atom
    of the selection [index N], if there is one. *)
Definition resolve (tk : Toolkit) (contact : Contact) : option Atom :=
  head (tk_get_model tk (index_sele contact)).

(** One turn of the collection loop on a contact whose atom was found. *)
Definition retain (water_coords : Coord) (contact : Contact) (atom : Atom)
    (acc : list ResidueKey * gmap ResidueKey (Z * float))
    : list ResidueKey * gmap ResidueKey (Z * float) :=
  if String.eqb (resn atom) "HOH" then acc
  else (set_add (residue_key atom) acc.1,
        <[residue_key atom :=
            ((contact_0 contact).2,
             distance_between_coords (coord atom) water_coords)]> acc.2).

(** The collection loop as a fold; [None] when some atom is not found. *)
Fixpoint collected (tk : Toolkit) (water_coords : Coord) (contacts : list Contact)
    (acc : list ResidueKey * gmap ResidueKey (Z * float))
    : option (list ResidueKey * gmap ResidueKey (Z * float)) :=
  match contacts with
  | [] => Some acc
  | contact :: contacts' =>
      atom ← resolve tk contact;
      collected tk water_coords contacts' (retain water_coords contact atom acc)
  end.

(** The record the double loop appends for a pair of residues, if any. *)
Definition pair_record (resA_distances resB_distances : gmap ResidueKey (Z * float))
    (water_idx : Z) (interaction_type : string) (resA_info resB_info : ResidueKey)
    : option InteractionRecord :=
  a ← resA_distances !! resA_info;
  b ← resB_distances !! resB_info;
  if (a.2 + b.2 <=? 7.0)%float then
    Some {| resA := fmt_res resA_info;
            resB := fmt_res resB_info;
            water := water_idx;
            type := if String.eqb interaction_type "hbond"
                    then "Hydrogen Bond" else "Polar Contact";
            distA := a.2;
            distB := b.2;
            total_distance := (a.2 + b.2)%float |}
  else None.

(** The pairs of residues the double loop visits, in its order. *)
Definition visited_pairs (ord : SetOrder) (resA_set resB_set : list ResidueKey)
    : list (ResidueKey * ResidueKey) :=
  resA_info ← set_iter ord resA_set;
  resB_info ← set_iter ord resB_set;
  [(resA_info, resB_info)].

(** The records one call of [process_interactions] appends. *)
Definition emitted_records (ord : SetOrder) (resA_set resB_set : list ResidueKey)
    (resA_distances resB_distances : gmap ResidueKey (Z * float))
    (water_idx : Z) (interaction_type : string) : list InteractionRecord :=
  resA_info ← set_iter ord resA_set;
  resB_info ← set_iter ord resB_set;
  option_list (pair_record resA_distances resB_distances water_idx
                 interaction_type resA_info resB_info).

(** The name of a distance object: ['hbond_%d_A' % interaction_id] and its
    three siblings. *)
Definition distance_name (interaction_type : string) (interaction_id : Z)
    (side : string) : string :=
  (if String.eqb interaction_type "hbond" then "hbond_" else "polar_contact_")
    +:+ fmt_d interaction_id +:+ side.

(** The events of the double loop: additions to the three selections and
    distance objects named after [interaction_id]. *)
Inductive emitted_event (interaction_type : string) (interaction_id : Z) : Event → Prop :=
| ee_select name selection :
    name ∈ ["interacting_residues_domain1"; "interacting_residues_domain2";
            "interacting_waters"] →
    emitted_event interaction_type interaction_id (cmd_select name selection)
| ee_distance side s1 s2 :
    side ∈ ["_A"; "_B"] →
    emitted_event interaction_type interaction_id
      (cmd_distance (distance_name interaction_type interaction_id side) s1 s2).

(** The events of the collection loops: [cmd.get_model('index %d' % atom_idx)]. *)
Definition is_lookup (e : Event) : Prop :=
  ∃ contact, e = cmd_get_model (index_sele contact).

(** The value [find_hydrogen_bonds] returns for a domain and a water. *)
Definition hbonds_of (tk : Toolkit) (domain_sele water_sele : string) : list Contact :=
  (uncurry pair2 <$> tk_find_pairs tk (hbond_sele domain_sele) water_sele 1
                       hbond_distance_cutoff hbond_angle_cutoff)
  ++ (uncurry pair2 <$> tk_find_pairs tk water_sele (hbond_sele domain_sele) 1
                          hbond_distance_cutoff hbond_angle_cutoff).

(** The entry a contact would add to the dictionary of its side. *)
Definition retained (tk : Toolkit) (water_coords : Coord) (contact : Contact)
    : option (ResidueKey * (Z * float)) :=
  atom ← resolve tk contact;
  if String.eqb (resn atom) "HOH" then None
  else Some (residue_key atom,
             ((contact_0 contact).2,
              distance_between_coords (coord atom) water_coords)).

(** Every entry of the dictionary comes from the last contact of the list
    that adds its residue. *)
Definition last_wins (tk : Toolkit) (water_coords : Coord) (contacts : list Contact)
    (res_distances : gmap ResidueKey (Z * float)) : Prop :=
  ∀ k v, res_distances !! k = Some v →
    ∃ before contact after,
      contacts = before ++ contact :: after
      ∧ retained tk water_coords contact = Some (k, v)
      ∧ ∀ c v', c ∈ after → retained tk water_coords c ≠ Some (k, v').

(** Every entry of the dictionary holds the smallest distance among the
    contacts of the list that add its residue. *)
Definition keeps_minimum (tk : Toolkit) (water_coords : Coord) (contacts : list Contact)
    (res_distances : gmap ResidueKey (Z * float)) : Prop :=
  ∀ k v, res_distances !! k = Some v →
    ∀ c v', c ∈ contacts → retained tk water_coords c = Some (k, v') →
      (v.2 <=? v'.2)%float = true.

(** A contact whose atom is found and belongs to a water. *)
Definition solvent_contact (tk : Toolkit) (contact : Contact) : Prop :=
  ∃ atom, resolve tk contact = Some atom ∧ resn atom = "HOH".

(** The two interaction categories. *)
Inductive Category := HydrogenBond | PolarContact.

Definition category_type (c : Category) : string :=
  match c with HydrogenBond => "Hydrogen Bond" | PolarContact => "Polar Contact" end.

Definition category_tag (c : Category) : string :=
  match c with HydrogenBond => "hbond" | PolarContact => "polar_contact" end.

(** The four-way rule in the words of the design: hydrogen bonds on both
    sides; a hydrogen bond on exactly one side and a polar contact on the
    other; polar contacts on both sides; anything else. *)
Definition four_way_rule (hbond_A hbond_B polar_A polar_B : bool) : option Category :=
  if hbond_A && hbond_B then Some HydrogenBond
  else if (hbond_A && negb hbond_B && polar_B) || (negb hbond_A && hbond_B && polar_A)
  then Some PolarContact
  else if polar_A && polar_B then Some PolarContact
  else None.

(** The identifier a category counts with, and the loop state after a call
    of [process_interactions] for that category. *)
Definition counter_of (cat : Category) (hbond_id polar_contact_id : Z) : Z :=
  match cat with HydrogenBond => hbond_id | PolarContact => polar_contact_id end.

Definition with_counter (cat : Category) (hbond_id polar_contact_id : Z)
    (r : Z * list InteractionRecord) : Py LoopState :=
  let '(interaction_id, interaction_list) := r in
  match cat with
  | HydrogenBond => mret (interaction_id, polar_contact_id, interaction_list)
  | PolarContact => mret (hbond_id, interaction_id, interaction_list)
  end.

(** Two loop states with the same identifiers and the same records up to
    their order. *)
Definition same_state (st1 st2 : LoopState) : Prop :=
  st1.1 = st2.1 ∧ st1.2 ≡ₚ st2.2.

(** The names the toolkit's registry holds after a trace: [cmd.select]
    registers a name, [cmd.distance] creates an object, [cmd.delete] removes
    the name. *)
Definition registry_after (tr : list Event) : gset string :=
  foldl (λ names e,
           match e with
           | cmd_select name _ => names ∪ {[name]}
           | cmd_distance name _ _ => names ∪ {[name]}
           | cmd_delete name => names ∖ {[name]}
           | _ => names
           end) ∅ tr.

(** Two outcomes that agree up to the order of the records. *)
Definition same_records (o1 o2 : outcome (list InteractionRecord)) : Prop :=
  match o1, o2 with
  | Return l1, Return l2 => l1 ≡ₚ l2
  | Raise e1, Raise e2 => e1 = e2
  | _, _ => False
  end.

(** The set holds each residue once and the dictionary is defined exactly
    on the set. *)
Definition consistent (acc : list ResidueKey * gmap ResidueKey (Z * float)) : Prop :=
  NoDup acc.1 ∧ ∀ k, k ∈ acc.1 ↔ is_Some (acc.2 !! k).

(** The last character of a text. *)
Fixpoint last_char (s : string) : option ascii :=
  match s with
  | EmptyString => None
  | String c EmptyString => Some c
  | String _ s' => last_char s'
  end.

(** The trace of a run that finds no bridging water. *)
Definition early_exit_trace (tk : Toolkit) (domainA domainB : string) : list Event :=
  [cmd_select "all_waters" "resn HOH";
   cmd_select "water_near_A"
     ("all_waters within " +:+ max_residue_water_distance_1f +:+ " of (" +:+ domainA +:+ ")");
   cmd_select "water_near_B"
     ("all_waters within " +:+ max_residue_water_distance_1f +:+ " of (" +:+ domainB +:+ ")");
   cmd_select "water_bridge" "water_near_A and water_near_B";
   cmd_count_atoms "water_near_A and name O";
   cmd_count_atoms "water_near_B and name O";
   cmd_count_atoms "water_bridge and name O";
   py_print ("Number of water molecules near domainA: "
             +:+ fmt_d (tk_count_atoms tk "water_near_A and name O"));
   py_print ("Number of water molecules near domainB: "
             +:+ fmt_d (tk_count_atoms tk "water_near_B and name O"));
   py_print ("Number of bridging water molecules: "
             +:+ fmt_d (tk_count_atoms tk "water_bridge and name O"));
   cmd_index bridge_query;
   py_print "No bridging water molecules found between the specified domains within the specified distance.";
   cmd_delete "all_waters";
   cmd_delete "water_near_A";
   cmd_delete "water_near_B";
   cmd_delete "water_bridge"].

(** ** Further summaries *)

(** The triple [find_polar_contacts] builds for a polar atom. *)
Definition polar_contact_of (water_atom atom : Atom) : Contact :=
  pair3 (model atom, index atom) (model water_atom, index water_atom)
        (distance_between_coords (coord atom) (coord water_atom)).

(** The polar atoms [find_polar_contacts] keeps. *)
Definition within_cutoff (water_atom : Atom) (distance_cutoff : float) (atom : Atom) : bool :=
  (distance_between_coords (coord atom) (coord water_atom) <=? distance_cutoff)%float.

(** The events of the double loop for one pair of residues. *)
Definition pair_events (resA_distances resB_distances : gmap ResidueKey (Z * float))
    (interaction_id : Z) (interaction_type water_sele : string)
    (p : ResidueKey * ResidueKey) : list Event :=
  match resA_distances !! p.1, resB_distances !! p.2 with
  | Some a, Some b =>
      if (a.2 + b.2 <=? 7.0)%float then
        [cmd_select "interacting_residues_domain1"
           ("interacting_residues_domain1 or (" +:+ residue_sele p.1 +:+ ")");
         cmd_select "interacting_residues_domain2"
           ("interacting_residues_domain2 or (" +:+ residue_sele p.2 +:+ ")");
         cmd_select "interacting_waters" ("interacting_waters or " +:+ water_sele);
         cmd_distance (distance_name interaction_type interaction_id "_A")
           ("index " +:+ fmt_d a.1) water_sele;
         cmd_distance (distance_name interaction_type interaction_id "_B")
           water_sele ("index " +:+ fmt_d b.1)]
      else []
  | _, _ => []
  end.

(** The events of a run up to the loop over the waters, when there are
    bridging waters. *)
Definition run_setup (tk : Toolkit) (domainA domainB : string) : list Event :=
  [cmd_select "all_waters" "resn HOH";
   cmd_select "water_near_A"
     ("all_waters within " +:+ max_residue_water_distance_1f +:+ " of (" +:+ domainA +:+ ")");
   cmd_select "water_near_B"
     ("all_waters within " +:+ max_residue_water_distance_1f +:+ " of (" +:+ domainB +:+ ")");
   cmd_select "water_bridge" "water_near_A and water_near_B";
   cmd_count_atoms "water_near_A and name O";
   cmd_count_atoms "water_near_B and name O";
   cmd_count_atoms "water_bridge and name O";
   py_print ("Number of water molecules near domainA: "
             +:+ fmt_d (tk_count_atoms tk "water_near_A and name O"));
   py_print ("Number of water molecules near domainB: "
             +:+ fmt_d (tk_count_atoms tk "water_near_B and name O"));
   py_print ("Number of bridging water molecules: "
             +:+ fmt_d (tk_count_atoms tk "water_bridge and name O"));
   cmd_index bridge_query;
   cmd_select "interacting_residues_domain1" "none";
   cmd_select "interacting_residues_domain2" "none";
   cmd_select "interacting_waters" "none"].

(** The end of a run that went through the loop: the count, one line per
    record, the four deletions. *)
Definition run_report (interaction_list : list InteractionRecord) : list Event :=
  py_print ("Total interactions: " +:+ fmt_d (Z.of_nat (length interaction_list)))
  :: (py_print_interaction <$> interaction_list)
  ++ [cmd_delete "all_waters"; cmd_delete "water_near_A";
      cmd_delete "water_near_B"; cmd_delete "water_bridge"].

(** The names of the four temporary selections. *)
Definition temporaries : gset string :=
  {["all_waters"; "water_near_A"; "water_near_B"; "water_bridge"]}.

(** The kinds of events the body of the loop over the waters can log. *)
Definition loop_event (e : Event) : Prop :=
  match e with
  | cmd_get_atom_coords _ | cmd_find_pairs _ _ _ _ _ | cmd_get_model _
  | cmd_select _ _ | cmd_distance _ _ _ => True
  | _ => False
  end.

(** Reading a decimal text back. *)
Definition parse_d (s : string) : option Z :=
  Z.of_int <$> NilZero.int_of_string s.

(** The commands that change what is displayed. *)
Definition is_display (e : Event) : Prop :=
  match e with
  | cmd_show _ _ | cmd_hide _ _ | cmd_color _ _ | cmd_set _ _ _ | cmd_label _ _ => True
  | _ => False
  end.

Definition no_interaction_message : string :=
  "No residue interactions found via bridging water molecules within the specified criteria.".

(** A contact as [cmd.find_pairs] gives it, and one as [find_polar_contacts]
    builds it with a distance within the half-threshold. *)
Definition is_pair (c : Contact) : Prop :=
  match c with pair2 _ _ => True | pair3 _ _ _ => False end.

Definition is_near_triple (c : Contact) : Prop :=
  match c with
  | pair2 _ _ => False
  | pair3 _ _ dist => (dist <=? max_residue_water_distance)%float = true
  end.

(** A residue text and a distance of a record that come from one contact of
    a list: the residue of the atom looked up for the contact, which is not
    a water, and the distance between that atom and the water. *)
Definition built_from (tk : Toolkit) (water_coords : Coord) (contacts : list Contact)
    (res : string) (dist : float) : Prop :=
  ∃ contact atom,
    contact ∈ contacts ∧ resolve tk contact = Some atom ∧ resn atom ≠ "HOH"
    ∧ res = fmt_res (residue_key atom)
    ∧ dist = distance_between_coords (coord atom) water_coords.
(** ** Scenes to run the script on *)

(** A small stand-in for a PyMOL session: the atoms loaded, the bridging
    waters [cmd.index] reports, the pairs [cmd.find_pairs] reports for two
    selections and the atoms of the selections [cmd.get_model] is asked for
    by text ([index N] is answered from the atoms). *)
Record Scene := {
  sc_atoms : list Atom;
  sc_bridging : list AtomRef;
  sc_pairs : list (string * string * list (AtomRef * AtomRef));
  sc_models : list (string * list Atom)
}.

Definition toolkit_of (sc : Scene) : Toolkit := {|
  tk_count_atoms := λ _, Z.of_nat (length (sc_bridging sc));
  tk_index := λ sel, if String.eqb sel bridge_query then sc_bridging sc else [];
  tk_get_atom_coords := λ sel,
    coord <$> List.find (λ a, String.eqb sel (water_sele_of (model a) (index a)))
                        (sc_atoms sc);
  tk_find_pairs := λ s1 s2 _ _ _,
    match List.find (λ e, String.eqb s1 e.1.1 && String.eqb s2 e.1.2) (sc_pairs sc) with
    | Some e => e.2
    | None => []
    end;
  tk_get_model := λ sel,
    match List.find (λ e, String.eqb sel e.1) (sc_models sc) with
    | Some e => e.2
    | None => List.filter (λ a, String.eqb sel ("index " +:+ fmt_d (index a))) (sc_atoms sc)
    end
|}.

(** Sets visited in the order of first insertion. *)
Definition insertion_order : SetOrder :=
  {| set_iter := λ s, s; set_iter_perm := λ s, reflexivity s |}.

(** Sets visited in the reverse order. *)
Definition reverse_order : SetOrder :=
  {| set_iter := λ s, reverse s; set_iter_perm := λ s, reverse_Permutation s |}.

Definition atom_of (c i n : string) (idx : Z) (x y z : float) : Atom :=
  {| model := "m"; chain := c; resi := i; resn := n; index := idx; coord := (x, y, z) |}.

Definition wat : Atom := atom_of "W" "100" "HOH" 10 0 0 0.
Definition ser_N : Atom := atom_of "A" "5" "SER" 1 2 0 0.
Definition ser_OG : Atom := atom_of "A" "5" "SER" 2 0 0 1.
Definition asp_OD1 : Atom := atom_of "B" "9" "ASP" 3 0 2.25 0.
Definition lys_NZ : Atom := atom_of "B" "12" "LYS" 4 0 0 (-3).
Definition far_O : Atom := atom_of "B" "20" "GLY" 5 6 0 0.

Definition wat_sele : string := water_sele_of "m" 10.
Definition wat_ref : AtomRef := ("m", 10).

(** Hydrogen bonds on both sides; two atoms of SER 5 on side A, the nearer
    one ([ser_OG], 1.0) listed first; on side B an atom at 6.0 is reported
    too, which with SER 5 at 2.0 exceeds the budget of 7.0. *)
Definition scene_hbond : Scene := {|
  sc_atoms := [wat; ser_N; ser_OG; asp_OD1; lys_NZ; far_O];
  sc_bridging := [wat_ref];
  sc_pairs := [
    (hbond_sele "chain A", wat_sele, [(("m", 2), wat_ref); (("m", 1), wat_ref)]);
    (hbond_sele "chain B", wat_sele,
     [(("m", 3), wat_ref); (("m", 4), wat_ref); (("m", 5), wat_ref)]);
    (wat_sele, hbond_sele "chain B", [(wat_ref, ("m", 3))])];
  sc_models := []
|}.

(** Side A answers only in the water-to-domain direction, so every contact of
    side A starts with the water itself. *)
Definition scene_water_first : Scene := {|
  sc_atoms := [wat; ser_N; ser_OG; asp_OD1; lys_NZ; far_O];
  sc_bridging := [wat_ref];
  sc_pairs := [
    (wat_sele, hbond_sele "chain A", [(wat_ref, ("m", 1))]);
    (hbond_sele "chain B", wat_sele, [(("m", 3), wat_ref)])];
  sc_models := []
|}.

(** A hydrogen bond on side A, only polar contacts on side B. *)
Definition scene_mixed : Scene := {|
  sc_atoms := [wat; ser_N; ser_OG; asp_OD1; lys_NZ; far_O];
  sc_bridging := [wat_ref];
  sc_pairs := [
    (hbond_sele "chain A", wat_sele, [(("m", 1), wat_ref)])];
  sc_models := [
    (polar_sele "chain A", [ser_N; ser_OG]);
    (polar_sele "chain B", [asp_OD1; lys_NZ; far_O]);
    (water_O_sele wat_sele, [wat])]
|}.

(** No water lies near both domains. *)
Definition scene_no_bridge : Scene := {|
  sc_atoms := [wat; ser_N; asp_OD1];
  sc_bridging := [];
  sc_pairs := [];
  sc_models := []
|}.

(** [cmd.index] reports a water that [cmd.get_atom_coords] does not find. *)
Definition scene_lost_water : Scene := {|
  sc_atoms := [ser_N; asp_OD1];
  sc_bridging := [("m", 77)];
  sc_pairs := [];
  sc_models := []
|}.

Definition origin : Coord := (0, 0, 0)%float.

Definition tk_hbond : Toolkit := toolkit_of scene_hbond.
Definition tk_water_first : Toolkit := toolkit_of scene_water_first.
Definition tk_mixed : Toolkit := toolkit_of scene_mixed.
Definition tk_no_bridge : Toolkit := toolkit_of scene_no_bridge.
Definition tk_lost_water : Toolkit := toolkit_of scene_lost_water.

(** The hydrogen-bond contacts of the water of [scene_hbond]. *)
Definition hbond_contacts_A : list Contact := hbonds_of tk_hbond "chain A" wat_sele.
Definition hbond_contacts_B : list Contact := hbonds_of tk_hbond "chain B" wat_sele.

Definition ser5 : ResidueKey := ("m", "A", "5", "SER").

(** * Properties *)

(** ** Running a computation *)

Lemma bind_eq {A B} (m : Py A) (f : A → Py B) :
  m ≫= f = match m with
           | (tr, Return a) => (tr ++ trace (f a), result (f a))
           | (tr, Raise e) => (tr, Raise e)
           end.
Proof.
  destruct m as [tr [a | e]]; [|done].
  unfold mbind, Py_bind, py_bind, trace, result. by destruct (f a).
Qed.

Lemma trace_bind {A B} (m : Py A) (f : A → Py B) :
  trace (m ≫= f) =
  trace m ++ match result m with Return a => trace (f a) | Raise _ => [] end.
Proof.
  rewrite bind_eq. destruct m as [tr [a | e]]; simpl; [done|].
  unfold trace. simpl. by rewrite app_nil_r.
Qed.

Lemma result_bind {A B} (m : Py A) (f : A → Py B) :
  result (m ≫= f) =
  match result m with Return a => result (f a) | Raise e => Raise e end.
Proof. rewrite bind_eq. by destruct m as [tr [a | e]]. Qed.

Lemma Py_eta {A} (m : Py A) : m = (trace m, result m).
Proof. by destruct m. Qed.

Lemma bind_Return {A B} (m : Py A) (f : A → Py B) tr a :
  m = (tr, Return a) → m ≫= f = (tr ++ trace (f a), result (f a)).
Proof. intros ->. by rewrite bind_eq. Qed.

Lemma for_each_cons {A S} (x : A) (l : list A) (body : A → S → Py S) (s : S) :
  for_each (x :: l) body s = body x s ≫= for_each l body.
Proof. done. Qed.

(** A loop whose body always returns, appending to a list it carries. *)
Lemma for_each_append {A R} (P : Event → Prop) (g : A → list R)
    (body : A → list R → Py (list R)) (l : list A) :
  (∀ x s, x ∈ l → result (body x s) = Return (s ++ g x) ∧ Forall P (trace (body x s))) →
  ∀ s, result (for_each l body s) = Return (s ++ (l ≫= g))
       ∧ Forall P (trace (for_each l body s)).
Proof.
  induction l as [|x l IH]; intros Hbody s; simpl.
  - split; [by rewrite app_nil_r | constructor].
  - destruct (Hbody x s) as [Hr Ht]; [left|].
    destruct (IH (λ y s' Hy, Hbody y s' (list_elem_of_further _ _ _ Hy)) (s ++ g x))
      as [Hr' Ht'].
    rewrite result_bind, trace_bind, Hr, Hr'. split.
    + by rewrite <- (assoc_L (++)).
    + apply Forall_app. done.
Qed.

(** A loop whose bodies end alike ends alike. *)
Lemma for_each_related {A S} (R : S → S → Prop)
    (body1 body2 : A → S → Py S) (l : list A) :
  (∀ x s1 s2, R s1 s2 →
     match result (body1 x s1), result (body2 x s2) with
     | Return t1, Return t2 => R t1 t2
     | Raise e1, Raise e2 => e1 = e2
     | _, _ => False
     end) →
  ∀ s1 s2, R s1 s2 →
    match result (for_each l body1 s1), result (for_each l body2 s2) with
    | Return t1, Return t2 => R t1 t2
    | Raise e1, Raise e2 => e1 = e2
    | _, _ => False
    end.
Proof.
  intros Hbody. induction l as [|x l IH]; intros s1 s2 HR; simpl; [done|].
  rewrite !result_bind. specialize (Hbody x s1 s2 HR).
  destruct (result (body1 x s1)), (result (body2 x s2)); try done.
  by apply IH.
Qed.

(** ** Text *)

Lemma append_inj_l (s a b : string) : s +:+ a = s +:+ b → a = b.
Proof. induction s as [|c s IH]; simpl; [done|]. intros [=]. auto. Qed.

Lemma append_length (a b : string) :
  String.length (a +:+ b) = (String.length a + String.length b)%nat.
Proof. induction a as [|x a IH]; simpl; [done|]. by f_equal. Qed.

Lemma append_inj_r (s a b : string) : a +:+ s = b +:+ s → a = b.
Proof.
  revert b. induction a as [|x a IH]; intros [|y b] H.
  - done.
  - apply (f_equal String.length) in H.
    rewrite !append_length in H. simpl in H. lia.
  - apply (f_equal String.length) in H.
    rewrite !append_length in H. simpl in H. lia.
  - simpl in H. injection H as -> H. f_equal. by apply IH.
Qed.

Lemma polar_sele_inj (d1 d2 : string) : polar_sele d1 = polar_sele d2 → d1 = d2.
Proof.
  unfold polar_sele. intros H. apply append_inj_l in H.
  by apply append_inj_r in H.
Qed.

Lemma last_char_append (a b : string) :
  b ≠ "" → last_char (a +:+ b) = last_char b.
Proof.
  intros Hb. induction a as [|x a IH]; [done|].
  change (String x a +:+ b) with (String x (a +:+ b)).
  destruct (a +:+ b) eqn:E; [|done].
  destruct a; [simpl in E; done | discriminate].
Qed.

Lemma polar_sele_not_water_O (d w : string) : polar_sele d ≠ water_O_sele w.
Proof.
  intros H. apply (f_equal last_char) in H. revert H.
  unfold polar_sele, water_O_sele.
  rewrite (last_char_append w) by (vm_compute; discriminate).
  rewrite (last_char_append "("), (last_char_append d).
  - vm_compute. discriminate.
  - vm_compute. discriminate.
  - destruct d; vm_compute; discriminate.
Qed.

Lemma polar_sele_not_index (d : string) (c : Contact) : polar_sele d ≠ index_sele c.
Proof. unfold polar_sele, index_sele. simpl. discriminate. Qed.

(** ** The collection loop *)

Section collection.
Context (tk : Toolkit) (water_coords : Coord).
Implicit Types (contacts : list Contact)
  (acc : list ResidueKey * gmap ResidueKey (Z * float)).

Lemma collect_step_eq contact acc :
  collect_step tk water_coords contact acc =
  ([cmd_get_model (index_sele contact)],
   match resolve tk contact with
   | Some atom => Return (retain water_coords contact atom acc)
   | None => Raise IndexError
   end).
Proof.
  destruct acc as [res_set res_distances].
  unfold collect_step, resolve, retain, cmd.get_model.
  rewrite bind_eq.
  destruct (tk_get_model tk (index_sele contact)) as [|atom atoms]; [done|].
  simpl. by destruct (String.eqb (resn atom) "HOH").
Qed.

Lemma collect_loop_result contacts acc :
  result (for_each contacts (collect_step tk water_coords) acc) =
  match collected tk water_coords contacts acc with
  | Some r => Return r
  | None => Raise IndexError
  end.
Proof.
  revert acc. induction contacts as [|c cs IH]; intros acc; [done|].
  rewrite for_each_cons, result_bind, collect_step_eq. simpl.
  destruct (resolve tk c) as [atom|]; simpl; [apply IH | done].
Qed.

Lemma collect_loop_trace contacts acc :
  Forall is_lookup (trace (for_each contacts (collect_step tk water_coords) acc)).
Proof.
  revert acc. induction contacts as [|c cs IH]; intros acc; [constructor|].
  rewrite for_each_cons, trace_bind, collect_step_eq.
  change (trace ([?e], ?o)) with [e]. change (result (?t, ?o)) with o.
  constructor; [by eexists|].
  destruct (resolve tk c); [apply IH | constructor].
Qed.

Lemma collected_snoc contacts contact acc :
  collected tk water_coords (contacts ++ [contact]) acc =
  acc' ← collected tk water_coords contacts acc;
  atom ← resolve tk contact;
  Some (retain water_coords contact atom acc').
Proof.
  revert acc. induction contacts as [|c cs IH]; intros acc; simpl.
  - by destruct (resolve tk contact).
  - destruct (resolve tk c) as [atom|]; simpl; [apply IH | done].
Qed.

Lemma retain_retained contact atom acc :
  resolve tk contact = Some atom →
  retain water_coords contact atom acc =
  match retained tk water_coords contact with
  | Some (k, v) => (set_add k acc.1, <[k := v]> acc.2)
  | None => acc
  end.
Proof.
  intros H. unfold retained, retain. rewrite H. simpl.
  by destruct (String.eqb (resn atom) "HOH").
Qed.

Lemma set_add_elem k k' (s : list ResidueKey) :
  k' ∈ set_add k s ↔ k' = k ∨ k' ∈ s.
Proof.
  unfold set_add. case_decide.
  - split; [auto | intros [->|]; done].
  - rewrite elem_of_app, list_elem_of_singleton. tauto.
Qed.

Lemma set_add_NoDup k (s : list ResidueKey) : NoDup s → NoDup (set_add k s).
Proof.
  intros Hs. unfold set_add. case_decide; [done|].
  apply NoDup_app. split_and!; [done | | apply NoDup_singleton].
  intros x Hx ->%list_elem_of_singleton. done.
Qed.

Lemma consistent_empty : consistent ([], ∅).
Proof.
  split; [constructor|]. intros k. simpl. rewrite lookup_empty.
  split; [by intros ?%elem_of_nil | by intros [? ?]].
Qed.

Lemma retain_consistent contact atom acc :
  consistent acc → consistent (retain water_coords contact atom acc).
Proof.
  intros [Hnd Hdom]. unfold retain.
  destruct (String.eqb (resn atom) "HOH"); [done|].
  split; simpl; [by apply set_add_NoDup|].
  intros k. rewrite set_add_elem, lookup_insert_is_Some, Hdom. split.
  - intros [->|H]; [by left|].
    destruct (decide (residue_key atom = k)); [by left | by right].
  - intros [<-|[_ H]]; [by left | by right].
Qed.

Lemma collected_consistent contacts acc r :
  consistent acc → collected tk water_coords contacts acc = Some r → consistent r.
Proof.
  revert acc. induction contacts as [|c cs IH]; intros acc Hacc; simpl.
  - by intros [= <-].
  - destruct (resolve tk c) as [atom|]; simpl; [|done].
    apply IH. by apply retain_consistent.
Qed.

(** The entry of a residue is the one of the last contact that adds it. *)
Lemma collected_last_wins_from contacts acc r k v :
  collected tk water_coords contacts acc = Some r →
  r.2 !! k = Some v →
  (∃ before contact after,
      contacts = before ++ contact :: after
      ∧ retained tk water_coords contact = Some (k, v)
      ∧ ∀ c v', c ∈ after → retained tk water_coords c ≠ Some (k, v'))
  ∨ (acc.2 !! k = Some v ∧ ∀ c v', c ∈ contacts → retained tk water_coords c ≠ Some (k, v')).
Proof.
  revert r. induction contacts as [|c cs IH] using rev_ind; intros r.
  - simpl. intros [= <-] Hk. right. split; [done|]. by intros ? ? ?%elem_of_nil.
  - rewrite collected_snoc.
    destruct (collected tk water_coords cs acc) as [acc'|] eqn:Hcs; simpl; [|done].
    destruct (resolve tk c) as [atom|] eqn:Hc; simpl; [|done].
    intros [= <-]. rewrite (retain_retained _ _ _ Hc).
    destruct (retained tk water_coords c) as [[k0 v0]|] eqn:Hret.
    + simpl. destruct (decide (k0 = k)) as [->|Hne].
      * rewrite lookup_insert_eq. intros [= <-]. left.
        exists cs, c, []. split_and!; [done | done |].
        by intros ? ? ?%elem_of_nil.
      * rewrite lookup_insert_ne by done. intros Hk.
        destruct (IH _ eq_refl Hk) as [(b & c' & a & -> & Hc' & Hafter)|[Hacc Hnone]].
        -- left. exists b, c', (a ++ [c]).
           split_and!; [by rewrite <- (assoc_L (++)) | done |].
           intros c1 v' [H1| ->%list_elem_of_singleton]%elem_of_app.
           ++ by apply Hafter.
           ++ rewrite Hret. intros [=]. done.
        -- right. split; [done|].
           intros c1 v' [H1| ->%list_elem_of_singleton]%elem_of_app.
           ++ by apply Hnone.
           ++ rewrite Hret. intros [=]. done.
    + intros Hk.
      destruct (IH _ eq_refl Hk) as [(b & c' & a & -> & Hc' & Hafter)|[Hacc Hnone]].
      * left. exists b, c', (a ++ [c]).
        split_and!; [by rewrite <- (assoc_L (++)) | done |].
        intros c1 v' [H1| ->%list_elem_of_singleton]%elem_of_app.
        -- by apply Hafter.
        -- by rewrite Hret.
      * right. split; [done|].
        intros c1 v' [H1| ->%list_elem_of_singleton]%elem_of_app.
        -- by apply Hnone.
        -- by rewrite Hret.
Qed.

Lemma collected_last_wins contacts s d :
  collected tk water_coords contacts ([], ∅) = Some (s, d) →
  last_wins tk water_coords contacts d.
Proof.
  intros H k v Hk.
  destruct (collected_last_wins_from _ _ _ k v H Hk) as [?|[Hempty _]]; [done|].
  simpl in Hempty. by rewrite lookup_empty in Hempty.
Qed.

(** Contacts that all resolve to water leave the accumulator as it was. *)
Lemma collected_all_solvent contacts acc :
  Forall (solvent_contact tk) contacts →
  collected tk water_coords contacts acc = Some acc.
Proof.
  revert acc. induction contacts as [|c cs IH]; intros acc Hall; simpl; [done|].
  apply Forall_cons in Hall as [(atom & -> & Hn) Hcs]. simpl.
  unfold retain. rewrite Hn. simpl. by apply IH.
Qed.

Lemma collected_is_Some contacts acc :
  Forall (λ c, is_Some (resolve tk c)) contacts →
  is_Some (collected tk water_coords contacts acc).
Proof.
  revert acc. induction contacts as [|c cs IH]; intros acc Hall; simpl; [done|].
  apply Forall_cons in Hall as [[atom ->] Hcs]. simpl. by apply IH.
Qed.
End collection.

(** ** The double loop *)

Lemma emit_pair_spec (dA dB : gmap ResidueKey (Z * float)) (water_idx id : Z)
    (ty water_sele : string) (kA kB : ResidueKey) (il : list InteractionRecord) :
  is_Some (dA !! kA) → is_Some (dB !! kB) →
  result (emit_pair dA dB water_idx id ty water_sele kA kB il) =
    Return (il ++ option_list (pair_record dA dB water_idx ty kA kB))
  ∧ Forall (emitted_event ty id)
      (trace (emit_pair dA dB water_idx id ty water_sele kA kB il)).
Proof.
  intros [a Ha] [b Hb]. unfold emit_pair, pair_record, getitem.
  rewrite Ha, Hb. simpl.
  destruct (a.2 + b.2 <=? 7)%float; simpl.
  - assert (Hsel : ∀ n, n ∈ ["interacting_residues_domain1";
                              "interacting_residues_domain2";
                              "interacting_waters"] →
                   ∀ s, emitted_event ty id (cmd_select n s))
      by (intros; by constructor).
    assert (Hd : ∀ side s1 s2, side ∈ ["_A"; "_B"] →
               emitted_event ty id (cmd_distance (distance_name ty id side) s1 s2))
      by (intros; by constructor).
    unfold distance_name in Hd.
    destruct (String.eqb ty "hbond"); (split; [done|]); simpl;
      repeat (apply Forall_cons; split);
      first [ apply List.Forall_nil
            | apply Hsel; repeat constructor
            | apply (Hd "_A"); repeat constructor
            | apply (Hd "_B"); repeat constructor ].
  - split; [by rewrite app_nil_r | constructor].
Qed.

Lemma emit_loop_spec (ord : SetOrder) (sA sB : list ResidueKey)
    (dA dB : gmap ResidueKey (Z * float)) (water_idx id : Z)
    (ty water_sele : string) (il : list InteractionRecord) :
  (∀ k, k ∈ sA → is_Some (dA !! k)) →
  (∀ k, k ∈ sB → is_Some (dB !! k)) →
  let loop :=
    for_each (set_iter ord sA) (λ kA,
      for_each (set_iter ord sB) (λ kB,
        emit_pair dA dB water_idx id ty water_sele kA kB)) il in
  result loop = Return (il ++ emitted_records ord sA sB dA dB water_idx ty)
  ∧ Forall (emitted_event ty id) (trace loop).
Proof.
  intros HA HB. unfold emitted_records.
  apply (for_each_append (emitted_event ty id)
           (λ kA, set_iter ord sB ≫= λ kB,
                    option_list (pair_record dA dB water_idx ty kA kB))).
  intros kA s HkA.
  apply (for_each_append (emitted_event ty id)
           (λ kB, option_list (pair_record dA dB water_idx ty kA kB))).
  intros kB s' HkB. apply emit_pair_spec.
  - apply HA. by rewrite <- (set_iter_perm ord sA).
  - apply HB. by rewrite <- (set_iter_perm ord sB).
Qed.

Lemma emitted_records_visited (ord : SetOrder) (sA sB : list ResidueKey)
    (dA dB : gmap ResidueKey (Z * float)) (water_idx : Z) (ty : string) :
  emitted_records ord sA sB dA dB water_idx ty =
  omap (λ p, pair_record dA dB water_idx ty p.1 p.2) (visited_pairs ord sA sB).
Proof.
  unfold emitted_records, visited_pairs.
  generalize (set_iter ord sA) (set_iter ord sB). intros lA lB.
  induction lA as [|kA lA IHA]; [done|].
  rewrite !bind_cons, omap_app, IHA. f_equal. clear IHA.
  induction lB as [|kB lB IHB]; [done|].
  rewrite !bind_cons, omap_app, IHB. by f_equal.
Qed.

Lemma bind_Permutation_ext {A B} (f g : A → list B) (l1 l2 : list A) :
  l1 ≡ₚ l2 → (∀ x, f x ≡ₚ g x) → l1 ≫= f ≡ₚ l2 ≫= g.
Proof.
  intros Hl Hfg. rewrite Hl. clear Hl l1.
  induction l2 as [|x l IH]; [done|].
  rewrite !bind_cons. by rewrite IH, (Hfg x).
Qed.

(** The order in which the sets are visited only permutes the records. *)
Lemma emitted_records_order (ord1 ord2 : SetOrder) (sA sB : list ResidueKey)
    (dA dB : gmap ResidueKey (Z * float)) (water_idx : Z) (ty : string) :
  emitted_records ord1 sA sB dA dB water_idx ty
  ≡ₚ emitted_records ord2 sA sB dA dB water_idx ty.
Proof.
  unfold emitted_records. apply bind_Permutation_ext.
  - by rewrite !set_iter_perm.
  - intros kA. apply bind_Permutation_ext; [by rewrite !set_iter_perm | done].
Qed.

Lemma visited_pairs_elem (ord : SetOrder) (sA sB : list ResidueKey) kA kB :
  (kA, kB) ∈ visited_pairs ord sA sB ↔ kA ∈ sA ∧ kB ∈ sB.
Proof.
  unfold visited_pairs. rewrite list_elem_of_bind. split.
  - intros (a & (b & Hb%list_elem_of_singleton & HB)%list_elem_of_bind & HA).
    injection Hb as -> ->.
    by rewrite <- (set_iter_perm ord sA), <- (set_iter_perm ord sB).
  - intros [HA HB]. exists kA. split; [|by rewrite (set_iter_perm ord sA)].
    apply list_elem_of_bind. exists kB.
    split; [by apply list_elem_of_singleton | by rewrite (set_iter_perm ord sB)].
Qed.

Lemma visited_pairs_NoDup (ord : SetOrder) (sA sB : list ResidueKey) :
  NoDup sA → NoDup sB → NoDup (visited_pairs ord sA sB).
Proof.
  intros HA HB. unfold visited_pairs.
  rewrite <- (set_iter_perm ord sA) in HA. rewrite <- (set_iter_perm ord sB) in HB.
  induction HA as [|kA lA Hnot HA IH]; [constructor|].
  rewrite bind_cons. apply NoDup_app. split_and!; [| |done].
  - clear IH. induction HB as [|kB lB HnotB HB IHB]; [constructor|].
    rewrite bind_cons. apply (NoDup_cons_2 (kA, kB)); [|done].
    intros (b & [=]%list_elem_of_singleton & Hb)%list_elem_of_bind. by subst.
  - intros [a b] (b' & [= -> ->]%list_elem_of_singleton & Hb)%list_elem_of_bind.
    intros (a' & Hin & Ha')%list_elem_of_bind. cbv beta in Hin.
    apply list_elem_of_bind in Hin as (b'' & [= <- <-]%list_elem_of_singleton & _).
    done.
Qed.

(** ** [process_interactions] as a whole *)

Section process.
Context (tk : Toolkit) (ord : SetOrder).
Context (contacts_A contacts_B : list Contact) (water_obj : string)
  (water_idx interaction_id : Z) (interaction_type : string)
  (interaction_list : list InteractionRecord)
  (domainA domainB water_sele : string) (water_coords : Coord).

Local Abbreviation run :=
  (process_interactions tk ord contacts_A contacts_B water_obj water_idx
     interaction_id interaction_type interaction_list domainA domainB
     water_sele water_coords).

Lemma process_interactions_result :
  result run =
  match collected tk water_coords contacts_A ([], ∅) with
  | None => Raise IndexError
  | Some (resA_set, resA_distances) =>
    match collected tk water_coords contacts_B ([], ∅) with
    | None => Raise IndexError
    | Some (resB_set, resB_distances) =>
      if negb (truthy resA_set) || negb (truthy resB_set)
      then Return (interaction_id, interaction_list)
      else Return (interaction_id + 1,
                   interaction_list ++
                     emitted_records ord resA_set resB_set resA_distances
                       resB_distances water_idx interaction_type)
    end
  end.
Proof.
  unfold process_interactions, collect_residues.
  rewrite result_bind, collect_loop_result.
  destruct (collected tk water_coords contacts_A ([], ∅)) as [[sA dA]|] eqn:HA; [|done].
  rewrite result_bind, collect_loop_result.
  destruct (collected tk water_coords contacts_B ([], ∅)) as [[sB dB]|] eqn:HB; [|done].
  destruct (negb (truthy sA) || negb (truthy sB)); [done|].
  rewrite result_bind.
  pose proof (collected_consistent _ _ _ _ _ (consistent_empty) HA) as [_ HdA].
  pose proof (collected_consistent _ _ _ _ _ (consistent_empty) HB) as [_ HdB].
  simpl in HdA, HdB.
  destruct (emit_loop_spec ord sA sB dA dB water_idx (interaction_id + 1)
              interaction_type water_sele interaction_list) as [-> _];
    [by intros k ?%HdA | by intros k ?%HdB | done].
Qed.

(** The trace: the lookups of side A, those of side B, then the events of
    the double loop, which all carry the incremented identifier. *)
Lemma process_interactions_trace :
  ∃ lookups emitted,
    trace run = lookups ++ emitted
    ∧ Forall is_lookup lookups
    ∧ Forall (emitted_event interaction_type (interaction_id + 1)) emitted
    ∧ ((∀ il', result run ≠ Return (interaction_id + 1, il')) → emitted = []).
Proof.
  unfold process_interactions, collect_residues.
  set (loopA := for_each contacts_A _ _). set (loopB := for_each contacts_B _ _).
  pose proof (collect_loop_trace tk water_coords contacts_A ([], ∅)) as HtA.
  pose proof (collect_loop_trace tk water_coords contacts_B ([], ∅)) as HtB.
  pose proof (collect_loop_result tk water_coords contacts_A ([], ∅)) as HrA.
  pose proof (collect_loop_result tk water_coords contacts_B ([], ∅)) as HrB.
  fold loopA in HtA, HrA. fold loopB in HtB, HrB.
  rewrite trace_bind, result_bind.
  destruct (result loopA) as [[sA dA]|e] eqn:EA; cycle 1.
  { exists (trace loopA), []. by rewrite app_nil_r. }
  rewrite trace_bind, result_bind.
  destruct (result loopB) as [[sB dB]|e] eqn:EB; cycle 1.
  { exists (trace loopA ++ trace loopB), [].
    split_and!; [by rewrite !app_nil_r | by apply Forall_app | done | done]. }
  destruct (negb (truthy sA) || negb (truthy sB)) eqn:Hempty.
  { exists (trace loopA ++ trace loopB), [].
    split_and!; [by rewrite !app_nil_r | by apply Forall_app | done | done]. }
  destruct (collected tk water_coords contacts_A ([], ∅)) as [rA|] eqn:HA; [|done].
  destruct (collected tk water_coords contacts_B ([], ∅)) as [rB|] eqn:HB; [|done].
  injection HrA as <-. injection HrB as <-.
  pose proof (collected_consistent _ _ _ _ _ (consistent_empty) HA) as [_ HdA].
  pose proof (collected_consistent _ _ _ _ _ (consistent_empty) HB) as [_ HdB].
  simpl in HdA, HdB.
  destruct (emit_loop_spec ord sA sB dA dB water_idx (interaction_id + 1)
              interaction_type water_sele interaction_list) as [Hr Ht];
    [by intros k ?%HdA | by intros k ?%HdB |].
  simpl in Hr, Ht.
  rewrite trace_bind, result_bind, Hr.
  eexists (trace loopA ++ trace loopB), _.
  split_and!; [by rewrite (assoc_L (++)) | by apply Forall_app | |].
  - rewrite Forall_app. split; [done | constructor].
  - simpl. intros Hne. by destruct (Hne _ eq_refl).
Qed.
End process.

(** ** Floats *)

Lemma SFcompare_Lt_not_le (x y : SpecFloat.spec_float) :
  SpecFloat.SFcompare x y = Some Lt → SpecFloat.SFleb y x = false.
Proof.
  unfold SpecFloat.SFleb.
  destruct x as [sx|sx| |sx mx ex], y as [sy|sy| |sy my ey]; simpl;
    try discriminate; try reflexivity;
    try (destruct sx; discriminate || reflexivity);
    try (destruct sy; discriminate || reflexivity);
    try (destruct sx, sy; discriminate || reflexivity).
  destruct sx, sy; try discriminate; try reflexivity;
    rewrite (Z.compare_antisym ex ey);
    destruct (ex ?= ey)%Z; simpl; try discriminate; try reflexivity;
    change (Pos.compare_cont Eq my mx) with (Pos.compare my mx);
    change (Pos.compare_cont Eq mx my) with (Pos.compare mx my);
    rewrite (Pos.compare_antisym mx my);
    destruct (Pos.compare mx my); simpl; try discriminate; reflexivity.
Qed.

(** What exceeds a bound is not below it. *)
Lemma ltb_not_leb (x y : float) : (x <? y)%float = true → (y <=? x)%float = false.
Proof.
  rewrite ltb_spec, leb_spec. unfold SpecFloat.SFltb.
  destruct (SpecFloat.SFcompare (Prim2SF x) (Prim2SF y)) as [[]|] eqn:E;
    try discriminate.
  intros _. by apply SFcompare_Lt_not_le.
Qed.

(** ** Records *)

Lemma pair_record_Some (dA dB : gmap ResidueKey (Z * float)) (water_idx : Z)
    (ty : string) (kA kB : ResidueKey) (r : InteractionRecord) :
  pair_record dA dB water_idx ty kA kB = Some r →
  total_distance r = (distA r + distB r)%float
  ∧ (total_distance r <=? 7.0)%float = true
  ∧ water r = water_idx
  ∧ type r = (if String.eqb ty "hbond" then "Hydrogen Bond" else "Polar Contact")
  ∧ ∃ a b, dA !! kA = Some a ∧ dB !! kB = Some b ∧ distA r = a.2 ∧ distB r = b.2.
Proof.
  unfold pair_record.
  destruct (dA !! kA) as [a|]; simpl; [|done].
  destruct (dB !! kB) as [b|]; simpl; [|done].
  destruct (a.2 + b.2 <=? 7)%float eqn:Hle; [|done].
  intros [= <-]. simpl. split_and!; try done. by exists a, b.
Qed.

Lemma pair_record_exceeds (dA dB : gmap ResidueKey (Z * float)) (water_idx : Z)
    (ty : string) (kA kB : ResidueKey) (a b : Z * float) :
  dA !! kA = Some a → dB !! kB = Some b →
  (7.0 <? a.2 + b.2)%float = true →
  pair_record dA dB water_idx ty kA kB = None.
Proof.
  intros Ha Hb Hlt. unfold pair_record. rewrite Ha, Hb. simpl.
  by rewrite (ltb_not_leb _ _ Hlt).
Qed.

Lemma set_iter_nil (ord : SetOrder) : set_iter ord [] = [].
Proof. apply Permutation_nil_r. by rewrite set_iter_perm. Qed.

Lemma emitted_records_empty (ord : SetOrder) (sA sB : list ResidueKey)
    (dA dB : gmap ResidueKey (Z * float)) (water_idx : Z) (ty : string) :
  negb (truthy sA) || negb (truthy sB) = true →
  emitted_records ord sA sB dA dB water_idx ty = [].
Proof.
  unfold emitted_records. destruct sA as [|kA sA]; simpl.
  - intros _. by rewrite set_iter_nil.
  - destruct sB as [|kB sB]; simpl; [|done]. intros _.
    rewrite set_iter_nil. by induction (set_iter ord (kA :: sA)).
Qed.

(** ** The contact finder *)

Lemma cmd_get_model_inj (s1 s2 : string) : cmd_get_model s1 = cmd_get_model s2 → s1 = s2.
Proof. by intros [=]. Qed.

Lemma find_hydrogen_bonds_eq (tk : Toolkit) (domain_sele water_sele : string)
    (distance_cutoff angle_cutoff : float) :
  find_hydrogen_bonds tk domain_sele water_sele distance_cutoff angle_cutoff =
  ([cmd_find_pairs (hbond_sele domain_sele) water_sele 1 distance_cutoff angle_cutoff;
    cmd_find_pairs water_sele (hbond_sele domain_sele) 1 distance_cutoff angle_cutoff],
   Return
     ((uncurry pair2 <$> tk_find_pairs tk (hbond_sele domain_sele) water_sele 1
                           distance_cutoff angle_cutoff)
      ++ (uncurry pair2 <$> tk_find_pairs tk water_sele (hbond_sele domain_sele) 1
                              distance_cutoff angle_cutoff))).
Proof. done. Qed.

Lemma for_each_silent {A S} (l : list A) (body : A → S → Py S) :
  (∀ x s, trace (body x s) = []) → ∀ s, trace (for_each l body s) = [].
Proof.
  intros Hbody. induction l as [|x l IH]; intros s; [done|].
  rewrite for_each_cons, trace_bind, Hbody.
  destruct (result (body x s)); [apply IH | done].
Qed.

Lemma find_polar_contacts_trace (tk : Toolkit) (domain_sele water_sele : string)
    (distance_cutoff : float) :
  trace (find_polar_contacts tk domain_sele water_sele distance_cutoff) =
  [cmd_get_model (polar_sele domain_sele); cmd_get_model (water_O_sele water_sele)].
Proof.
  unfold find_polar_contacts, cmd.get_model.
  rewrite trace_bind. cbn [trace result fst snd].
  rewrite trace_bind. cbn [trace result fst snd].
  rewrite trace_bind. unfold item_0.
  destruct (tk_get_model tk (water_O_sele water_sele)) as [|water_atom ?]; [done|].
  cbn [trace result fst snd mret Py_ret py_ret].
  rewrite for_each_silent; [done|].
  intros atom s. by destruct (_ <=? _)%float.
Qed.

(** ** One water *)

Section water.
Context (tk : Toolkit) (domainA domainB : string).

Lemma search_contacts_result water_sele water_coords hbonds_A hbonds_B
    polar_contacts_A polar_contacts_B :
  result (search_contacts tk domainA domainB water_sele) =
    Return (water_coords, hbonds_A, hbonds_B, polar_contacts_A, polar_contacts_B) →
  tk_get_atom_coords tk water_sele = Some water_coords
  ∧ hbonds_A = hbonds_of tk domainA water_sele
  ∧ hbonds_B = hbonds_of tk domainB water_sele
  ∧ (truthy hbonds_A = true → polar_contacts_A = [])
  ∧ (truthy hbonds_B = true → polar_contacts_B = []).
Proof.
  unfold search_contacts, cmd.get_atom_coords.
  rewrite result_bind. cbn [result snd].
  destruct (tk_get_atom_coords tk water_sele) as [wc|]; [|done].
  rewrite result_bind, find_hydrogen_bonds_eq. cbn [result snd].
  rewrite result_bind, find_hydrogen_bonds_eq. cbn [result snd].
  fold (hbonds_of tk domainA water_sele). fold (hbonds_of tk domainB water_sele).
  rewrite result_bind.
  destruct (truthy (hbonds_of tk domainA water_sele)) eqn:HA; cbn [negb].
  - cbn [result snd mret Py_ret py_ret]. rewrite result_bind.
    destruct (truthy (hbonds_of tk domainB water_sele)) eqn:HB; cbn [negb].
    + cbn [result snd mret Py_ret py_ret]. intros [= <- <- <- <- <-]. done.
    + destruct (result (find_polar_contacts _ _ _ _)); [|done].
      cbn [result snd mret Py_ret py_ret]. intros [= <- <- <- <- <-].
      rewrite HA, HB. done.
  - destruct (result (find_polar_contacts tk domainA _ _)); [|done].
    rewrite result_bind.
    destruct (truthy (hbonds_of tk domainB water_sele)) eqn:HB; cbn [negb].
    + cbn [result snd mret Py_ret py_ret]. intros [= <- <- <- <- <-].
      rewrite HA, HB. done.
    + destruct (result (find_polar_contacts _ _ _ _)); [|done].
      cbn [result snd mret Py_ret py_ret]. intros [= <- <- <- <- <-].
      rewrite HA, HB. done.
Qed.

(** A polar-contact search shows in the trace of the searches only for a
    side without hydrogen bonds. *)
Lemma search_contacts_polar water_sele d :
  cmd_get_model (polar_sele d) ∈ trace (search_contacts tk domainA domainB water_sele) →
  (d = domainA ∧ truthy (hbonds_of tk domainA water_sele) = false)
  ∨ (d = domainB ∧ truthy (hbonds_of tk domainB water_sele) = false).
Proof.
  unfold search_contacts, cmd.get_atom_coords.
  rewrite trace_bind. cbn [trace result fst snd].
  destruct (tk_get_atom_coords tk water_sele) as [wc|]; cycle 1.
  { rewrite app_nil_r. intros [=]%list_elem_of_singleton. }
  rewrite trace_bind, find_hydrogen_bonds_eq. cbn [trace result fst snd].
  rewrite trace_bind, find_hydrogen_bonds_eq. cbn [trace result fst snd].
  fold (hbonds_of tk domainA water_sele). fold (hbonds_of tk domainB water_sele).
  rewrite trace_bind.
  assert (Hfpc : ∀ dom, cmd_get_model (polar_sele d)
                 ∈ trace (find_polar_contacts tk dom water_sele max_residue_water_distance)
                 → d = dom).
  { intros dom. rewrite find_polar_contacts_trace.
    intros [H|[H|[]%elem_of_nil]%elem_of_cons]%elem_of_cons;
      apply cmd_get_model_inj in H.
    - by apply polar_sele_inj.
    - by apply polar_sele_not_water_O in H. }
  assert (HB : cmd_get_model (polar_sele d)
               ∈ trace (polar_contacts_B ←
                          (if negb (truthy (hbonds_of tk domainB water_sele))
                           then find_polar_contacts tk domainB water_sele
                                  max_residue_water_distance
                           else mret []);
                        mret (wc, hbonds_of tk domainA water_sele,
                              hbonds_of tk domainB water_sele,
                              @nil Contact, polar_contacts_B))
               → d = domainB ∧ truthy (hbonds_of tk domainB water_sele) = false).
  { rewrite trace_bind.
    destruct (truthy (hbonds_of tk domainB water_sele)); cbn [negb].
    - by intros []%elem_of_nil.
    - intros [H|H]%elem_of_app; [by split; [apply Hfpc|]|].
      destruct (result (find_polar_contacts _ _ _ _)); by apply elem_of_nil in H. }
  intros [[=]|[[=]|[[=]|[[=]|[[=]|H]%elem_of_cons]%elem_of_cons]%elem_of_cons]%elem_of_cons]%elem_of_cons.
  revert H.
  destruct (truthy (hbonds_of tk domainA water_sele)) eqn:HA; cbn [negb].
  - cbn [trace result fst snd mret Py_ret py_ret app].
    intros H. right. by apply HB.
  - intros [H|H]%elem_of_app; [left; by split; [apply Hfpc|]|].
    destruct (result (find_polar_contacts tk domainA _ _)) as [pcA|];
      [|by apply elem_of_nil in H].
    right. revert H. rewrite !trace_bind.
    destruct (truthy (hbonds_of tk domainB water_sele)); cbn [negb].
    + by intros []%elem_of_nil.
    + intros [H|H]%elem_of_app; [by split; [apply Hfpc|]|].
      destruct (result (find_polar_contacts _ _ _ _)); by apply elem_of_nil in H.
Qed.
End water.

(** ** The choice of the interaction type *)

Section classify.
Context (tk : Toolkit).
Context (domainA domainB water_obj : string) (water_idx : Z) (water_sele : string)
  (water_coords : Coord)
  (hbonds_A hbonds_B polar_contacts_A polar_contacts_B : list Contact)
  (hbond_id polar_contact_id : Z).

(** The [if]/[elif] chain of lines 91-110 against the four-way rule. *)
Lemma classify_and_process_eq (ord : SetOrder)
    (interaction_list : list InteractionRecord) :
  classify_and_process tk ord domainA domainB water_obj water_idx water_sele
    water_coords hbonds_A hbonds_B polar_contacts_A polar_contacts_B
    (hbond_id, polar_contact_id, interaction_list) =
  match four_way_rule (truthy hbonds_A) (truthy hbonds_B)
          (truthy polar_contacts_A) (truthy polar_contacts_B) with
  | Some cat =>
      process_interactions tk ord
        (py_or hbonds_A polar_contacts_A) (py_or hbonds_B polar_contacts_B)
        water_obj water_idx (counter_of cat hbond_id polar_contact_id)
        (category_tag cat) interaction_list domainA domainB water_sele water_coords
      ≫= with_counter cat hbond_id polar_contact_id
  | None => mret (hbond_id, polar_contact_id, interaction_list)
  end.
Proof.
  unfold classify_and_process, four_way_rule, py_or.
  destruct hbonds_A as [|a1 hA], hbonds_B as [|b1 hB],
           polar_contacts_A as [|a2 pA], polar_contacts_B as [|b2 pB];
    cbn [truthy andb orb negb counter_of category_tag]; try done;
    rewrite !bind_eq;
    by destruct (process_interactions _ _ _ _ _ _ _ _ _ _ _ _ _) as [? [[? ?]|?]].
Qed.

(** The order of the sets does not change how one water ends. *)
Lemma process_interactions_order (ord1 ord2 : SetOrder)
    (contacts_A contacts_B : list Contact) (id : Z) (ty : string)
    (il1 il2 : list InteractionRecord) :
  il1 ≡ₚ il2 →
  match result (process_interactions tk ord1 contacts_A contacts_B water_obj
                  water_idx id ty il1 domainA domainB water_sele water_coords),
        result (process_interactions tk ord2 contacts_A contacts_B water_obj
                  water_idx id ty il2 domainA domainB water_sele water_coords) with
  | Return r1, Return r2 => r1.1 = r2.1 ∧ r1.2 ≡ₚ r2.2
  | Raise e1, Raise e2 => e1 = e2
  | _, _ => False
  end.
Proof.
  intros Hil. rewrite !process_interactions_result.
  destruct (collected tk water_coords contacts_A ([], ∅)) as [[sA dA]|]; [|done].
  destruct (collected tk water_coords contacts_B ([], ∅)) as [[sB dB]|]; [|done].
  destruct (negb (truthy sA) || negb (truthy sB)); simpl; [done|].
  split; [done|]. by rewrite Hil, (emitted_records_order ord1 ord2).
Qed.

Lemma classify_and_process_order (ord1 ord2 : SetOrder)
    (il1 il2 : list InteractionRecord) :
  il1 ≡ₚ il2 →
  match result (classify_and_process tk ord1 domainA domainB water_obj water_idx
                  water_sele water_coords hbonds_A hbonds_B polar_contacts_A
                  polar_contacts_B (hbond_id, polar_contact_id, il1)),
        result (classify_and_process tk ord2 domainA domainB water_obj water_idx
                  water_sele water_coords hbonds_A hbonds_B polar_contacts_A
                  polar_contacts_B (hbond_id, polar_contact_id, il2)) with
  | Return st1, Return st2 => same_state st1 st2
  | Raise e1, Raise e2 => e1 = e2
  | _, _ => False
  end.
Proof.
  intros Hil. rewrite !classify_and_process_eq.
  destruct (four_way_rule _ _ _ _) as [cat|]; [|by split].
  rewrite !result_bind.
  pose proof (process_interactions_order ord1 ord2
                (py_or hbonds_A polar_contacts_A) (py_or hbonds_B polar_contacts_B)
                (counter_of cat hbond_id polar_contact_id) (category_tag cat)
                il1 il2 Hil) as H.
  destruct (result (process_interactions tk ord1 _ _ _ _ _ _ _ _ _ _ _))
    as [[id1 l1]|e1],
           (result (process_interactions tk ord2 _ _ _ _ _ _ _ _ _ _ _))
    as [[id2 l2]|e2]; try done.
  destruct H as [H1 H2]. simpl in H1, H2. subst id2.
  by destruct cat.
Qed.

(** What one water adds to the trace after its searches: lookups of the
    collection loops and events of the double loop. *)
Lemma classify_and_process_trace (ord : SetOrder)
    (interaction_list : list InteractionRecord) :
  Forall (λ e, is_lookup e ∨ ∃ ty id, emitted_event ty id e)
    (trace (classify_and_process tk ord domainA domainB water_obj water_idx
              water_sele water_coords hbonds_A hbonds_B polar_contacts_A
              polar_contacts_B (hbond_id, polar_contact_id, interaction_list))).
Proof.
  rewrite classify_and_process_eq.
  destruct (four_way_rule _ _ _ _) as [cat|]; [|constructor].
  rewrite trace_bind.
  destruct (process_interactions_trace tk ord
              (py_or hbonds_A polar_contacts_A) (py_or hbonds_B polar_contacts_B)
              water_obj water_idx (counter_of cat hbond_id polar_contact_id)
              (category_tag cat) interaction_list domainA domainB water_sele
              water_coords) as (lookups & emitted & -> & Hl & He & _).
  rewrite !Forall_app. split_and!.
  - eapply Forall_impl; [exact Hl|]. by left.
  - eapply Forall_impl; [exact He|]. intros e ?. right. by eexists _, _.
  - destruct (result _) as [[id' il']|e]; [|constructor].
    destruct cat; constructor.
Qed.
End classify.

Lemma water_body_order (tk : Toolkit) (ord1 ord2 : SetOrder)
    (domainA domainB : string) (w : AtomRef) (st1 st2 : LoopState) :
  same_state st1 st2 →
  match result (water_body tk ord1 domainA domainB w st1),
        result (water_body tk ord2 domainA domainB w st2) with
  | Return t1, Return t2 => same_state t1 t2
  | Raise e1, Raise e2 => e1 = e2
  | _, _ => False
  end.
Proof.
  destruct st1 as [[h1 p1] il1], st2 as [[h2 p2] il2], w as [water_obj water_idx].
  intros [[= <- <-] Hil]. simpl in Hil.
  unfold water_body. rewrite !result_bind.
  destruct (result (search_contacts _ _ _ _)) as [[[[[wc hbA] hbB] pcA] pcB]|e]; [|done].
  by apply classify_and_process_order.
Qed.

(** ** The analysis as a whole *)

Lemma visualize_result (interaction_list : list InteractionRecord) :
  result (visualize interaction_list) = Return tt.
Proof. unfold visualize. by destruct (truthy interaction_list). Qed.

Lemma report_result (interaction_list : list InteractionRecord) :
  result (for_each interaction_list
            (λ interaction _, log (py_print_interaction interaction)) tt) = Return tt.
Proof.
  induction interaction_list as [|r l IH]; [done|].
  by rewrite for_each_cons, result_bind.
Qed.

Lemma select_residue_water_residue_combined_result (tk : Toolkit) (ord : SetOrder)
    (domainA domainB : string) :
  result (select_residue_water_residue_combined tk ord domainA domainB) =
  if negb (truthy (tk_index tk bridge_query)) then Return []
  else match result (for_each (tk_index tk bridge_query)
                       (water_body tk ord domainA domainB) (0, 0, [])) with
       | Return st => Return st.2
       | Raise e => Raise e
       end.
Proof.
  unfold select_residue_water_residue_combined.
  do 4 (rewrite result_bind; cbn [cmd.select log result snd]).
  do 3 (rewrite result_bind; cbn [cmd.count_atoms result snd]).
  do 3 (rewrite result_bind; cbn [print log result snd]).
  rewrite result_bind. cbn [cmd.index result snd].
  destruct (negb (truthy (tk_index tk bridge_query))); [done|].
  do 3 (rewrite result_bind; cbn [cmd.select log result snd]).
  rewrite result_bind.
  destruct (result (for_each _ _ _)) as [[[h p] il]|e]; [|done].
  rewrite result_bind, visualize_result.
  rewrite result_bind. cbn [print log result snd].
  rewrite result_bind, report_result. done.
Qed.

(** ** The outcome of one water *)

(** How a call of [process_interactions] ends, in terms of the two
    collection folds: [IndexError] when one of them meets a contact without
    an atom; otherwise the identifier, incremented when both sets are
    non-empty, and the list with one record per visited pair that passes the
    distance test. *)
Lemma process_interactions_outcome (tk : Toolkit) (ord : SetOrder)
    (contacts_A contacts_B : list Contact) (water_obj : string)
    (water_idx interaction_id : Z) (interaction_type : string)
    (interaction_list : list InteractionRecord)
    (domainA domainB water_sele : string) (water_coords : Coord) :
  result (process_interactions tk ord contacts_A contacts_B water_obj water_idx
            interaction_id interaction_type interaction_list domainA domainB
            water_sele water_coords) =
  match collected tk water_coords contacts_A ([], ∅) with
  | None => Raise IndexError
  | Some (resA_set, resA_distances) =>
    match collected tk water_coords contacts_B ([], ∅) with
    | None => Raise IndexError
    | Some (resB_set, resB_distances) =>
        Return (if truthy resA_set && truthy resB_set
                then interaction_id + 1 else interaction_id,
                interaction_list ++
                  omap (λ p, pair_record resA_distances resB_distances water_idx
                               interaction_type p.1 p.2)
                       (visited_pairs ord resA_set resB_set))
    end
  end.
Proof.
  rewrite process_interactions_result.
  destruct (collected tk water_coords contacts_A ([], ∅)) as [[sA dA]|]; [|done].
  destruct (collected tk water_coords contacts_B ([], ∅)) as [[sB dB]|]; [|done].
  rewrite <- emitted_records_visited.
  destruct (negb (truthy sA) || negb (truthy sB)) eqn:E.
  - rewrite emitted_records_empty, app_nil_r by done.
    by destruct (truthy sA), (truthy sB).
  - by destruct (truthy sA), (truthy sB).
Qed.

(** The same for the choice of lines 91-110: which lists are collected,
    which identifier counts and which tag the records get. *)
Lemma classify_and_process_result (tk : Toolkit) (ord : SetOrder)
    (domainA domainB water_obj : string) (water_idx : Z) (water_sele : string)
    (water_coords : Coord)
    (hbonds_A hbonds_B polar_contacts_A polar_contacts_B : list Contact)
    (hbond_id polar_contact_id : Z) (interaction_list : list InteractionRecord) :
  result (classify_and_process tk ord domainA domainB water_obj water_idx
            water_sele water_coords hbonds_A hbonds_B polar_contacts_A
            polar_contacts_B (hbond_id, polar_contact_id, interaction_list)) =
  match four_way_rule (truthy hbonds_A) (truthy hbonds_B)
          (truthy polar_contacts_A) (truthy polar_contacts_B) with
  | None => Return (hbond_id, polar_contact_id, interaction_list)
  | Some cat =>
    match collected tk water_coords
            (if truthy hbonds_A then hbonds_A else polar_contacts_A) ([], ∅) with
    | None => Raise IndexError
    | Some (resA_set, resA_distances) =>
      match collected tk water_coords
              (if truthy hbonds_B then hbonds_B else polar_contacts_B) ([], ∅) with
      | None => Raise IndexError
      | Some (resB_set, resB_distances) =>
          Return
            (match cat with
             | HydrogenBond =>
                 (if truthy resA_set && truthy resB_set
                  then hbond_id + 1 else hbond_id, polar_contact_id)
             | PolarContact =>
                 (hbond_id,
                  if truthy resA_set && truthy resB_set
                  then polar_contact_id + 1 else polar_contact_id)
             end,
             interaction_list ++
               omap (λ p, pair_record resA_distances resB_distances water_idx
                            (category_tag cat) p.1 p.2)
                    (visited_pairs ord resA_set resB_set))
      end
    end
  end.
Proof.
  rewrite classify_and_process_eq.
  destruct (four_way_rule _ _ _ _) as [cat|]; [|done].
  rewrite result_bind, process_interactions_outcome.
  change (py_or hbonds_A polar_contacts_A)
    with (if truthy hbonds_A then hbonds_A else polar_contacts_A).
  change (py_or hbonds_B polar_contacts_B)
    with (if truthy hbonds_B then hbonds_B else polar_contacts_B).
  destruct (collected tk water_coords (if truthy hbonds_A then _ else _) _)
    as [[sA dA]|]; [|done].
  destruct (collected tk water_coords (if truthy hbonds_B then _ else _) _)
    as [[sB dB]|]; [|done].
  by destruct cat.
Qed.

(** The result of one water, given what its searches returned. *)
Lemma water_body_result (tk : Toolkit) (ord : SetOrder) (domainA domainB : string)
    (w : AtomRef) (st : LoopState) (water_coords : Coord)
    (hbonds_A hbonds_B polar_contacts_A polar_contacts_B : list Contact) :
  result (search_contacts tk domainA domainB (water_sele_of w.1 w.2)) =
    Return (water_coords, hbonds_A, hbonds_B, polar_contacts_A, polar_contacts_B) →
  result (water_body tk ord domainA domainB w st)
  = result (classify_and_process tk ord domainA domainB w.1 w.2
              (water_sele_of w.1 w.2) water_coords hbonds_A hbonds_B
              polar_contacts_A polar_contacts_B st).
Proof.
  intros Hsearch. destruct w as [water_obj water_idx]. unfold water_body.
  by rewrite (bind_Return _ _ _ _ (eq_trans (Py_eta _) (f_equal _ Hsearch))).
Qed.

(** ** Where the fields of a record come from *)

Lemma pair_record_residues (dA dB : gmap ResidueKey (Z * float)) (water_idx : Z)
    (ty : string) (kA kB : ResidueKey) (r : InteractionRecord) :
  pair_record dA dB water_idx ty kA kB = Some r →
  ∃ a b, dA !! kA = Some a ∧ dB !! kB = Some b
         ∧ resA r = fmt_res kA ∧ resB r = fmt_res kB
         ∧ distA r = a.2 ∧ distB r = b.2.
Proof.
  unfold pair_record.
  destruct (dA !! kA) as [a|]; simpl; [|done].
  destruct (dB !! kB) as [b|]; simpl; [|done].
  destruct (a.2 + b.2 <=? 7)%float; [|done].
  intros [= <-]. by exists a, b.
Qed.

Lemma last_wins_source (tk : Toolkit) (water_coords : Coord) (contacts : list Contact)
    (d : gmap ResidueKey (Z * float)) (k : ResidueKey) (v : Z * float) :
  last_wins tk water_coords contacts d → d !! k = Some v →
  ∃ c atom, c ∈ contacts ∧ resolve tk c = Some atom ∧ resn atom ≠ "HOH"
            ∧ k = residue_key atom
            ∧ v = ((contact_0 c).2, distance_between_coords (coord atom) water_coords).
Proof.
  intros Hlast Hk. destruct (Hlast k v Hk) as (before & c & after & -> & Hret & _).
  unfold retained in Hret. destruct (resolve tk c) as [atom|] eqn:Hc; [|done].
  simpl in Hret. destruct (String.eqb (resn atom) "HOH") eqn:Hn; [done|].
  injection Hret as <- <-. exists c, atom. split_and!; try done.
  - apply elem_of_app. right. by left.
  - intros Heq. by rewrite Heq in Hn.
Qed.

(** A pair of residues within the budget has its record in the list. *)
Lemma pair_record_within (dA dB : gmap ResidueKey (Z * float)) (water_idx : Z)
    (ty : string) (kA kB : ResidueKey) (a b : Z * float) :
  dA !! kA = Some a → dB !! kB = Some b →
  (a.2 + b.2 <=? 7.0)%float = true →
  pair_record dA dB water_idx ty kA kB =
  Some {| resA := fmt_res kA; resB := fmt_res kB; water := water_idx;
          type := if String.eqb ty "hbond" then "Hydrogen Bond" else "Polar Contact";
          distA := a.2; distB := b.2; total_distance := (a.2 + b.2)%float |}.
Proof. intros Ha Hb Hle. unfold pair_record. rewrite Ha, Hb. simpl. by rewrite Hle. Qed.

(** The atoms behind the two sides of the records of a list. *)
Lemma records_from_contacts (tk : Toolkit) (ord : SetOrder) (water_coords : Coord)
    (contacts_A contacts_B : list Contact) (water_idx : Z) (ty : string)
    (sA sB : list ResidueKey) (dA dB : gmap ResidueKey (Z * float)) :
  collected tk water_coords contacts_A ([], ∅) = Some (sA, dA) →
  collected tk water_coords contacts_B ([], ∅) = Some (sB, dB) →
  Forall (λ r,
      (∃ c atom, c ∈ contacts_A ∧ resolve tk c = Some atom ∧ resn atom ≠ "HOH"
                 ∧ resA r = fmt_res (residue_key atom)
                 ∧ distA r = distance_between_coords (coord atom) water_coords)
      ∧ (∃ c atom, c ∈ contacts_B ∧ resolve tk c = Some atom ∧ resn atom ≠ "HOH"
                   ∧ resB r = fmt_res (residue_key atom)
                   ∧ distB r = distance_between_coords (coord atom) water_coords))
    (omap (λ p, pair_record dA dB water_idx ty p.1 p.2) (visited_pairs ord sA sB)).
Proof.
  intros HA%collected_last_wins HB%collected_last_wins.
  apply Forall_forall. intros r ([kA kB] & _ & Hr)%list_elem_of_omap.
  apply pair_record_residues in Hr as (a & b & Ha & Hb & -> & -> & -> & ->).
  destruct (last_wins_source _ _ _ _ _ _ HA Ha) as (cA & atomA & ? & ? & ? & -> & ->).
  destruct (last_wins_source _ _ _ _ _ _ HB Hb) as (cB & atomB & ? & ? & ? & -> & ->).
  split; [by exists cA, atomA | by exists cB, atomB].
Qed.

(** * The claims *)

(** What a returning call of [process_interactions] has done. *)
Lemma process_interactions_returns (tk : Toolkit) (ord : SetOrder)
    (contacts_A contacts_B : list Contact) (water_obj : string)
    (water_idx interaction_id : Z) (interaction_type : string)
    (interaction_list : list InteractionRecord)
    (domainA domainB water_sele : string) (water_coords : Coord)
    (id' : Z) (il' : list InteractionRecord) :
  result (process_interactions tk ord contacts_A contacts_B water_obj water_idx
            interaction_id interaction_type interaction_list domainA domainB
            water_sele water_coords) = Return (id', il') →
  ∃ resA_set resA_distances resB_set resB_distances,
    collected tk water_coords contacts_A ([], ∅) = Some (resA_set, resA_distances)
    ∧ collected tk water_coords contacts_B ([], ∅) = Some (resB_set, resB_distances)
    ∧ id' = (if truthy resA_set && truthy resB_set
             then interaction_id + 1 else interaction_id)
    ∧ il' = interaction_list ++
            omap (λ p, pair_record resA_distances resB_distances water_idx
                         interaction_type p.1 p.2)
                 (visited_pairs ord resA_set resB_set).
Proof.
  rewrite process_interactions_result.
  destruct (collected tk water_coords contacts_A ([], ∅)) as [[sA dA]|]; [|done].
  destruct (collected tk water_coords contacts_B ([], ∅)) as [[sB dB]|]; [|done].
  intros H. exists sA, dA, sB, dB. rewrite <- emitted_records_visited.
  destruct (negb (truthy sA) || negb (truthy sB)) eqn:E; injection H as <- <-.
  - rewrite emitted_records_empty, app_nil_r by done.
    split_and!; try done. by destruct (truthy sA), (truthy sB).
  - split_and!; try done. by destruct (truthy sA), (truthy sB).
Qed.

(** C1. Every record a call of [process_interactions] appends has
    [total_distance = distA + distB] and [total_distance <= 7.0]; the records
    appended are those of the pairs of residues visited, one per pair that
    passes the test, and a pair whose total distance exceeds 7.0 yields no
    record. *)
Theorem C1_total_distance_invariant (tk : Toolkit) (ord : SetOrder)
    (contacts_A contacts_B : list Contact) (water_obj : string)
    (water_idx interaction_id : Z) (interaction_type : string)
    (interaction_list : list InteractionRecord)
    (domainA domainB water_sele : string) (water_coords : Coord)
    (id' : Z) (il' : list InteractionRecord) :
  result (process_interactions tk ord contacts_A contacts_B water_obj water_idx
            interaction_id interaction_type interaction_list domainA domainB
            water_sele water_coords) = Return (id', il') →
  ∃ resA_set resA_distances resB_set resB_distances new,
    collected tk water_coords contacts_A ([], ∅) = Some (resA_set, resA_distances)
    ∧ collected tk water_coords contacts_B ([], ∅) = Some (resB_set, resB_distances)
    ∧ il' = interaction_list ++ new
    ∧ new = omap (λ p, pair_record resA_distances resB_distances water_idx
                         interaction_type p.1 p.2)
                 (visited_pairs ord resA_set resB_set)
    ∧ (∀ r, r ∈ new →
         total_distance r = (distA r + distB r)%float
         ∧ (total_distance r <=? 7.0)%float = true)
    ∧ (∀ kA kB a b,
         resA_distances !! kA = Some a → resB_distances !! kB = Some b →
         (7.0 <? a.2 + b.2)%float = true →
         pair_record resA_distances resB_distances water_idx interaction_type
           kA kB = None).
Proof.
  intros (sA & dA & sB & dB & HA & HB & _ & ->)%process_interactions_returns.
  eexists sA, dA, sB, dB, _. split_and!; try done.
  - intros r ([kA kB] & _ & Hr)%list_elem_of_omap.
    apply pair_record_Some in Hr as (? & ? & _). done.
  - intros kA kB a b. apply pair_record_exceeds.
Qed.

(** The call for the water of [scene_hbond]: SER 5 against ASP 9 (4.25) and
    LYS 12 (5.0) are recorded, SER 5 against GLY 20 (8.0) is dropped. *)
Lemma C1_witness :
  ∃ id' il',
    result (process_interactions tk_hbond insertion_order hbond_contacts_A
              hbond_contacts_B "m" 10 0 "hbond" [] "chain A" "chain B" wat_sele origin)
    = Return (id', il')
    ∧ length il' = 2%nat
    ∧ ∃ resA_set resA_distances resB_set resB_distances new,
        collected tk_hbond origin hbond_contacts_A ([], ∅) = Some (resA_set, resA_distances)
        ∧ collected tk_hbond origin hbond_contacts_B ([], ∅) = Some (resB_set, resB_distances)
        ∧ il' = [] ++ new
        ∧ new = omap (λ p, pair_record resA_distances resB_distances 10 "hbond" p.1 p.2)
                     (visited_pairs insertion_order resA_set resB_set)
        ∧ (∀ r, r ∈ new →
             total_distance r = (distA r + distB r)%float
             ∧ (total_distance r <=? 7.0)%float = true)
        ∧ (∀ kA kB a b,
             resA_distances !! kA = Some a → resB_distances !! kB = Some b →
             (7.0 <? a.2 + b.2)%float = true →
             pair_record resA_distances resB_distances 10 "hbond" kA kB = None).
Proof.
  eexists _, _. split_and!.
  - vm_compute. reflexivity.
  - reflexivity.
  - apply (C1_total_distance_invariant tk_hbond insertion_order hbond_contacts_A
             hbond_contacts_B "m" 10 0 "hbond" [] "chain A" "chain B" wat_sele origin 1).
    vm_compute. reflexivity.
Defined.

(** C2, as the claim states it, fails: the searches of the bridging water of
    [scene_water_first] return hydrogen bonds on both sides, and the rule
    gives Hydrogen Bond, yet no record is appended for the water and the run
    returns none: the contact of side A starts with the water itself, so
    side A keeps no residue and the call returns at the guard of lines
    218-219. *)
Lemma C2_counterexample :
  result (search_contacts tk_water_first "chain A" "chain B" wat_sele)
  = Return (origin, [pair2 wat_ref ("m", 1)], [pair2 ("m", 3) wat_ref], [], [])
  ∧ four_way_rule (truthy [pair2 wat_ref ("m", 1)]) (truthy [pair2 ("m", 3) wat_ref])
      (truthy (@nil Contact)) (truthy (@nil Contact)) = Some HydrogenBond
  ∧ result (classify_and_process tk_water_first insertion_order "chain A" "chain B"
              "m" 10 wat_sele origin [pair2 wat_ref ("m", 1)] [pair2 ("m", 3) wat_ref]
              [] [] (0, 0, []))
    = Return (0, 0, [])
  ∧ result (select_residue_water_residue_combined tk_water_first insertion_order
              "chain A" "chain B") = Return [].
Proof.
  split_and!.
  - vm_compute. reflexivity.
  - reflexivity.
  - vm_compute. reflexivity.
  - vm_compute. reflexivity.
Qed.

(** C2, amended. The four-way rule decides with which category the contacts of
    a water are aggregated, not that a record results.  When the rule gives
    a category, [process_interactions] is run on the hydrogen-bond list of
    each side if it is non-empty and on its polar-contact list otherwise,
    with the identifier and the tag of that category: hydrogen bonds on both
    sides give Hydrogen Bond; a hydrogen bond on exactly one side with a
    polar contact on the other, or polar contacts on both sides, give Polar
    Contact.  The water then ends with [IndexError] if a contact has no
    atom, and otherwise with the list extended by exactly one record per
    visited pair of residues whose total distance is at most 7.0, which can
    be none: every such record is of the category, every such pair has its
    record, and only the identifier of the category can move.  Any other
    combination leaves the state as it is and logs nothing. *)
Theorem C2_four_way_classification (tk : Toolkit) (ord : SetOrder)
    (domainA domainB water_obj : string) (water_idx : Z) (water_sele : string)
    (water_coords : Coord)
    (hbonds_A hbonds_B polar_contacts_A polar_contacts_B : list Contact)
    (hbond_id polar_contact_id : Z) (interaction_list : list InteractionRecord) :
  let run := classify_and_process tk ord domainA domainB water_obj water_idx
               water_sele water_coords hbonds_A hbonds_B polar_contacts_A
               polar_contacts_B (hbond_id, polar_contact_id, interaction_list) in
  let contacts_A := if truthy hbonds_A then hbonds_A else polar_contacts_A in
  let contacts_B := if truthy hbonds_B then hbonds_B else polar_contacts_B in
  match four_way_rule (truthy hbonds_A) (truthy hbonds_B)
          (truthy polar_contacts_A) (truthy polar_contacts_B) with
  | None => run = ([], Return (hbond_id, polar_contact_id, interaction_list))
  | Some cat =>
      trace run
      = trace (process_interactions tk ord contacts_A contacts_B water_obj water_idx
                 (counter_of cat hbond_id polar_contact_id) (category_tag cat)
                 interaction_list domainA domainB water_sele water_coords)
      ∧ match collected tk water_coords contacts_A ([], ∅),
              collected tk water_coords contacts_B ([], ∅) with
        | Some (resA_set, resA_distances), Some (resB_set, resB_distances) =>
            let new := omap (λ p, pair_record resA_distances resB_distances
                                    water_idx (category_tag cat) p.1 p.2)
                            (visited_pairs ord resA_set resB_set) in
            let moved := truthy resA_set && truthy resB_set in
            result run
            = Return (match cat with
                      | HydrogenBond =>
                          (if moved then hbond_id + 1 else hbond_id, polar_contact_id)
                      | PolarContact =>
                          (hbond_id,
                           if moved then polar_contact_id + 1 else polar_contact_id)
                      end, interaction_list ++ new)
            ∧ Forall (λ r, type r = category_type cat) new
            ∧ ∀ resA_info resB_info a b,
                resA_info ∈ resA_set → resB_info ∈ resB_set →
                resA_distances !! resA_info = Some a →
                resB_distances !! resB_info = Some b →
                (a.2 + b.2 <=? 7.0)%float = true →
                {| resA := fmt_res resA_info; resB := fmt_res resB_info;
                   water := water_idx; type := category_type cat;
                   distA := a.2; distB := b.2;
                   total_distance := (a.2 + b.2)%float |} ∈ new
        | _, _ => result run = Raise IndexError
        end
  end.
Proof.
  intros run contacts_A contacts_B.
  pose proof (classify_and_process_result tk ord domainA domainB water_obj water_idx
                water_sele water_coords hbonds_A hbonds_B polar_contacts_A
                polar_contacts_B hbond_id polar_contact_id interaction_list) as Hres.
  fold run contacts_A contacts_B in Hres.
  assert (Hrun := classify_and_process_eq tk domainA domainB water_obj water_idx
                    water_sele water_coords hbonds_A hbonds_B polar_contacts_A
                    polar_contacts_B hbond_id polar_contact_id ord interaction_list).
  fold run in Hrun.
  destruct (four_way_rule _ _ _ _) as [cat|]; [|done].
  split.
  - rewrite Hrun, trace_bind.
    change (py_or hbonds_A polar_contacts_A) with contacts_A.
    change (py_or hbonds_B polar_contacts_B) with contacts_B.
    destruct (process_interactions _ _ _ _ _ _ _ _ _ _ _ _ _) as [tr [[id' il']|e]];
      cbn [trace result fst snd]; [|by rewrite app_nil_r].
    destruct cat; cbn [with_counter mret trace fst]; by rewrite app_nil_r.
  - destruct (collected tk water_coords contacts_A ([], ∅)) as [[sA dA]|]; [|done].
    destruct (collected tk water_coords contacts_B ([], ∅)) as [[sB dB]|]; [|done].
    cbv zeta. split_and!.
    + rewrite Hres. by destruct cat.
    + apply Forall_forall. intros r ([kA kB] & _ & Hr)%list_elem_of_omap.
      apply pair_record_Some in Hr as (_ & _ & _ & -> & _). by destruct cat.
    + intros kA kB a b HkA HkB Ha Hb Hle.
      apply list_elem_of_omap. exists (kA, kB). split.
      * by apply visited_pairs_elem.
      * cbn [fst snd]. rewrite (pair_record_within _ _ _ _ _ _ a b) by done.
        by destruct cat.
Qed.

(** The water of [scene_hbond], with hydrogen bonds on both sides, gets two
    Hydrogen Bond records, SER 5 with ASP 9 and with LYS 12, and moves the
    hydrogen-bond identifier; the pair of SER 5 and GLY 20, at 2.0 and 6.0,
    gets none. *)
Lemma C2_witness :
  (∃ r1 r2,
      result (classify_and_process tk_hbond insertion_order "chain A" "chain B"
                "m" 10 wat_sele origin hbond_contacts_A hbond_contacts_B [] []
                (0, 0, []))
      = Return (1, 0, [r1; r2])
      ∧ type r1 = "Hydrogen Bond" ∧ type r2 = "Hydrogen Bond"
      ∧ total_distance r1 = 4.25%float ∧ total_distance r2 = 5%float)
  ∧ let run := classify_and_process tk_hbond insertion_order "chain A" "chain B"
                 "m" 10 wat_sele origin hbond_contacts_A hbond_contacts_B [] []
                 (0, 0, []) in
    let contacts_A := if truthy hbond_contacts_A then hbond_contacts_A else [] in
    let contacts_B := if truthy hbond_contacts_B then hbond_contacts_B else [] in
    match four_way_rule (truthy hbond_contacts_A) (truthy hbond_contacts_B)
            (truthy (@nil Contact)) (truthy (@nil Contact)) with
    | None => run = ([], Return (0, 0, []))
    | Some cat =>
        trace run
        = trace (process_interactions tk_hbond insertion_order contacts_A contacts_B
                   "m" 10 (counter_of cat 0 0) (category_tag cat)
                   [] "chain A" "chain B" wat_sele origin)
        ∧ match collected tk_hbond origin contacts_A ([], ∅),
                collected tk_hbond origin contacts_B ([], ∅) with
          | Some (resA_set, resA_distances), Some (resB_set, resB_distances) =>
              let new := omap (λ p, pair_record resA_distances resB_distances
                                      10 (category_tag cat) p.1 p.2)
                              (visited_pairs insertion_order resA_set resB_set) in
              let moved := truthy resA_set && truthy resB_set in
              result run
              = Return (match cat with
                        | HydrogenBond => (if moved then 0 + 1 else 0, 0)
                        | PolarContact => (0, if moved then 0 + 1 else 0)
                        end, [] ++ new)
              ∧ Forall (λ r, type r = category_type cat) new
              ∧ ∀ resA_info resB_info a b,
                  resA_info ∈ resA_set → resB_info ∈ resB_set →
                  resA_distances !! resA_info = Some a →
                  resB_distances !! resB_info = Some b →
                  (a.2 + b.2 <=? 7.0)%float = true →
                  {| resA := fmt_res resA_info; resB := fmt_res resB_info;
                     water := 10; type := category_type cat;
                     distA := a.2; distB := b.2;
                     total_distance := (a.2 + b.2)%float |} ∈ new
          | _, _ => result run = Raise IndexError
          end
    end.
Proof.
  split; [eexists _, _; split_and!; [vm_compute; reflexivity | reflexivity ..]|].
  exact (C2_four_way_classification tk_hbond insertion_order "chain A" "chain B" "m" 10
           wat_sele origin hbond_contacts_A hbond_contacts_B [] [] 0 0 []).
Defined.

(** C3, as the claim states it, fails: of the two atoms of SER 5 in contact
    with the water of [scene_hbond], at 1.0 and at 2.0, the dictionary keeps
    the one at 2.0, which comes last in the contact list. *)
Lemma C3_counterexample :
  ∃ res_set res_distances,
    collected tk_hbond origin hbond_contacts_A ([], ∅) = Some (res_set, res_distances)
    ∧ ¬ keeps_minimum tk_hbond origin hbond_contacts_A res_distances.
Proof.
  assert (Hlook : collected tk_hbond origin hbond_contacts_A ([], ∅)
                  ≫= (λ r, r.2 !! ser5) = Some (1, 2%float))
    by (vm_compute; reflexivity).
  destruct (collected tk_hbond origin hbond_contacts_A ([], ∅)) as [[s d]|];
    [|discriminate].
  simpl in Hlook. exists s, d. split; [done|].
  intros Hmin.
  assert (Hle : (2 <=? 1)%float = true).
  { apply (Hmin ser5 (1, 2%float) Hlook (pair2 ("m", 2) wat_ref) (2, 1%float)).
    - vm_compute. by left.
    - vm_compute. reflexivity. }
  vm_compute in Hle. discriminate.
Qed.

(** C3, amended. A call of [process_interactions] that returns has kept, on
    each side, one entry per residue: the atom and distance of the last
    contact of the list that resolves to the residue.  The sets hold each
    residue once, so the double loop visits each pair of residues once and
    appends at most one record for it. *)
Theorem C3_one_representative_per_residue (tk : Toolkit) (ord : SetOrder)
    (contacts_A contacts_B : list Contact) (water_obj : string)
    (water_idx interaction_id : Z) (interaction_type : string)
    (interaction_list : list InteractionRecord)
    (domainA domainB water_sele : string) (water_coords : Coord)
    (id' : Z) (il' : list InteractionRecord) :
  result (process_interactions tk ord contacts_A contacts_B water_obj water_idx
            interaction_id interaction_type interaction_list domainA domainB
            water_sele water_coords) = Return (id', il') →
  ∃ resA_set resA_distances resB_set resB_distances,
    collected tk water_coords contacts_A ([], ∅) = Some (resA_set, resA_distances)
    ∧ collected tk water_coords contacts_B ([], ∅) = Some (resB_set, resB_distances)
    ∧ NoDup resA_set ∧ NoDup resB_set
    ∧ (∀ k, k ∈ resA_set ↔ is_Some (resA_distances !! k))
    ∧ (∀ k, k ∈ resB_set ↔ is_Some (resB_distances !! k))
    ∧ last_wins tk water_coords contacts_A resA_distances
    ∧ last_wins tk water_coords contacts_B resB_distances
    ∧ NoDup (visited_pairs ord resA_set resB_set)
    ∧ il' = interaction_list ++
            omap (λ p, pair_record resA_distances resB_distances water_idx
                         interaction_type p.1 p.2)
                 (visited_pairs ord resA_set resB_set).
Proof.
  intros (sA & dA & sB & dB & HA & HB & _ & ->)%process_interactions_returns.
  exists sA, dA, sB, dB.
  destruct (collected_consistent _ _ _ _ _ consistent_empty HA) as [HndA HdA].
  destruct (collected_consistent _ _ _ _ _ consistent_empty HB) as [HndB HdB].
  split_and!; try done.
  - by apply (collected_last_wins _ _ _ sA).
  - by apply (collected_last_wins _ _ _ sB).
  - by apply visited_pairs_NoDup.
Qed.

Lemma C3_witness :
  ∃ id' il',
    result (process_interactions tk_hbond reverse_order hbond_contacts_A
              hbond_contacts_B "m" 10 0 "hbond" [] "chain A" "chain B" wat_sele origin)
    = Return (id', il')
    ∧ ∃ resA_set resA_distances resB_set resB_distances,
        collected tk_hbond origin hbond_contacts_A ([], ∅) = Some (resA_set, resA_distances)
        ∧ collected tk_hbond origin hbond_contacts_B ([], ∅) = Some (resB_set, resB_distances)
        ∧ NoDup resA_set ∧ NoDup resB_set
        ∧ (∀ k, k ∈ resA_set ↔ is_Some (resA_distances !! k))
        ∧ (∀ k, k ∈ resB_set ↔ is_Some (resB_distances !! k))
        ∧ last_wins tk_hbond origin hbond_contacts_A resA_distances
        ∧ last_wins tk_hbond origin hbond_contacts_B resB_distances
        ∧ NoDup (visited_pairs reverse_order resA_set resB_set)
        ∧ il' = [] ++
                omap (λ p, pair_record resA_distances resB_distances 10 "hbond" p.1 p.2)
                     (visited_pairs reverse_order resA_set resB_set).
Proof.
  eexists _, _. split.
  - vm_compute. reflexivity.
  - apply (C3_one_representative_per_residue tk_hbond reverse_order hbond_contacts_A
             hbond_contacts_B "m" 10 0 "hbond" [] "chain A" "chain B" wat_sele origin 1).
    vm_compute. reflexivity.
Defined.

(** C4. In the events of one water, the polar-contact search of a side (its
    first query, [cmd.get_model] on the polar atoms of the domain) occurs only
    when the hydrogen-bond search of that side returned no pair. *)
Theorem C4_polar_search_only_without_hbonds (tk : Toolkit) (ord : SetOrder)
    (domainA domainB : string) (w : AtomRef) (st : LoopState)
    (hbonds_A hbonds_B : list Contact) :
  result (find_hydrogen_bonds tk domainA (water_sele_of w.1 w.2)
            hbond_distance_cutoff hbond_angle_cutoff) = Return hbonds_A →
  result (find_hydrogen_bonds tk domainB (water_sele_of w.1 w.2)
            hbond_distance_cutoff hbond_angle_cutoff) = Return hbonds_B →
  let tr := trace (water_body tk ord domainA domainB w st) in
  (∀ d, cmd_get_model (polar_sele d) ∈ tr →
        (d = domainA ∧ hbonds_A = []) ∨ (d = domainB ∧ hbonds_B = []))
  ∧ (hbonds_A ≠ [] → cmd_get_model (polar_sele domainA) ∉ tr)
  ∧ (hbonds_B ≠ [] → cmd_get_model (polar_sele domainB) ∉ tr).
Proof.
  rewrite !find_hydrogen_bonds_eq. cbn [result snd].
  fold (hbonds_of tk domainA (water_sele_of w.1 w.2)).
  fold (hbonds_of tk domainB (water_sele_of w.1 w.2)).
  intros [= <-] [= <-]. set (tr := trace (water_body tk ord domainA domainB w st)).
  assert (Htruthy : ∀ l : list Contact, truthy l = false → l = [])
    by (by intros []).
  assert (Hmain : ∀ d, cmd_get_model (polar_sele d) ∈ tr →
            (d = domainA ∧ hbonds_of tk domainA (water_sele_of w.1 w.2) = [])
            ∨ (d = domainB ∧ hbonds_of tk domainB (water_sele_of w.1 w.2) = [])).
  { intros d. unfold tr, water_body. destruct w as [water_obj water_idx], st as [[h p] il].
    rewrite trace_bind. intros [H|H]%elem_of_app.
    - apply search_contacts_polar in H as [[-> H]|[-> H]]; [left|right]; auto.
    - exfalso. destruct (result (search_contacts _ _ _ _))
        as [[[[[wc hbA] hbB] pcA] pcB]|e]; [|by apply elem_of_nil in H].
      pose proof (classify_and_process_trace tk domainA domainB water_obj water_idx
                    (water_sele_of water_obj water_idx) wc hbA hbB pcA pcB h p ord il)
        as Hall.
      rewrite Forall_forall in Hall.
      destruct (Hall _ H) as [[c Hc]|(ty & id & Hev)].
      + apply cmd_get_model_inj in Hc. by apply polar_sele_not_index in Hc.
      + inversion Hev. }
  split_and!; [done| |].
  - intros Hne [[_ ?]|[<- ?]]%Hmain; done.
  - intros Hne [[-> ?]|[_ ?]]%Hmain; done.
Qed.

(** The water of [scene_mixed]: hydrogen bond on side A, none on side B. *)
Lemma C4_witness :
  (∀ d, cmd_get_model (polar_sele d)
        ∈ trace (water_body tk_mixed insertion_order "chain A" "chain B" wat_ref (0, 0, [])) →
        (d = "chain A" ∧ [pair2 ("m", 1) wat_ref] = []) ∨ (d = "chain B" ∧ @nil Contact = []))
  ∧ ([pair2 ("m", 1) wat_ref] ≠ [] →
     cmd_get_model (polar_sele "chain A")
     ∉ trace (water_body tk_mixed insertion_order "chain A" "chain B" wat_ref (0, 0, [])))
  ∧ (@nil Contact ≠ [] →
     cmd_get_model (polar_sele "chain B")
     ∉ trace (water_body tk_mixed insertion_order "chain A" "chain B" wat_ref (0, 0, []))).
Proof.
  apply (C4_polar_search_only_without_hbonds tk_mixed insertion_order
           "chain A" "chain B" wat_ref (0, 0, []));
    vm_compute; reflexivity.
Defined.

(** C5. When [cmd.index] reports no bridging water, the run ends normally
    with an empty result; its trace is the set-up, the three counts, the
    message and the four deletions, so no visualization selection is made and
    the registry holds none of the script's names afterwards. *)
Theorem C5_no_bridging_water (tk : Toolkit) (ord : SetOrder) (domainA domainB : string) :
  tk_index tk bridge_query = [] →
  select_residue_water_residue_combined tk ord domainA domainB
    = (early_exit_trace tk domainA domainB, Return [])
  ∧ py_print "No bridging water molecules found between the specified domains within the specified distance."
    ∈ early_exit_trace tk domainA domainB
  ∧ (∀ name selection, cmd_select name selection ∈ early_exit_trace tk domainA domainB →
       name ∈ ["all_waters"; "water_near_A"; "water_near_B"; "water_bridge"])
  ∧ registry_after (early_exit_trace tk domainA domainB) = ∅.
Proof.
  intros Hidx. split_and!.
  - unfold select_residue_water_residue_combined, cmd.index.
    rewrite Hidx. reflexivity.
  - unfold early_exit_trace. do 11 apply list_elem_of_further. apply list_elem_of_here.
  - intros name selection. unfold early_exit_trace.
    intros H. rewrite !elem_of_cons, elem_of_nil in H.
    repeat (destruct H as [H|H]); try discriminate; try done;
      injection H as -> _; repeat constructor.
  - unfold registry_after, early_exit_trace. cbn [foldl]. set_solver.
Qed.

Lemma C5_witness :
  tk_index tk_no_bridge bridge_query = []
  ∧ select_residue_water_residue_combined tk_no_bridge insertion_order "chain A" "chain B"
    = (early_exit_trace tk_no_bridge "chain A" "chain B", Return [])
  ∧ py_print "No bridging water molecules found between the specified domains within the specified distance."
    ∈ early_exit_trace tk_no_bridge "chain A" "chain B"
  ∧ (∀ name selection,
       cmd_select name selection ∈ early_exit_trace tk_no_bridge "chain A" "chain B" →
       name ∈ ["all_waters"; "water_near_A"; "water_near_B"; "water_bridge"])
  ∧ registry_after (early_exit_trace tk_no_bridge "chain A" "chain B") = ∅.
Proof.
  split; [reflexivity|].
  apply (C5_no_bridging_water tk_no_bridge insertion_order "chain A" "chain B").
  reflexivity.
Defined.

(** C6, as the claim states it, fails: the water of [scene_water_first] is
    classified (hydrogen bonds on both sides), yet neither identifier moves,
    because every contact of side A starts with the water itself and is
    skipped. *)
Lemma C6_counterexample :
  ∃ water_coords hbonds_A hbonds_B polar_contacts_A polar_contacts_B,
    result (search_contacts tk_water_first "chain A" "chain B" wat_sele)
    = Return (water_coords, hbonds_A, hbonds_B, polar_contacts_A, polar_contacts_B)
    ∧ four_way_rule (truthy hbonds_A) (truthy hbonds_B)
        (truthy polar_contacts_A) (truthy polar_contacts_B) = Some HydrogenBond
    ∧ result (water_body tk_water_first insertion_order "chain A" "chain B"
                wat_ref (0, 0, []))
      = Return (0, 0, []).
Proof.
  eexists _, _, _, _, _. split_and!.
  - vm_compute. reflexivity.
  - reflexivity.
  - vm_compute. reflexivity.
Qed.

(** C6, amended. A call of [process_interactions] whose atoms are all found
    returns the identifier plus one when both sides keep at least one
    residue, and the identifier unchanged otherwise, whatever the number of
    records it appends; every distance object it creates is named after the
    incremented identifier. *)
Theorem C6_identifier_increment (tk : Toolkit) (ord : SetOrder)
    (contacts_A contacts_B : list Contact) (water_obj : string)
    (water_idx interaction_id : Z) (interaction_type : string)
    (interaction_list : list InteractionRecord)
    (domainA domainB water_sele : string) (water_coords : Coord) :
  Forall (λ c, is_Some (resolve tk c)) contacts_A →
  Forall (λ c, is_Some (resolve tk c)) contacts_B →
  let run := process_interactions tk ord contacts_A contacts_B water_obj water_idx
               interaction_id interaction_type interaction_list domainA domainB
               water_sele water_coords in
  ∃ resA_set resA_distances resB_set resB_distances,
    collected tk water_coords contacts_A ([], ∅) = Some (resA_set, resA_distances)
    ∧ collected tk water_coords contacts_B ([], ∅) = Some (resB_set, resB_distances)
    ∧ result run =
        Return (if truthy resA_set && truthy resB_set
                then interaction_id + 1 else interaction_id,
                interaction_list ++
                  emitted_records ord resA_set resB_set resA_distances
                    resB_distances water_idx interaction_type)
    ∧ ∃ lookups emitted,
        trace run = lookups ++ emitted
        ∧ Forall is_lookup lookups
        ∧ Forall (emitted_event interaction_type (interaction_id + 1)) emitted.
Proof.
  intros HfA HfB run.
  destruct (collected_is_Some tk water_coords contacts_A ([], ∅) HfA) as [[sA dA] HA].
  destruct (collected_is_Some tk water_coords contacts_B ([], ∅) HfB) as [[sB dB] HB].
  exists sA, dA, sB, dB. split_and!; [done | done | |].
  - unfold run. rewrite process_interactions_result, HA, HB.
    destruct (negb (truthy sA) || negb (truthy sB)) eqn:E.
    + rewrite emitted_records_empty, app_nil_r by done.
      by destruct (truthy sA), (truthy sB).
    + by destruct (truthy sA), (truthy sB).
  - destruct (process_interactions_trace tk ord contacts_A contacts_B water_obj
                water_idx interaction_id interaction_type interaction_list
                domainA domainB water_sele water_coords)
      as (lookups & emitted & Htr & Hl & He & _).
    by exists lookups, emitted.
Qed.

(** Every atom named by the contacts of [scene_hbond] is found. *)
Lemma hbond_contacts_found :
  Forall (λ c, is_Some (resolve tk_hbond c)) hbond_contacts_A
  ∧ Forall (λ c, is_Some (resolve tk_hbond c)) hbond_contacts_B.
Proof.
  split.
  - apply (Forall_cons_2 _ (pair2 ("m", 2) wat_ref)); [by exists ser_OG|].
    apply (Forall_cons_2 _ (pair2 ("m", 1) wat_ref)); [by exists ser_N|].
    constructor.
  - apply (Forall_cons_2 _ (pair2 ("m", 3) wat_ref)); [by exists asp_OD1|].
    apply (Forall_cons_2 _ (pair2 ("m", 4) wat_ref)); [by exists lys_NZ|].
    apply (Forall_cons_2 _ (pair2 ("m", 5) wat_ref)); [by exists far_O|].
    apply (Forall_cons_2 _ (pair2 wat_ref ("m", 3))); [by exists wat|].
    constructor.
Defined.

(** The water of [scene_hbond]: the identifier goes from 0 to 1 and two
    records are appended. *)
Lemma C6_witness :
  Forall (λ c, is_Some (resolve tk_hbond c)) hbond_contacts_A
  ∧ Forall (λ c, is_Some (resolve tk_hbond c)) hbond_contacts_B
  ∧ ∃ resA_set resA_distances resB_set resB_distances,
      collected tk_hbond origin hbond_contacts_A ([], ∅) = Some (resA_set, resA_distances)
      ∧ collected tk_hbond origin hbond_contacts_B ([], ∅) = Some (resB_set, resB_distances)
      ∧ result (process_interactions tk_hbond insertion_order hbond_contacts_A
                  hbond_contacts_B "m" 10 0 "hbond" [] "chain A" "chain B" wat_sele origin)
        = Return (if truthy resA_set && truthy resB_set then 0 + 1 else 0,
                  [] ++ emitted_records insertion_order resA_set resB_set
                          resA_distances resB_distances 10 "hbond")
      ∧ ∃ lookups emitted,
          trace (process_interactions tk_hbond insertion_order hbond_contacts_A
                   hbond_contacts_B "m" 10 0 "hbond" [] "chain A" "chain B" wat_sele origin)
          = lookups ++ emitted
          ∧ Forall is_lookup lookups
          ∧ Forall (emitted_event "hbond" (0 + 1)) emitted.
Proof.
  split; [exact (proj1 hbond_contacts_found)|].
  split; [exact (proj2 hbond_contacts_found)|].
  exact (C6_identifier_increment tk_hbond insertion_order hbond_contacts_A
           hbond_contacts_B "m" 10 0 "hbond" [] "chain A" "chain B" wat_sele origin
           (proj1 hbond_contacts_found) (proj2 hbond_contacts_found)).
Defined.

(** One water moves at most one of the two identifiers, by at most one. *)
Lemma water_body_counters (tk : Toolkit) (ord : SetOrder) (domainA domainB : string)
    (w : AtomRef) (hbond_id polar_contact_id : Z) (il : list InteractionRecord)
    (hbond_id' polar_contact_id' : Z) (il' : list InteractionRecord) :
  result (water_body tk ord domainA domainB w (hbond_id, polar_contact_id, il))
    = Return (hbond_id', polar_contact_id', il') →
  (hbond_id' = hbond_id ∧ polar_contact_id' = polar_contact_id)
  ∨ (hbond_id' = hbond_id + 1 ∧ polar_contact_id' = polar_contact_id)
  ∨ (hbond_id' = hbond_id ∧ polar_contact_id' = polar_contact_id + 1).
Proof.
  destruct w as [water_obj water_idx]. unfold water_body. rewrite result_bind.
  destruct (result (search_contacts _ _ _ _)) as [[[[[wc hbA] hbB] pcA] pcB]|e]; [|done].
  rewrite classify_and_process_eq.
  destruct (four_way_rule _ _ _ _) as [cat|]; [|intros [= <- <- <-]; by left].
  rewrite result_bind.
  destruct (result (process_interactions _ _ _ _ _ _ _ _ _ _ _ _ _))
    as [[id2 il2]|e] eqn:Hrun; [|done].
  apply process_interactions_returns in Hrun as (sA & dA & sB & dB & _ & _ & -> & _).
  destruct cat; simpl; intros [= <- <- <-];
    destruct (truthy sA && truthy sB); auto.
Qed.

(** C7. The hydrogen-bond search asks [cmd.find_pairs] twice, domain to
    water and water to domain, with mode 1 and the same two cutoffs, and
    returns the pairs of the first answer followed by those of the second: a
    pair is returned exactly when one of the two answers holds it. *)
Theorem C7_hbond_search_both_directions (tk : Toolkit) (domain_sele water_sele : string)
    (distance_cutoff angle_cutoff : float) :
  let there := tk_find_pairs tk (hbond_sele domain_sele) water_sele 1
                 distance_cutoff angle_cutoff in
  let back := tk_find_pairs tk water_sele (hbond_sele domain_sele) 1
                distance_cutoff angle_cutoff in
  let run := find_hydrogen_bonds tk domain_sele water_sele distance_cutoff angle_cutoff in
  trace run =
    [cmd_find_pairs (hbond_sele domain_sele) water_sele 1 distance_cutoff angle_cutoff;
     cmd_find_pairs water_sele (hbond_sele domain_sele) 1 distance_cutoff angle_cutoff]
  ∧ result run = Return (uncurry pair2 <$> (there ++ back))
  ∧ (∀ a b, pair2 a b ∈ (uncurry pair2 <$> (there ++ back) : list Contact)
            ↔ (a, b) ∈ there ∨ (a, b) ∈ back).
Proof.
  intros there back run. unfold run. rewrite find_hydrogen_bonds_eq.
  split_and!; [done | by rewrite fmap_app |].
  intros a b. rewrite list_elem_of_fmap, <- elem_of_app. split.
  - intros ([a' b'] & [= -> ->] & H). done.
  - intros H. by exists (a, b).
Qed.

(** C8. With the toolkit's answers fixed, two runs on the same domains end
    alike, whatever the order in which each run visits its sets: both raise
    the same exception, or both return the same records up to their order. *)
Theorem C8_determinism (tk : Toolkit) (ord1 ord2 : SetOrder) (domainA domainB : string) :
  same_records
    (result (select_residue_water_residue_combined tk ord1 domainA domainB))
    (result (select_residue_water_residue_combined tk ord2 domainA domainB)).
Proof.
  rewrite !select_residue_water_residue_combined_result.
  destruct (negb (truthy (tk_index tk bridge_query))); [by constructor|].
  pose proof (for_each_related same_state
                (water_body tk ord1 domainA domainB)
                (water_body tk ord2 domainA domainB)
                (tk_index tk bridge_query)
                (λ w s1 s2, water_body_order tk ord1 ord2 domainA domainB w s1 s2)
                (0, 0, []) (0, 0, []) (conj eq_refl (reflexivity _))) as H.
  destruct (result (for_each _ (water_body tk ord1 domainA domainB) _)) as [st1|e1],
           (result (for_each _ (water_body tk ord2 domainA domainB) _)) as [st2|e2];
    try done.
  by destruct H.
Qed.

(** C9. When, on at least one side, every contact resolves to a water,
    [process_interactions] changes nothing: all it asks of the toolkit are
    the lookups of the atoms (no selection, no distance object), and it can
    only return the identifier and the list it was given or stop on a lookup
    of the other side that finds no atom; when the atoms of all contacts are
    found it returns them. *)
Theorem C9_all_solvent_side (tk : Toolkit) (ord : SetOrder)
    (contacts_A contacts_B : list Contact) (water_obj : string)
    (water_idx interaction_id : Z) (interaction_type : string)
    (interaction_list : list InteractionRecord)
    (domainA domainB water_sele : string) (water_coords : Coord) :
  Forall (solvent_contact tk) contacts_A ∨ Forall (solvent_contact tk) contacts_B →
  let run := process_interactions tk ord contacts_A contacts_B water_obj water_idx
               interaction_id interaction_type interaction_list domainA domainB
               water_sele water_coords in
  Forall is_lookup (trace run)
  ∧ (result run = Return (interaction_id, interaction_list)
     ∨ result run = Raise IndexError)
  ∧ (Forall (λ c, is_Some (resolve tk c)) contacts_A →
     Forall (λ c, is_Some (resolve tk c)) contacts_B →
     result run = Return (interaction_id, interaction_list)).
Proof.
  intros Hsolvent run.
  assert (Hres : match collected tk water_coords contacts_A ([], ∅),
                       collected tk water_coords contacts_B ([], ∅) with
                 | Some _, Some _ => result run = Return (interaction_id, interaction_list)
                 | _, _ => result run = Raise IndexError
                 end).
  { unfold run. rewrite process_interactions_result.
    destruct Hsolvent as [Hs|Hs]; rewrite (collected_all_solvent _ _ _ _ Hs).
    - by destruct (collected tk water_coords contacts_B ([], ∅)) as [[sB dB]|].
    - destruct (collected tk water_coords contacts_A ([], ∅)) as [[sA dA]|]; [|done].
      by rewrite orb_true_r. }
  assert (Hcases : result run = Return (interaction_id, interaction_list)
                   ∨ result run = Raise IndexError).
  { destruct (collected tk water_coords contacts_A ([], ∅)),
             (collected tk water_coords contacts_B ([], ∅)); auto. }
  split_and!.
  - destruct (process_interactions_trace tk ord contacts_A contacts_B water_obj
                water_idx interaction_id interaction_type interaction_list
                domainA domainB water_sele water_coords)
      as (lookups & emitted & Htr & Hl & _ & Hnone).
    fold run in Htr, Hnone. rewrite Htr, Hnone, app_nil_r; [done|].
    intros il' Heq. destruct Hcases as [Hc|Hc]; rewrite Hc in Heq; [|done].
    injection Heq as Hid _. lia.
  - done.
  - intros HfA HfB.
    destruct (collected_is_Some tk water_coords contacts_A ([], ∅) HfA) as [rA HA].
    destruct (collected_is_Some tk water_coords contacts_B ([], ∅) HfB) as [rB HB].
    by rewrite HA, HB in Hres.
Qed.

(** The water of [scene_water_first]: the only contact of side A is the
    water itself. *)
Lemma C9_witness :
  (Forall (solvent_contact tk_water_first) [pair2 wat_ref ("m", 1)]
   ∨ Forall (solvent_contact tk_water_first) [pair2 ("m", 3) wat_ref])
  ∧ Forall is_lookup
      (trace (process_interactions tk_water_first insertion_order
                [pair2 wat_ref ("m", 1)] [pair2 ("m", 3) wat_ref] "m" 10 4 "hbond" []
                "chain A" "chain B" wat_sele origin))
  ∧ (result (process_interactions tk_water_first insertion_order
               [pair2 wat_ref ("m", 1)] [pair2 ("m", 3) wat_ref] "m" 10 4 "hbond" []
               "chain A" "chain B" wat_sele origin) = Return (4, [])
     ∨ result (process_interactions tk_water_first insertion_order
                 [pair2 wat_ref ("m", 1)] [pair2 ("m", 3) wat_ref] "m" 10 4 "hbond" []
                 "chain A" "chain B" wat_sele origin) = Raise IndexError)
  ∧ (Forall (λ c, is_Some (resolve tk_water_first c)) [pair2 wat_ref ("m", 1)] →
     Forall (λ c, is_Some (resolve tk_water_first c)) [pair2 ("m", 3) wat_ref] →
     result (process_interactions tk_water_first insertion_order
               [pair2 wat_ref ("m", 1)] [pair2 ("m", 3) wat_ref] "m" 10 4 "hbond" []
               "chain A" "chain B" wat_sele origin) = Return (4, [])).
Proof.
  assert (Hs : Forall (solvent_contact tk_water_first) [pair2 wat_ref ("m", 1)]).
  { repeat constructor. exists wat. split; vm_compute; reflexivity. }
  split; [left; exact Hs|].
  apply (C9_all_solvent_side tk_water_first insertion_order
           [pair2 wat_ref ("m", 1)] [pair2 ("m", 3) wat_ref] "m" 10 4 "hbond" []
           "chain A" "chain B" wat_sele origin).
  left. exact Hs.
Defined.

(** C10. For a water whose searches succeed, the two lists collected by
    [process_interactions] are, for each side, the hydrogen-bond list of the
    side when it is non-empty and its polar-contact list otherwise, in every
    branch of the rule; a side with a hydrogen bond has an empty
    polar-contact list.  The water then ends with [IndexError] if a contact
    of these lists has no atom, and otherwise with the list extended by the
    records of the pairs of residues collected from these two lists; each
    record is of the category of the rule and names on each side the residue
    and the distance of an atom looked up for a contact of the list of that
    side.  In the mixed case the records are Polar Contact records, only the
    polar-contact identifier can move, and the side that has a hydrogen bond
    is built from the pairs of its hydrogen-bond list. *)
Theorem C10_contacts_passed (tk : Toolkit) (ord : SetOrder) (domainA domainB : string)
    (w : AtomRef) (hbond_id polar_contact_id : Z)
    (interaction_list : list InteractionRecord) (water_coords : Coord)
    (hbonds_A hbonds_B polar_contacts_A polar_contacts_B : list Contact) :
  result (search_contacts tk domainA domainB (water_sele_of w.1 w.2)) =
    Return (water_coords, hbonds_A, hbonds_B, polar_contacts_A, polar_contacts_B) →
  let run := water_body tk ord domainA domainB w
               (hbond_id, polar_contact_id, interaction_list) in
  let contacts_A := if truthy hbonds_A then hbonds_A else polar_contacts_A in
  let contacts_B := if truthy hbonds_B then hbonds_B else polar_contacts_B in
  result (find_hydrogen_bonds tk domainA (water_sele_of w.1 w.2)
            hbond_distance_cutoff hbond_angle_cutoff) = Return hbonds_A
  ∧ result (find_hydrogen_bonds tk domainB (water_sele_of w.1 w.2)
              hbond_distance_cutoff hbond_angle_cutoff) = Return hbonds_B
  ∧ (truthy hbonds_A = true → polar_contacts_A = [])
  ∧ (truthy hbonds_B = true → polar_contacts_B = [])
  ∧ trace run
    = trace (search_contacts tk domainA domainB (water_sele_of w.1 w.2))
      ++ match four_way_rule (truthy hbonds_A) (truthy hbonds_B)
                 (truthy polar_contacts_A) (truthy polar_contacts_B) with
         | Some cat =>
             trace (process_interactions tk ord contacts_A contacts_B w.1 w.2
                      (counter_of cat hbond_id polar_contact_id) (category_tag cat)
                      interaction_list domainA domainB (water_sele_of w.1 w.2)
                      water_coords)
         | None => []
         end
  ∧ match four_way_rule (truthy hbonds_A) (truthy hbonds_B)
            (truthy polar_contacts_A) (truthy polar_contacts_B) with
    | None => result run = Return (hbond_id, polar_contact_id, interaction_list)
    | Some cat =>
        match collected tk water_coords contacts_A ([], ∅),
              collected tk water_coords contacts_B ([], ∅) with
        | Some (resA_set, resA_distances), Some (resB_set, resB_distances) =>
            let new := omap (λ p, pair_record resA_distances resB_distances
                                    w.2 (category_tag cat) p.1 p.2)
                            (visited_pairs ord resA_set resB_set) in
            (∃ hbond_id' polar_contact_id',
                result run
                = Return (hbond_id', polar_contact_id', interaction_list ++ new))
            ∧ Forall (λ r, type r = category_type cat
                           ∧ built_from tk water_coords contacts_A (resA r) (distA r)
                           ∧ built_from tk water_coords contacts_B (resB r) (distB r))
                new
        | _, _ => result run = Raise IndexError
        end
    end
  ∧ (truthy hbonds_A = true → truthy hbonds_B = false →
     truthy polar_contacts_B = true →
     match collected tk water_coords hbonds_A ([], ∅),
           collected tk water_coords polar_contacts_B ([], ∅) with
     | Some (resA_set, resA_distances), Some (resB_set, resB_distances) =>
         let new := omap (λ p, pair_record resA_distances resB_distances
                                 w.2 "polar_contact" p.1 p.2)
                         (visited_pairs ord resA_set resB_set) in
         result run
         = Return (hbond_id,
                   if truthy resA_set && truthy resB_set
                   then polar_contact_id + 1 else polar_contact_id,
                   interaction_list ++ new)
         ∧ Forall (λ r, type r = "Polar Contact"
                        ∧ built_from tk water_coords hbonds_A (resA r) (distA r)
                        ∧ built_from tk water_coords polar_contacts_B
                            (resB r) (distB r))
             new
     | _, _ => result run = Raise IndexError
     end)
  ∧ (truthy hbonds_A = false → truthy hbonds_B = true →
     truthy polar_contacts_A = true →
     match collected tk water_coords polar_contacts_A ([], ∅),
           collected tk water_coords hbonds_B ([], ∅) with
     | Some (resA_set, resA_distances), Some (resB_set, resB_distances) =>
         let new := omap (λ p, pair_record resA_distances resB_distances
                                 w.2 "polar_contact" p.1 p.2)
                         (visited_pairs ord resA_set resB_set) in
         result run
         = Return (hbond_id,
                   if truthy resA_set && truthy resB_set
                   then polar_contact_id + 1 else polar_contact_id,
                   interaction_list ++ new)
         ∧ Forall (λ r, type r = "Polar Contact"
                        ∧ built_from tk water_coords polar_contacts_A
                            (resA r) (distA r)
                        ∧ built_from tk water_coords hbonds_B (resB r) (distB r))
             new
     | _, _ => result run = Raise IndexError
     end).
Proof.
  intros Hsearch run contacts_A contacts_B.
  destruct (search_contacts_result _ _ _ _ _ _ _ _ _ Hsearch)
    as (_ & EA & EB & HpA & HpB).
  assert (Hres := water_body_result tk ord domainA domainB w
                    (hbond_id, polar_contact_id, interaction_list) _ _ _ _ _ Hsearch).
  rewrite classify_and_process_result in Hres.
  fold run contacts_A contacts_B in Hres.
  assert (Hbuilt : ∀ cA cB ty sA dA sB dB,
            collected tk water_coords cA ([], ∅) = Some (sA, dA) →
            collected tk water_coords cB ([], ∅) = Some (sB, dB) →
            Forall (λ r, type r = (if String.eqb ty "hbond"
                                   then "Hydrogen Bond" else "Polar Contact")
                         ∧ built_from tk water_coords cA (resA r) (distA r)
                         ∧ built_from tk water_coords cB (resB r) (distB r))
              (omap (λ p, pair_record dA dB w.2 ty p.1 p.2) (visited_pairs ord sA sB))).
  { intros cA cB ty sA dA sB dB HA HB.
    pose proof (records_from_contacts tk ord water_coords cA cB w.2 ty sA sB dA dB
                  HA HB) as Hall.
    rewrite Forall_forall in Hall. apply Forall_forall. intros r Hr.
    destruct (Hall r Hr) as [HrA HrB]. split_and!; try done.
    apply list_elem_of_omap in Hr as ([kA kB] & _ & Hr).
    by apply pair_record_Some in Hr as (_ & _ & _ & -> & _). }
  split_and!.
  - by rewrite find_hydrogen_bonds_eq, EA.
  - by rewrite find_hydrogen_bonds_eq, EB.
  - exact HpA.
  - exact HpB.
  - unfold run. destruct w as [water_obj water_idx]. unfold water_body.
    rewrite (bind_Return _ _ _ _ (eq_trans (Py_eta _) (f_equal _ Hsearch))).
    cbn [trace fst]. f_equal. rewrite classify_and_process_eq.
    destruct (four_way_rule _ _ _ _) as [cat|]; [|done].
    rewrite trace_bind.
    change (py_or hbonds_A polar_contacts_A) with contacts_A.
    change (py_or hbonds_B polar_contacts_B) with contacts_B.
    cbn [fst snd].
    destruct (process_interactions _ _ _ _ _ _ _ _ _ _ _ _ _) as [tr [[id' il']|e]];
      cbn [trace result fst snd]; [|by rewrite app_nil_r].
    destruct cat; cbn [with_counter mret trace fst]; by rewrite app_nil_r.
  - destruct (four_way_rule _ _ _ _) as [cat|]; [|done].
    destruct (collected tk water_coords contacts_A ([], ∅)) as [[sA dA]|] eqn:HA;
      [|done].
    destruct (collected tk water_coords contacts_B ([], ∅)) as [[sB dB]|] eqn:HB;
      [|done].
    cbv zeta. split.
    + rewrite Hres. destruct cat; by eexists _, _.
    + pose proof (Hbuilt contacts_A contacts_B (category_tag cat) sA dA sB dB HA HB)
        as Hall.
      eapply Forall_impl; [exact Hall|]. cbv beta. intros r (-> & ? & ?).
      by destruct cat.
  - intros HhA HhB HpcB. unfold contacts_A, contacts_B in Hres.
    rewrite HhA, HhB, HpcB in Hres. cbn [four_way_rule andb orb negb] in Hres.
    destruct (collected tk water_coords hbonds_A ([], ∅)) as [[sA dA]|] eqn:HA;
      [|done].
    destruct (collected tk water_coords polar_contacts_B ([], ∅)) as [[sB dB]|] eqn:HB;
      [|done].
    cbv zeta. split; [exact Hres|].
    exact (Hbuilt hbonds_A polar_contacts_B "polar_contact" sA dA sB dB HA HB).
  - intros HhA HhB HpcA. unfold contacts_A, contacts_B in Hres.
    rewrite HhA, HhB, HpcA in Hres. cbn [four_way_rule andb orb negb] in Hres.
    destruct (collected tk water_coords polar_contacts_A ([], ∅)) as [[sA dA]|] eqn:HA;
      [|done].
    destruct (collected tk water_coords hbonds_B ([], ∅)) as [[sB dB]|] eqn:HB;
      [|done].
    cbv zeta. split; [exact Hres|].
    exact (Hbuilt polar_contacts_A hbonds_B "polar_contact" sA dA sB dB HA HB).
Qed.

(** The water of [scene_mixed]: a hydrogen bond with SER 5 on side A, polar
    contacts with ASP 9 and LYS 12 on side B.  The water gets two Polar
    Contact records and moves the polar-contact identifier; their side A is
    SER 5 at 2.0, the atom of the hydrogen-bond pair. *)
Lemma C10_witness :
  result (search_contacts tk_mixed "chain A" "chain B" wat_sele) =
    Return (origin, [pair2 ("m", 1) wat_ref], [], [],
            [pair3 ("m", 3) wat_ref 2.25; pair3 ("m", 4) wat_ref 3])
  ∧ (∃ r1 r2,
        result (water_body tk_mixed insertion_order "chain A" "chain B" wat_ref
                  (0, 0, [])) = Return (0, 1, [r1; r2])
        ∧ type r1 = "Polar Contact" ∧ type r2 = "Polar Contact"
        ∧ resA r1 = fmt_res ser5 ∧ resA r2 = fmt_res ser5
        ∧ distA r1 = 2%float ∧ distA r2 = 2%float
        ∧ distB r1 = 2.25%float ∧ distB r2 = 3%float)
  ∧ let hbonds_A := [pair2 ("m", 1) wat_ref] in
    let hbonds_B := @nil Contact in
    let polar_contacts_A := @nil Contact in
    let polar_contacts_B := [pair3 ("m", 3) wat_ref 2.25; pair3 ("m", 4) wat_ref 3] in
    let run := water_body tk_mixed insertion_order "chain A" "chain B" wat_ref
                 (0, 0, []) in
    let contacts_A := if truthy hbonds_A then hbonds_A else polar_contacts_A in
    let contacts_B := if truthy hbonds_B then hbonds_B else polar_contacts_B in
    result (find_hydrogen_bonds tk_mixed "chain A" wat_sele
              hbond_distance_cutoff hbond_angle_cutoff) = Return hbonds_A
    ∧ result (find_hydrogen_bonds tk_mixed "chain B" wat_sele
                hbond_distance_cutoff hbond_angle_cutoff) = Return hbonds_B
    ∧ (truthy hbonds_A = true → polar_contacts_A = [])
    ∧ (truthy hbonds_B = true → polar_contacts_B = [])
    ∧ trace run
      = trace (search_contacts tk_mixed "chain A" "chain B" wat_sele)
        ++ match four_way_rule (truthy hbonds_A) (truthy hbonds_B)
                   (truthy polar_contacts_A) (truthy polar_contacts_B) with
           | Some cat =>
               trace (process_interactions tk_mixed insertion_order contacts_A
                        contacts_B "m" 10 (counter_of cat 0 0) (category_tag cat)
                        [] "chain A" "chain B" wat_sele origin)
           | None => []
           end
    ∧ match four_way_rule (truthy hbonds_A) (truthy hbonds_B)
              (truthy polar_contacts_A) (truthy polar_contacts_B) with
      | None => result run = Return (0, 0, [])
      | Some cat =>
          match collected tk_mixed origin contacts_A ([], ∅),
                collected tk_mixed origin contacts_B ([], ∅) with
          | Some (resA_set, resA_distances), Some (resB_set, resB_distances) =>
              let new := omap (λ p, pair_record resA_distances resB_distances
                                      10 (category_tag cat) p.1 p.2)
                              (visited_pairs insertion_order resA_set resB_set) in
              (∃ hbond_id' polar_contact_id',
                  result run = Return (hbond_id', polar_contact_id', [] ++ new))
              ∧ Forall (λ r, type r = category_type cat
                             ∧ built_from tk_mixed origin contacts_A (resA r) (distA r)
                             ∧ built_from tk_mixed origin contacts_B (resB r) (distB r))
                  new
          | _, _ => result run = Raise IndexError
          end
      end
    ∧ (truthy hbonds_A = true → truthy hbonds_B = false →
       truthy polar_contacts_B = true →
       match collected tk_mixed origin hbonds_A ([], ∅),
             collected tk_mixed origin polar_contacts_B ([], ∅) with
       | Some (resA_set, resA_distances), Some (resB_set, resB_distances) =>
           let new := omap (λ p, pair_record resA_distances resB_distances
                                   10 "polar_contact" p.1 p.2)
                           (visited_pairs insertion_order resA_set resB_set) in
           result run
           = Return (0, if truthy resA_set && truthy resB_set then 0 + 1 else 0,
                     [] ++ new)
           ∧ Forall (λ r, type r = "Polar Contact"
                          ∧ built_from tk_mixed origin hbonds_A (resA r) (distA r)
                          ∧ built_from tk_mixed origin polar_contacts_B
                              (resB r) (distB r))
               new
       | _, _ => result run = Raise IndexError
       end)
    ∧ (truthy hbonds_A = false → truthy hbonds_B = true →
       truthy polar_contacts_A = true →
       match collected tk_mixed origin polar_contacts_A ([], ∅),
             collected tk_mixed origin hbonds_B ([], ∅) with
       | Some (resA_set, resA_distances), Some (resB_set, resB_distances) =>
           let new := omap (λ p, pair_record resA_distances resB_distances
                                   10 "polar_contact" p.1 p.2)
                           (visited_pairs insertion_order resA_set resB_set) in
           result run
           = Return (0, if truthy resA_set && truthy resB_set then 0 + 1 else 0,
                     [] ++ new)
           ∧ Forall (λ r, type r = "Polar Contact"
                          ∧ built_from tk_mixed origin polar_contacts_A
                              (resA r) (distA r)
                          ∧ built_from tk_mixed origin hbonds_B (resB r) (distB r))
               new
       | _, _ => result run = Raise IndexError
       end).
Proof.
  assert (Hsearch : result (search_contacts tk_mixed "chain A" "chain B" wat_sele) =
                    Return (origin, [pair2 ("m", 1) wat_ref], [], [],
                            [pair3 ("m", 3) wat_ref 2.25; pair3 ("m", 4) wat_ref 3]))
    by (vm_compute; reflexivity).
  split; [exact Hsearch|].
  split; [eexists _, _; split_and!; [vm_compute; reflexivity | reflexivity ..]|].
  exact (C10_contacts_passed tk_mixed insertion_order "chain A" "chain B" wat_ref 0 0 []
           origin [pair2 ("m", 1) wat_ref] [] []
           [pair3 ("m", 3) wat_ref 2.25; pair3 ("m", 4) wat_ref 3] Hsearch).
Defined.

(** ** A whole run *)

Lemma for_each_invariant {A S} (P : S → Prop) (body : A → S → Py S) (l : list A) :
  (∀ x s s', P s → result (body x s) = Return s' → P s') →
  ∀ s s', P s → result (for_each l body s) = Return s' → P s'.
Proof.
  intros Hbody. induction l as [|x l IH]; intros s s' Hs.
  - by intros [= <-].
  - rewrite for_each_cons, result_bind.
    destruct (result (body x s)) as [t|e] eqn:Hx; [|done].
    apply IH. by apply (Hbody x s).
Qed.

(** Every record of the list a run ends with has
    [total_distance = distA + distB] and [total_distance <= 7.0]. *)
Lemma run_records_within_budget (tk : Toolkit) (ord : SetOrder)
    (domainA domainB : string) (interaction_list : list InteractionRecord) :
  result (select_residue_water_residue_combined tk ord domainA domainB)
    = Return interaction_list →
  Forall (λ r, total_distance r = (distA r + distB r)%float
               ∧ (total_distance r <=? 7.0)%float = true) interaction_list.
Proof.
  rewrite select_residue_water_residue_combined_result.
  destruct (negb (truthy (tk_index tk bridge_query))); [by intros [= <-]|].
  destruct (result (for_each _ _ _)) as [[[h p] il]|e] eqn:Hloop; [|done].
  intros [= <-]. simpl.
  set (P := λ st : LoopState,
         Forall (λ r, total_distance r = (distA r + distB r)%float
                      ∧ (total_distance r <=? 7.0)%float = true) st.2).
  apply (for_each_invariant P _ _) with (s := (0, 0, [])) (s' := (h, p, il)) in Hloop;
    [done | | by constructor].
  clear. intros [water_obj water_idx] [[h p] il] [[h' p'] il'] HP.
  unfold water_body. rewrite result_bind.
  destruct (result (search_contacts _ _ _ _)) as [[[[[wc hbA] hbB] pcA] pcB]|e]; [|done].
  rewrite classify_and_process_eq.
  destruct (four_way_rule _ _ _ _) as [cat|]; [|by intros [= <- <- <-]].
  rewrite result_bind.
  destruct (result (process_interactions _ _ _ _ _ _ _ _ _ _ _ _ _))
    as [[id2 il2]|e] eqn:Hrun; [|done].
  apply process_interactions_returns in Hrun as (sA & dA & sB & dB & _ & _ & _ & ->).
  intros Hst.
  assert (il' = il ++ omap (λ p, pair_record dA dB water_idx (category_tag cat) p.1 p.2)
                           (visited_pairs ord sA sB)) as ->
    by (destruct cat; simpl in Hst; by injection Hst as _ _ <-).
  unfold P. simpl. apply Forall_app. split; [exact HP|].
  apply Forall_forall. intros r ([kA kB] & _ & Hr)%list_elem_of_omap.
  apply pair_record_Some in Hr as (? & ? & _). done.
Qed.

(** * Further properties of the script *)

(** ** [find_polar_contacts] *)

Lemma for_each_result_append {A R} (g : A → list R)
    (body : A → list R → Py (list R)) (l : list A) :
  (∀ x s, result (body x s) = Return (s ++ g x)) →
  ∀ s, result (for_each l body s) = Return (s ++ (l ≫= g)).
Proof.
  intros Hbody s.
  apply (for_each_append (λ _, True) g body l).
  intros x s' _. split; [apply Hbody | by apply Forall_true].
Qed.

Lemma find_polar_contacts_result (tk : Toolkit) (domain_sele water_sele : string)
    (distance_cutoff : float) :
  result (find_polar_contacts tk domain_sele water_sele distance_cutoff) =
  match tk_get_model tk (water_O_sele water_sele) with
  | [] => Raise IndexError
  | water_atom :: _ =>
      Return (polar_contact_of water_atom <$>
                List.filter (within_cutoff water_atom distance_cutoff)
                            (tk_get_model tk (polar_sele domain_sele)))
  end.
Proof.
  unfold find_polar_contacts, cmd.get_model.
  rewrite result_bind. cbn [result snd]. rewrite result_bind. cbn [result snd].
  rewrite result_bind. unfold item_0.
  destruct (tk_get_model tk (water_O_sele water_sele)) as [|water_atom rest]; [done|].
  cbn [result snd mret Py_ret py_ret].
  rewrite (for_each_result_append
             (λ atom, if within_cutoff water_atom distance_cutoff atom
                      then [polar_contact_of water_atom atom] else [])).
  - f_equal. simpl.
    induction (tk_get_model tk (polar_sele domain_sele)) as [|atom atoms IH]; [done|].
    rewrite bind_cons, IH. simpl.
    by destruct (within_cutoff water_atom distance_cutoff atom).
  - intros atom s. unfold within_cutoff, polar_contact_of.
    destruct (_ <=? _)%float; [done|]. by rewrite app_nil_r.
Qed.

(** X1. [find_polar_contacts] asks for the polar atoms of the domain and for
    the water oxygen, in this order; without a water oxygen it raises
    [IndexError]; otherwise it returns, in the order of the polar atoms, one
    triple per atom whose distance to the first water oxygen is at most the
    cutoff, carrying that distance. *)
Theorem X1_find_polar_contacts (tk : Toolkit) (domain_sele water_sele : string)
    (distance_cutoff : float) :
  find_polar_contacts tk domain_sele water_sele distance_cutoff =
  ([cmd_get_model (polar_sele domain_sele); cmd_get_model (water_O_sele water_sele)],
   match tk_get_model tk (water_O_sele water_sele) with
   | [] => Raise IndexError
   | water_atom :: _ =>
       Return (polar_contact_of water_atom <$>
                 List.filter (within_cutoff water_atom distance_cutoff)
                             (tk_get_model tk (polar_sele domain_sele)))
   end).
Proof.
  rewrite (Py_eta (find_polar_contacts _ _ _ _)).
  rewrite find_polar_contacts_trace, find_polar_contacts_result.
  by destruct (tk_get_model tk (water_O_sele water_sele)).
Qed.

(** ** [process_interactions] *)

Lemma collected_None (tk : Toolkit) (water_coords : Coord) (contacts : list Contact)
    (acc : list ResidueKey * gmap ResidueKey (Z * float)) :
  collected tk water_coords contacts acc = None ↔
  ∃ c, c ∈ contacts ∧ resolve tk c = None.
Proof.
  revert acc. induction contacts as [|c cs IH]; intros acc; simpl.
  - split; [done | by intros (c & ?%elem_of_nil & _)].
  - destruct (resolve tk c) as [atom|] eqn:Hc; simpl.
    + rewrite IH. split.
      * intros (c' & Hin & Hnone). exists c'. split; [by right | done].
      * intros (c' & [->|Hin]%elem_of_cons & Hnone); [congruence|]. by exists c'.
    + split; [|done]. intros _. exists c. split; [by left | done].
Qed.

Lemma collected_length (tk : Toolkit) (water_coords : Coord) (contacts : list Contact)
    (acc r : list ResidueKey * gmap ResidueKey (Z * float)) :
  collected tk water_coords contacts acc = Some r →
  (length r.1 ≤ length acc.1 + length contacts)%nat.
Proof.
  revert acc. induction contacts as [|c cs IH]; intros acc; simpl.
  - intros [= <-]. lia.
  - destruct (resolve tk c) as [atom|]; simpl; [|done].
    intros H%IH. etrans; [exact H|]. unfold retain.
    destruct (String.eqb (resn atom) "HOH"); simpl; [lia|].
    unfold set_add. case_decide; [lia|]. rewrite length_app. simpl. lia.
Qed.

Lemma collect_loop_trace_found (tk : Toolkit) (water_coords : Coord)
    (contacts : list Contact) (acc r : list ResidueKey * gmap ResidueKey (Z * float)) :
  collected tk water_coords contacts acc = Some r →
  trace (for_each contacts (collect_step tk water_coords) acc) =
  (λ c, cmd_get_model (index_sele c)) <$> contacts.
Proof.
  revert acc. induction contacts as [|c cs IH]; intros acc; [done|].
  rewrite for_each_cons, trace_bind, collect_step_eq.
  change (trace ([?e], ?o)) with [e]. change (result (?t, ?o)) with o.
  cbn [collected]. destruct (resolve tk c) as [atom|]; [|done].
  intros H. rewrite fmap_cons. simpl. f_equal. by apply IH.
Qed.

(** A loop whose body always returns and logs events that do not depend on
    what it carries. *)
Lemma for_each_trace {A S} (h : A → list Event) (body : A → S → Py S) (l : list A) :
  (∀ x s, x ∈ l → trace (body x s) = h x ∧ ∃ s', result (body x s) = Return s') →
  ∀ s, trace (for_each l body s) = l ≫= h
       ∧ ∃ s', result (for_each l body s) = Return s'.
Proof.
  induction l as [|x l IH]; intros Hbody s.
  - split; [done | by eexists].
  - destruct (Hbody x s) as [Ht [s' Hr]]; [left|].
    rewrite for_each_cons, trace_bind, result_bind, Ht, Hr, bind_cons.
    destruct (IH (λ y t Hy, Hbody y t (list_elem_of_further _ _ _ Hy)) s') as [-> ?].
    done.
Qed.

Lemma emit_pair_trace (dA dB : gmap ResidueKey (Z * float)) (water_idx id : Z)
    (ty water_sele : string) (kA kB : ResidueKey) (il : list InteractionRecord) :
  is_Some (dA !! kA) → is_Some (dB !! kB) →
  trace (emit_pair dA dB water_idx id ty water_sele kA kB il) =
    pair_events dA dB id ty water_sele (kA, kB)
  ∧ ∃ il', result (emit_pair dA dB water_idx id ty water_sele kA kB il) = Return il'.
Proof.
  intros [a Ha] [b Hb]. unfold emit_pair, pair_events, getitem, distance_name.
  cbn [fst snd]. rewrite Ha, Hb. simpl.
  destruct (a.2 + b.2 <=? 7)%float; simpl; [|by eauto].
  destruct (String.eqb ty "hbond"); simpl; eauto.
Qed.

Lemma pair_events_length (dA dB : gmap ResidueKey (Z * float)) (water_idx id : Z)
    (ty water_sele : string) (p : ResidueKey * ResidueKey) :
  length (pair_events dA dB id ty water_sele p) =
  (5 * length (option_list (pair_record dA dB water_idx ty p.1 p.2)))%nat.
Proof.
  unfold pair_events, pair_record.
  destruct (dA !! p.1) as [a|]; simpl; [|done].
  destruct (dB !! p.2) as [b|]; simpl; [|done].
  by destruct (a.2 + b.2 <=? 7)%float.
Qed.

Lemma omap_length_le {A B} (f : A → option B) (l : list A) :
  (length (omap f l) ≤ length l)%nat.
Proof.
  induction l as [|x l IH]; [done|].
  change (omap f (x :: l))
    with (match f x with Some y => y :: omap f l | None => omap f l end).
  destruct (f x); simpl; lia.
Qed.

Section process_more.
Context (tk : Toolkit) (ord : SetOrder).
Context (contacts_A contacts_B : list Contact) (water_obj : string)
  (water_idx interaction_id : Z) (interaction_type : string)
  (interaction_list : list InteractionRecord)
  (domainA domainB water_sele : string) (water_coords : Coord).

Local Abbreviation run :=
  (process_interactions tk ord contacts_A contacts_B water_obj water_idx
     interaction_id interaction_type interaction_list domainA domainB
     water_sele water_coords).

(** The whole trace of a call whose atoms are all found. *)
Lemma process_interactions_events resA_set resA_distances resB_set resB_distances :
  collected tk water_coords contacts_A ([], ∅) = Some (resA_set, resA_distances) →
  collected tk water_coords contacts_B ([], ∅) = Some (resB_set, resB_distances) →
  trace run =
    ((λ c, cmd_get_model (index_sele c)) <$> contacts_A)
    ++ ((λ c, cmd_get_model (index_sele c)) <$> contacts_B)
    ++ (visited_pairs ord resA_set resB_set
          ≫= pair_events resA_distances resB_distances (interaction_id + 1)
                interaction_type water_sele).
Proof.
  intros HA HB. unfold process_interactions, collect_residues.
  rewrite trace_bind, collect_loop_result, HA.
  rewrite (collect_loop_trace_found _ _ _ _ _ HA).
  rewrite trace_bind, collect_loop_result, HB.
  rewrite (collect_loop_trace_found _ _ _ _ _ HB).
  f_equal. f_equal.
  destruct (negb (truthy resA_set) || negb (truthy resB_set)) eqn:E.
  - unfold visited_pairs. destruct resA_set as [|kA sA]; simpl in E.
    + by rewrite set_iter_nil.
    + destruct resB_set as [|kB sB]; simpl in E; [|done].
      rewrite set_iter_nil. by induction (set_iter ord (kA :: sA)).
  - pose proof (collected_consistent _ _ _ _ _ consistent_empty HA) as [_ HdA].
    pose proof (collected_consistent _ _ _ _ _ consistent_empty HB) as [_ HdB].
    simpl in HdA, HdB.
    rewrite trace_bind.
    assert (Hinner : ∀ kA il, kA ∈ set_iter ord resA_set →
              trace (for_each (set_iter ord resB_set)
                       (λ kB, emit_pair resA_distances resB_distances water_idx
                                (interaction_id + 1) interaction_type water_sele kA kB) il)
              = set_iter ord resB_set
                  ≫= (λ kB, pair_events resA_distances resB_distances
                              (interaction_id + 1) interaction_type water_sele (kA, kB))
              ∧ ∃ il', result (for_each (set_iter ord resB_set)
                         (λ kB, emit_pair resA_distances resB_distances water_idx
                                  (interaction_id + 1) interaction_type water_sele kA kB) il)
                       = Return il').
    { intros kA il HkA. apply for_each_trace. intros kB s HkB.
      apply emit_pair_trace.
      - apply HdA. by rewrite <- (set_iter_perm ord resA_set).
      - apply HdB. by rewrite <- (set_iter_perm ord resB_set). }
    destruct (for_each_trace
                (λ kA, set_iter ord resB_set
                         ≫= (λ kB, pair_events resA_distances resB_distances
                                     (interaction_id + 1) interaction_type water_sele
                                     (kA, kB)))
                (λ kA, for_each (set_iter ord resB_set)
                         (λ kB, emit_pair resA_distances resB_distances water_idx
                                  (interaction_id + 1) interaction_type water_sele kA kB))
                (set_iter ord resA_set)
                (λ kA il HkA, Hinner kA il HkA) interaction_list) as [-> [il' ->]].
    cbn [trace fst mret Py_ret py_ret]. rewrite app_nil_r.
    unfold visited_pairs.
    generalize (set_iter ord resA_set) (set_iter ord resB_set). intros lA lB.
    induction lA as [|kA lA IHA]; [done|].
    rewrite !bind_cons, bind_app, IHA. f_equal. clear IHA.
    induction lB as [|kB lB IHB]; [done|].
    rewrite !bind_cons, bind_app, IHB. f_equal. simpl. by rewrite app_nil_r.
Qed.
End process_more.

(** X2. A call of [process_interactions] whose atoms are all found logs the
    lookups of side A, the lookups of side B and then, for each pair of
    residues visited that gets a record, three additions to the
    visualization selections and two distance objects, and nothing for a
    pair that gets none: five events per record appended. *)
Theorem X2_events_per_record (tk : Toolkit) (ord : SetOrder)
    (contacts_A contacts_B : list Contact) (water_obj : string)
    (water_idx interaction_id : Z) (interaction_type : string)
    (interaction_list : list InteractionRecord)
    (domainA domainB water_sele : string) (water_coords : Coord) :
  Forall (λ c, is_Some (resolve tk c)) contacts_A →
  Forall (λ c, is_Some (resolve tk c)) contacts_B →
  ∃ resA_set resA_distances resB_set resB_distances emitted,
    collected tk water_coords contacts_A ([], ∅) = Some (resA_set, resA_distances)
    ∧ collected tk water_coords contacts_B ([], ∅) = Some (resB_set, resB_distances)
    ∧ emitted = visited_pairs ord resA_set resB_set
                  ≫= pair_events resA_distances resB_distances (interaction_id + 1)
                        interaction_type water_sele
    ∧ trace (process_interactions tk ord contacts_A contacts_B water_obj water_idx
               interaction_id interaction_type interaction_list domainA domainB
               water_sele water_coords)
      = ((λ c, cmd_get_model (index_sele c)) <$> contacts_A)
        ++ ((λ c, cmd_get_model (index_sele c)) <$> contacts_B)
        ++ emitted
    ∧ length emitted
      = (5 * length (emitted_records ord resA_set resB_set resA_distances
                       resB_distances water_idx interaction_type))%nat.
Proof.
  intros HfA HfB.
  destruct (collected_is_Some tk water_coords contacts_A ([], ∅) HfA) as [[sA dA] HA].
  destruct (collected_is_Some tk water_coords contacts_B ([], ∅) HfB) as [[sB dB] HB].
  eexists sA, dA, sB, dB, _. split_and!; [done | done | done | |].
  - by apply process_interactions_events.
  - rewrite emitted_records_visited.
    induction (visited_pairs ord sA sB) as [|p ps IH]; [done|].
    rewrite bind_cons, length_app, IH, (pair_events_length _ _ water_idx).
    set (f := λ p0 : ResidueKey * ResidueKey,
                pair_record dA dB water_idx interaction_type p0.1 p0.2).
    change (pair_record dA dB water_idx interaction_type p.1 p.2) with (f p).
    change (omap f (p :: ps))
      with (match f p with Some y => y :: omap f ps | None => omap f ps end).
    destruct (f p); simpl; lia.
Qed.

Lemma X2_witness :
  Forall (λ c, is_Some (resolve tk_hbond c)) hbond_contacts_A
  ∧ Forall (λ c, is_Some (resolve tk_hbond c)) hbond_contacts_B
  ∧ ∃ resA_set resA_distances resB_set resB_distances emitted,
      collected tk_hbond origin hbond_contacts_A ([], ∅) = Some (resA_set, resA_distances)
      ∧ collected tk_hbond origin hbond_contacts_B ([], ∅) = Some (resB_set, resB_distances)
      ∧ emitted = visited_pairs insertion_order resA_set resB_set
                    ≫= pair_events resA_distances resB_distances (0 + 1) "hbond" wat_sele
      ∧ trace (process_interactions tk_hbond insertion_order hbond_contacts_A
                 hbond_contacts_B "m" 10 0 "hbond" [] "chain A" "chain B" wat_sele origin)
        = ((λ c, cmd_get_model (index_sele c)) <$> hbond_contacts_A)
          ++ ((λ c, cmd_get_model (index_sele c)) <$> hbond_contacts_B)
          ++ emitted
      ∧ length emitted
        = (5 * length (emitted_records insertion_order resA_set resB_set resA_distances
                         resB_distances 10 "hbond"))%nat.
Proof.
  split; [exact (proj1 hbond_contacts_found)|].
  split; [exact (proj2 hbond_contacts_found)|].
  exact (X2_events_per_record tk_hbond insertion_order hbond_contacts_A
           hbond_contacts_B "m" 10 0 "hbond" [] "chain A" "chain B" wat_sele origin
           (proj1 hbond_contacts_found) (proj2 hbond_contacts_found)).
Defined.

(** X3. [process_interactions] raises exactly when some contact names an
    index at which [cmd.get_model] finds no atom; the exception is then
    [IndexError] (never [KeyError]: the dictionary lookups of the double loop
    always succeed) and the call has logged nothing but lookups, so no record
    was appended and nothing was drawn before it stopped. *)
Theorem X3_process_interactions_raises (tk : Toolkit) (ord : SetOrder)
    (contacts_A contacts_B : list Contact) (water_obj : string)
    (water_idx interaction_id : Z) (interaction_type : string)
    (interaction_list : list InteractionRecord)
    (domainA domainB water_sele : string) (water_coords : Coord) :
  let run := process_interactions tk ord contacts_A contacts_B water_obj water_idx
               interaction_id interaction_type interaction_list domainA domainB
               water_sele water_coords in
  ((∃ e, result run = Raise e) ↔
   ∃ c, c ∈ contacts_A ++ contacts_B ∧ resolve tk c = None)
  ∧ ∀ e, result run = Raise e → e = IndexError ∧ Forall is_lookup (trace run).
Proof.
  intros run.
  assert (Hres : result run =
            match collected tk water_coords contacts_A ([], ∅),
                  collected tk water_coords contacts_B ([], ∅) with
            | Some (sA, dA), Some (sB, dB) =>
                if negb (truthy sA) || negb (truthy sB)
                then Return (interaction_id, interaction_list)
                else Return (interaction_id + 1,
                             interaction_list ++
                               emitted_records ord sA sB dA dB water_idx interaction_type)
            | _, _ => Raise IndexError
            end).
  { unfold run. rewrite process_interactions_result.
    destruct (collected tk water_coords contacts_A ([], ∅)) as [[sA dA]|]; [|done].
    by destruct (collected tk water_coords contacts_B ([], ∅)) as [[sB dB]|]. }
  pose proof (collected_None tk water_coords contacts_A ([], ∅)) as HnA.
  pose proof (collected_None tk water_coords contacts_B ([], ∅)) as HnB.
  split.
  - rewrite Hres. split.
    + intros [e He].
      destruct (collected tk water_coords contacts_A ([], ∅)) as [[sA dA]|].
      * destruct (collected tk water_coords contacts_B ([], ∅)) as [[sB dB]|].
        -- by destruct (negb (truthy sA) || negb (truthy sB)).
        -- destruct (proj1 HnB eq_refl) as (c & Hc & Hn).
           exists c. split; [apply elem_of_app; by right | done].
      * destruct (proj1 HnA eq_refl) as (c & Hc & Hn).
        exists c. split; [apply elem_of_app; by left | done].
    + intros (c & [Hc|Hc]%elem_of_app & Hn).
      * rewrite (proj2 HnA) by eauto. by exists IndexError.
      * rewrite (proj2 HnB) by eauto. exists IndexError.
        by destruct (collected tk water_coords contacts_A ([], ∅)) as [[sA dA]|].
  - intros e He. rewrite Hres in He.
    assert (e = IndexError) as ->.
    { destruct (collected tk water_coords contacts_A ([], ∅)) as [[sA dA]|];
        [|by injection He].
      destruct (collected tk water_coords contacts_B ([], ∅)) as [[sB dB]|];
        [|by injection He].
      by destruct (negb (truthy sA) || negb (truthy sB)). }
    split; [done|].
    destruct (process_interactions_trace tk ord contacts_A contacts_B water_obj
                water_idx interaction_id interaction_type interaction_list
                domainA domainB water_sele water_coords)
      as (lookups & emitted & Htr & Hl & _ & Hnone).
    fold run in Htr, Hnone. rewrite Htr, Hnone, app_nil_r; [done|].
    intros il' Heq. rewrite Hres in Heq. congruence.
Qed.

Lemma collect_residues_indices (tk : Toolkit) (water_coords : Coord)
    (contacts contacts' : list Contact) :
  (λ c, (contact_0 c).2) <$> contacts = (λ c, (contact_0 c).2) <$> contacts' →
  collect_residues tk contacts water_coords = collect_residues tk contacts' water_coords.
Proof.
  unfold collect_residues. generalize (@nil ResidueKey, (∅ : gmap ResidueKey (Z * float))).
  revert contacts'. induction contacts as [|c cs IH]; intros [|c' cs'] acc; try done.
  rewrite !fmap_cons. intros [= Hc Hcs]. rewrite !for_each_cons.
  assert (collect_step tk water_coords c acc = collect_step tk water_coords c' acc) as ->.
  { rewrite !collect_step_eq. unfold resolve, retain, index_sele. by rewrite Hc. }
  destruct (collect_step tk water_coords c' acc) as [tr [acc'|e]]; [|done].
  rewrite !bind_eq. by rewrite (IH cs' acc' Hcs).
Qed.

(** X4. [process_interactions] reads of a contact only the index of its
    first atom: the object name of that atom, the second atom and the
    distance a triple carries are ignored, so two contact lists with the same
    first indices give the same call, event for event. *)
Theorem X4_only_first_indices (tk : Toolkit) (ord : SetOrder)
    (contacts_A contacts_B contacts_A' contacts_B' : list Contact) (water_obj : string)
    (water_idx interaction_id : Z) (interaction_type : string)
    (interaction_list : list InteractionRecord)
    (domainA domainB water_sele : string) (water_coords : Coord) :
  (λ c, (contact_0 c).2) <$> contacts_A = (λ c, (contact_0 c).2) <$> contacts_A' →
  (λ c, (contact_0 c).2) <$> contacts_B = (λ c, (contact_0 c).2) <$> contacts_B' →
  process_interactions tk ord contacts_A contacts_B water_obj water_idx
    interaction_id interaction_type interaction_list domainA domainB
    water_sele water_coords
  = process_interactions tk ord contacts_A' contacts_B' water_obj water_idx
      interaction_id interaction_type interaction_list domainA domainB
      water_sele water_coords.
Proof.
  intros HA HB. unfold process_interactions.
  by rewrite (collect_residues_indices _ _ _ _ HA), (collect_residues_indices _ _ _ _ HB).
Qed.

(** The hydrogen-bond pairs of [scene_hbond] against contacts that share
    only the first indices with them. *)
Lemma X4_witness :
  (λ c, (contact_0 c).2) <$> hbond_contacts_A
    = (λ c, (contact_0 c).2) <$> [pair3 ("other", 2) ("x", 0) 9.5; pair2 ("m", 1) ("y", 7)]
  ∧ process_interactions tk_hbond insertion_order hbond_contacts_A hbond_contacts_B
      "m" 10 0 "hbond" [] "chain A" "chain B" wat_sele origin
    = process_interactions tk_hbond insertion_order
        [pair3 ("other", 2) ("x", 0) 9.5; pair2 ("m", 1) ("y", 7)] hbond_contacts_B
        "m" 10 0 "hbond" [] "chain A" "chain B" wat_sele origin.
Proof.
  split; [reflexivity|].
  apply (X4_only_first_indices tk_hbond insertion_order hbond_contacts_A hbond_contacts_B
           [pair3 ("other", 2) ("x", 0) 9.5; pair2 ("m", 1) ("y", 7)] hbond_contacts_B);
    reflexivity.
Defined.

(** X5. A call of [process_interactions] appends at most one record per pair
    of a contact of side A and a contact of side B. *)
Theorem X5_records_bound (tk : Toolkit) (ord : SetOrder)
    (contacts_A contacts_B : list Contact) (water_obj : string)
    (water_idx interaction_id : Z) (interaction_type : string)
    (interaction_list : list InteractionRecord)
    (domainA domainB water_sele : string) (water_coords : Coord)
    (id' : Z) (il' : list InteractionRecord) :
  result (process_interactions tk ord contacts_A contacts_B water_obj water_idx
            interaction_id interaction_type interaction_list domainA domainB
            water_sele water_coords) = Return (id', il') →
  (length il' ≤ length interaction_list + length contacts_A * length contacts_B)%nat.
Proof.
  intros (sA & dA & sB & dB & HA & HB & _ & ->)%process_interactions_returns.
  apply collected_length in HA, HB. simpl in HA, HB.
  rewrite length_app. apply Nat.add_le_mono_l.
  etrans; [apply omap_length_le|].
  assert (length (visited_pairs ord sA sB) = (length sA * length sB)%nat) as ->.
  { unfold visited_pairs.
    rewrite <- (Permutation_length (set_iter_perm ord sA)),
            <- (Permutation_length (set_iter_perm ord sB)).
    generalize (set_iter ord sA) (set_iter ord sB). intros lA lB.
    induction lA as [|kA lA IH]; [done|].
    rewrite bind_cons, length_app, IH. simpl. f_equal.
    clear IH. induction lB as [|kB lB IH]; [done|].
    rewrite bind_cons, length_app, IH. done. }
  by apply Nat.mul_le_mono.
Qed.

Lemma X5_witness :
  ∃ id' il',
    result (process_interactions tk_hbond insertion_order hbond_contacts_A
              hbond_contacts_B "m" 10 0 "hbond" [] "chain A" "chain B" wat_sele origin)
    = Return (id', il')
    ∧ (length il' ≤ length (@nil InteractionRecord)
                    + length hbond_contacts_A * length hbond_contacts_B)%nat.
Proof.
  eexists _, _. split; [vm_compute; reflexivity|].
  apply (X5_records_bound tk_hbond insertion_order hbond_contacts_A hbond_contacts_B
           "m" 10 0 "hbond" [] "chain A" "chain B" wat_sele origin 1).
  vm_compute. reflexivity.
Defined.

(** ** The loop over the waters *)

Lemma trace_bind_Forall {A B} (P : Event → Prop) (m : Py A) (f : A → Py B) :
  Forall P (trace m) → (∀ a, Forall P (trace (f a))) → Forall P (trace (m ≫= f)).
Proof.
  intros Hm Hf. rewrite trace_bind. apply Forall_app. split; [done|].
  destruct (result m); [apply Hf | constructor].
Qed.

Lemma for_each_Forall {A S} (P : Event → Prop) (body : A → S → Py S) (l : list A) :
  (∀ x s, Forall P (trace (body x s))) → ∀ s, Forall P (trace (for_each l body s)).
Proof.
  intros Hbody. induction l as [|x l IH]; intros s; [constructor|].
  rewrite for_each_cons. by apply trace_bind_Forall.
Qed.

Lemma for_each_raises {A S} (P : exn → Prop) (body : A → S → Py S) (l : list A) :
  (∀ x s e, result (body x s) = Raise e → P e) →
  ∀ s e, result (for_each l body s) = Raise e → P e.
Proof.
  intros Hbody. induction l as [|x l IH]; intros s e; [done|].
  rewrite for_each_cons, result_bind.
  destruct (result (body x s)) as [s'|e'] eqn:Hx.
  - apply IH.
  - intros [= <-]. by apply (Hbody x s).
Qed.

Lemma for_each_invariant_in {A S} (P : S → Prop) (body : A → S → Py S) (l : list A) :
  (∀ x s s', x ∈ l → P s → result (body x s) = Return s' → P s') →
  ∀ s s', P s → result (for_each l body s) = Return s' → P s'.
Proof.
  induction l as [|x l IH]; intros Hbody s s' Hs.
  - by intros [= <-].
  - rewrite for_each_cons, result_bind.
    destruct (result (body x s)) as [t|e] eqn:Hx; [|done].
    apply IH.
    + intros y t1 t2 Hy. apply Hbody. by right.
    + apply (Hbody x s); [by left | done | done].
Qed.

Lemma search_contacts_events (tk : Toolkit) (domainA domainB water_sele : string) :
  Forall loop_event (trace (search_contacts tk domainA domainB water_sele)).
Proof.
  assert (Hfpc : ∀ d, Forall loop_event
            (trace (find_polar_contacts tk d water_sele max_residue_water_distance))).
  { intros d. rewrite find_polar_contacts_trace. by repeat constructor. }
  assert (Hhb : ∀ d, Forall loop_event
            (trace (find_hydrogen_bonds tk d water_sele hbond_distance_cutoff
                      hbond_angle_cutoff))).
  { intros d. rewrite find_hydrogen_bonds_eq. by repeat constructor. }
  unfold search_contacts.
  apply trace_bind_Forall; [by repeat constructor|]. intros wc.
  apply trace_bind_Forall; [done|]. intros hbA.
  apply trace_bind_Forall; [done|]. intros hbB.
  apply trace_bind_Forall; [destruct (negb (truthy hbA)); [done | constructor]|].
  intros pcA.
  apply trace_bind_Forall; [destruct (negb (truthy hbB)); [done | constructor]|].
  intros pcB. constructor.
Qed.

Lemma water_body_events (tk : Toolkit) (ord : SetOrder) (domainA domainB : string)
    (w : AtomRef) (st : LoopState) :
  Forall loop_event (trace (water_body tk ord domainA domainB w st)).
Proof.
  destruct w as [water_obj water_idx], st as [[h p] il]. unfold water_body.
  apply trace_bind_Forall; [apply search_contacts_events|].
  intros [[[[wc hbA] hbB] pcA] pcB].
  eapply Forall_impl; [apply classify_and_process_trace|].
  intros e [[c ->]|(ty & id & Hev)]; [done | by destruct Hev].
Qed.

Lemma find_polar_contacts_raises (tk : Toolkit) (domain_sele water_sele : string)
    (distance_cutoff : float) (e : exn) :
  result (find_polar_contacts tk domain_sele water_sele distance_cutoff) = Raise e →
  e = IndexError.
Proof.
  rewrite find_polar_contacts_result.
  destruct (tk_get_model tk (water_O_sele water_sele)); [|done]. by intros [= <-].
Qed.

Lemma search_contacts_raises (tk : Toolkit) (domainA domainB water_sele : string) (e : exn) :
  result (search_contacts tk domainA domainB water_sele) = Raise e →
  e = IndexError ∨ e = CmdException.
Proof.
  pose proof (find_polar_contacts_raises tk) as Hfpc.
  unfold search_contacts, cmd.get_atom_coords.
  rewrite result_bind. cbn [result snd].
  destruct (tk_get_atom_coords tk water_sele) as [wc|]; [|intros [= <-]; by right].
  rewrite result_bind, find_hydrogen_bonds_eq. cbn [result snd].
  rewrite result_bind, find_hydrogen_bonds_eq. cbn [result snd].
  rewrite result_bind.
  destruct (negb (truthy _)).
  - destruct (result (find_polar_contacts tk domainA _ _)) as [pcA|e'] eqn:HA;
      [|intros [= <-]; left; by apply (Hfpc domainA water_sele max_residue_water_distance)].
    rewrite result_bind. destruct (negb (truthy _)); [|done].
    destruct (result (find_polar_contacts tk domainB _ _)) as [pcB|e'] eqn:HB;
      [done | intros [= <-]; left; by apply (Hfpc domainB water_sele max_residue_water_distance)].
  - cbn [result snd mret Py_ret py_ret]. rewrite result_bind.
    destruct (negb (truthy _)); [|done].
    destruct (result (find_polar_contacts tk domainB _ _)) as [pcB|e'] eqn:HB;
      [done | intros [= <-]; left; by apply (Hfpc domainB water_sele max_residue_water_distance)].
Qed.

Lemma water_body_raises (tk : Toolkit) (ord : SetOrder) (domainA domainB : string)
    (w : AtomRef) (st : LoopState) (e : exn) :
  result (water_body tk ord domainA domainB w st) = Raise e →
  e = IndexError ∨ e = CmdException.
Proof.
  destruct w as [water_obj water_idx], st as [[h p] il]. unfold water_body.
  rewrite result_bind.
  destruct (result (search_contacts _ _ _ _))
    as [[[[[wc hbA] hbB] pcA] pcB]|e'] eqn:Hs;
    [|intros [= <-]; by apply search_contacts_raises in Hs].
  rewrite classify_and_process_eq.
  destruct (four_way_rule _ _ _ _) as [cat|]; [|done].
  rewrite result_bind, process_interactions_result.
  destruct (collected tk wc _ _) as [[sA dA]|]; [|intros [= <-]; by left].
  destruct (collected tk wc _ _) as [[sB dB]|]; [|intros [= <-]; by left].
  destruct (negb (truthy sA) || negb (truthy sB)); by destruct cat.
Qed.

(** What one water adds to the list: records that name its index and carry
    one of the two type texts. *)
Lemma water_body_records (tk : Toolkit) (ord : SetOrder) (domainA domainB : string)
    (w : AtomRef) (h p : Z) (il : list InteractionRecord)
    (h' p' : Z) (il' : list InteractionRecord) :
  result (water_body tk ord domainA domainB w (h, p, il)) = Return (h', p', il') →
  ∃ new, il' = il ++ new
         ∧ Forall (λ r, water r = w.2
                        ∧ (type r = "Hydrogen Bond" ∨ type r = "Polar Contact")) new.
Proof.
  destruct w as [water_obj water_idx]. unfold water_body. rewrite result_bind.
  destruct (result (search_contacts _ _ _ _)) as [[[[[wc hbA] hbB] pcA] pcB]|e]; [|done].
  rewrite classify_and_process_eq.
  destruct (four_way_rule _ _ _ _) as [cat|];
    [|intros [= <- <- <-]; exists []; by rewrite app_nil_r].
  rewrite result_bind.
  destruct (result (process_interactions _ _ _ _ _ _ _ _ _ _ _ _ _))
    as [[id2 il2]|e] eqn:Hrun; [|done].
  apply process_interactions_returns in Hrun as (sA & dA & sB & dB & _ & _ & _ & ->).
  intros Hst.
  exists (omap (λ q, pair_record dA dB water_idx (category_tag cat) q.1 q.2)
               (visited_pairs ord sA sB)).
  split; [destruct cat; simpl in Hst; by injection Hst as _ _ <-|].
  apply Forall_forall. intros r ([kA kB] & _ & Hr)%list_elem_of_omap.
  apply pair_record_Some in Hr as (_ & _ & -> & -> & _).
  split; [done|]. destruct cat; auto.
Qed.

(** X6. Over the waters of a run each of the two identifiers only grows, and
    together they grow by at most the number of waters: a water moves at
    most one of them, by one. *)
Theorem X6_identifiers_bounded (tk : Toolkit) (ord : SetOrder) (domainA domainB : string)
    (waters : list AtomRef) (hbond_id polar_contact_id : Z)
    (il : list InteractionRecord) (hbond_id' polar_contact_id' : Z)
    (il' : list InteractionRecord) :
  result (for_each waters (water_body tk ord domainA domainB)
            (hbond_id, polar_contact_id, il))
    = Return (hbond_id', polar_contact_id', il') →
  hbond_id ≤ hbond_id' ∧ polar_contact_id ≤ polar_contact_id'
  ∧ (hbond_id' - hbond_id) + (polar_contact_id' - polar_contact_id)
    ≤ Z.of_nat (length waters).
Proof.
  revert hbond_id polar_contact_id il.
  induction waters as [|w ws IH]; intros h p il.
  - intros [= <- <- <-]. simpl. lia.
  - rewrite for_each_cons, result_bind.
    destruct (result (water_body _ _ _ _ _ _)) as [[[h1 p1] il1]|e] eqn:Hw; [|done].
    apply water_body_counters in Hw. intros H%IH.
    rewrite length_cons, Nat2Z.inj_succ. lia.
Qed.

Lemma X6_witness :
  result (for_each [wat_ref] (water_body tk_hbond insertion_order "chain A" "chain B")
            (0, 0, []))
    = Return (1, 0, [ {| resA := "m/A`5/SER"; resB := "m/B`9/ASP"; water := 10;
                         type := "Hydrogen Bond"; distA := 2; distB := 2.25;
                         total_distance := 4.25 |};
                      {| resA := "m/A`5/SER"; resB := "m/B`12/LYS"; water := 10;
                         type := "Hydrogen Bond"; distA := 2; distB := 3;
                         total_distance := 5 |} ])
  ∧ 0 ≤ 1 ∧ 0 ≤ 0 ∧ (1 - 0) + (0 - 0) ≤ Z.of_nat (length [wat_ref]).
Proof.
  assert (H : result (for_each [wat_ref]
                        (water_body tk_hbond insertion_order "chain A" "chain B")
                        (0, 0, []))
              = Return (1, 0, [ {| resA := "m/A`5/SER"; resB := "m/B`9/ASP"; water := 10;
                                   type := "Hydrogen Bond"; distA := 2; distB := 2.25;
                                   total_distance := 4.25 |};
                                {| resA := "m/A`5/SER"; resB := "m/B`12/LYS"; water := 10;
                                   type := "Hydrogen Bond"; distA := 2; distB := 3;
                                   total_distance := 5 |} ]))
    by (vm_compute; reflexivity).
  split; [exact H|].
  exact (X6_identifiers_bounded tk_hbond insertion_order "chain A" "chain B" [wat_ref]
           0 0 [] 1 0 _ H).
Defined.

(** X7. Every record a run returns names, in its [water] field, the index of
    one of the bridging waters [cmd.index] reported, and its [type] is one
    of the two texts ['Hydrogen Bond'] and ['Polar Contact']. *)
Theorem X7_records_of_bridging_waters (tk : Toolkit) (ord : SetOrder)
    (domainA domainB : string) (interaction_list : list InteractionRecord) :
  result (select_residue_water_residue_combined tk ord domainA domainB)
    = Return interaction_list →
  Forall (λ r, water r ∈ (tk_index tk bridge_query).*2
               ∧ (type r = "Hydrogen Bond" ∨ type r = "Polar Contact"))
    interaction_list.
Proof.
  rewrite select_residue_water_residue_combined_result.
  destruct (negb (truthy (tk_index tk bridge_query))); [by intros [= <-]|].
  destruct (result (for_each _ _ _)) as [[[h p] il]|e] eqn:Hloop; [|done].
  intros [= <-]. simpl.
  set (Q := λ r, water r ∈ (tk_index tk bridge_query).*2
                 ∧ (type r = "Hydrogen Bond" ∨ type r = "Polar Contact")).
  assert (Hbody : ∀ w (st st' : LoopState), w ∈ tk_index tk bridge_query →
            Forall Q st.2 →
            result (water_body tk ord domainA domainB w st) = Return st' →
            Forall Q st'.2).
  { intros w [[h0 p0] il0] [[h1 p1] il1] Hw Hst Hbody.
    apply water_body_records in Hbody as (new & -> & Hnew).
    simpl in *. apply Forall_app. split; [done|].
    eapply Forall_impl; [exact Hnew|]. intros r [Hr Hty]. split; [|done].
    rewrite Hr. apply list_elem_of_fmap. by exists w. }
  apply (for_each_invariant_in (λ st : LoopState, Forall Q st.2) _ _ Hbody
           (0, 0, []) (h, p, il)); [by constructor | done].
Qed.

Lemma X7_witness :
  ∃ il,
    result (select_residue_water_residue_combined tk_mixed reverse_order
              "chain A" "chain B") = Return il
    ∧ length il = 2%nat
    ∧ Forall (λ r, water r ∈ (tk_index tk_mixed bridge_query).*2
                   ∧ (type r = "Hydrogen Bond" ∨ type r = "Polar Contact")) il.
Proof.
  eexists. split_and!.
  - vm_compute. reflexivity.
  - reflexivity.
  - apply (X7_records_of_bridging_waters tk_mixed reverse_order "chain A" "chain B").
    vm_compute. reflexivity.
Defined.

(** ** A whole run, event by event *)

Lemma report_trace (interaction_list : list InteractionRecord) :
  trace (for_each interaction_list
           (λ interaction _, log (py_print_interaction interaction)) tt)
  = py_print_interaction <$> interaction_list.
Proof.
  induction interaction_list as [|r l IH]; [done|].
  rewrite for_each_cons, trace_bind. cbn [log trace result fst snd].
  by rewrite IH.
Qed.

(** The trace of a run that has bridging waters. *)
Lemma select_residue_water_residue_combined_trace (tk : Toolkit) (ord : SetOrder)
    (domainA domainB : string) :
  truthy (tk_index tk bridge_query) = true →
  let loop := for_each (tk_index tk bridge_query)
                (water_body tk ord domainA domainB) (0, 0, []) in
  trace (select_residue_water_residue_combined tk ord domainA domainB) =
  run_setup tk domainA domainB ++ trace loop ++
  match result loop with
  | Return st => trace (visualize st.2) ++ run_report st.2
  | Raise _ => []
  end.
Proof.
  intros Hidx loop. unfold select_residue_water_residue_combined.
  do 4 (rewrite trace_bind; cbn [cmd.select log trace result fst snd]).
  do 3 (rewrite trace_bind; cbn [cmd.count_atoms trace result fst snd]).
  do 3 (rewrite trace_bind; cbn [print log trace result fst snd]).
  rewrite trace_bind. cbn [cmd.index trace result fst snd].
  rewrite Hidx. cbn [negb].
  do 3 (rewrite trace_bind; cbn [cmd.select log trace result fst snd]).
  rewrite trace_bind. fold loop. unfold run_setup. cbn [app]. do 14 f_equal.
  f_equal. clearbody loop. destruct loop as [ltr [[[h p] il]|e]]; [|done].
  cbn [result snd]. rewrite trace_bind, visualize_result. f_equal.
  rewrite trace_bind. cbn [print log trace result fst snd].
  rewrite trace_bind, report_result, report_trace. unfold run_report.
  cbn [app snd]. f_equal.
Qed.

Lemma registry_step_no_delete (names : gset string) (tr : list Event) :
  Forall (λ e, ∀ n, e ≠ cmd_delete n) tr →
  names ⊆ foldl (λ names e,
                   match e with
                   | cmd_select name _ => names ∪ {[name]}
                   | cmd_distance name _ _ => names ∪ {[name]}
                   | cmd_delete name => names ∖ {[name]}
                   | _ => names
                   end) names tr.
Proof.
  revert names. induction tr as [|e tr IH]; intros names Hall; [done|].
  apply Forall_cons in Hall as [He Htr]. simpl.
  etrans; [|by apply IH].
  destruct e; try done;
    first [ by destruct (He name) | intros x Hx; apply elem_of_union; by left ].
Qed.

Lemma loop_event_no_delete (e : Event) : loop_event e → ∀ n, e ≠ cmd_delete n.
Proof. by destruct e. Qed.

Lemma returning_run_trace (tk : Toolkit) (ord : SetOrder)
    (domainA domainB : string) (interaction_list : list InteractionRecord) :
  truthy (tk_index tk bridge_query) = true →
  result (select_residue_water_residue_combined tk ord domainA domainB)
    = Return interaction_list →
  trace (select_residue_water_residue_combined tk ord domainA domainB)
  = run_setup tk domainA domainB
    ++ trace (for_each (tk_index tk bridge_query)
                (water_body tk ord domainA domainB) (0, 0, []))
    ++ trace (visualize interaction_list)
    ++ run_report interaction_list.
Proof.
  intros Hidx Hres.
  rewrite select_residue_water_residue_combined_trace by done.
  rewrite select_residue_water_residue_combined_result, Hidx in Hres.
  cbn [negb] in Hres.
  destruct (result (for_each _ _ _)) as [st|e]; [|done].
  by injection Hres as ->.
Qed.

Lemma temporaries_deleted (names : gset string) (name : string) :
  name ∈ temporaries →
  name ∉ names ∖ {["all_waters"]} ∖ {["water_near_A"]} ∖ {["water_near_B"]}
           ∖ {["water_bridge"]}.
Proof.
  unfold temporaries.
  rewrite !elem_of_difference, !elem_of_union, !elem_of_singleton. tauto.
Qed.

(** X8. A run that has bridging waters and returns ends with the line
    ['Total interactions: N'] for the [N] records it returns, one report line
    per record in the order of the list, and the four deletions; before that
    come the set-up, the events of the waters and the visualization.  After
    any run that returns, none of the four temporary selections is left in
    the registry. *)
Theorem X8_report_and_cleanup (tk : Toolkit) (ord : SetOrder)
    (domainA domainB : string) (interaction_list : list InteractionRecord) :
  result (select_residue_water_residue_combined tk ord domainA domainB)
    = Return interaction_list →
  let tr := trace (select_residue_water_residue_combined tk ord domainA domainB) in
  (tk_index tk bridge_query ≠ [] →
   tr = run_setup tk domainA domainB
        ++ trace (for_each (tk_index tk bridge_query)
                    (water_body tk ord domainA domainB) (0, 0, []))
        ++ trace (visualize interaction_list)
        ++ run_report interaction_list)
  ∧ ∀ name, name ∈ temporaries → name ∉ registry_after tr.
Proof.
  intros Hres tr.
  destruct (truthy (tk_index tk bridge_query)) eqn:Hidx.
  - assert (Htr : tr = run_setup tk domainA domainB
                       ++ trace (for_each (tk_index tk bridge_query)
                                   (water_body tk ord domainA domainB) (0, 0, []))
                       ++ trace (visualize interaction_list)
                       ++ run_report interaction_list).
    { by apply returning_run_trace. }
    split; [done|]. intros name Hname. rewrite Htr.
    unfold registry_after, run_report.
    rewrite !(assoc_L (++)), app_comm_cons, (assoc_L (++)), foldl_app.
    cbn [foldl]. by apply temporaries_deleted.
  - assert (Hnil : tk_index tk bridge_query = [])
      by (by destruct (tk_index tk bridge_query)).
    split; [done|]. intros name Hname. unfold tr.
    assert (select_residue_water_residue_combined tk ord domainA domainB
            = (early_exit_trace tk domainA domainB, Return [])) as ->.
    { unfold select_residue_water_residue_combined, cmd.index.
      rewrite Hnil. reflexivity. }
    unfold registry_after, early_exit_trace. cbn [trace fst foldl].
    by apply temporaries_deleted.
Qed.

Lemma X8_witness :
  ∃ il,
    result (select_residue_water_residue_combined tk_mixed insertion_order
              "chain A" "chain B") = Return il
    ∧ length il = 2%nat
    ∧ (tk_index tk_mixed bridge_query ≠ [] →
       trace (select_residue_water_residue_combined tk_mixed insertion_order
                "chain A" "chain B")
       = run_setup tk_mixed "chain A" "chain B"
         ++ trace (for_each (tk_index tk_mixed bridge_query)
                     (water_body tk_mixed insertion_order "chain A" "chain B") (0, 0, []))
         ++ trace (visualize il) ++ run_report il)
    ∧ ∀ name, name ∈ temporaries →
        name ∉ registry_after
                 (trace (select_residue_water_residue_combined tk_mixed insertion_order
                           "chain A" "chain B")).
Proof.
  eexists. split; [vm_compute; reflexivity|]. split; [reflexivity|].
  apply (X8_report_and_cleanup tk_mixed insertion_order "chain A" "chain B").
  vm_compute. reflexivity.
Defined.

(** Without a deletion, a name once registered stays registered. *)
Lemma registered_stays (tr : list Event) (name : string) :
  Forall (λ e, ∀ n, e ≠ cmd_delete n) tr →
  (∃ selection, cmd_select name selection ∈ tr)
  ∨ (∃ s1 s2, cmd_distance name s1 s2 ∈ tr) →
  name ∈ registry_after tr.
Proof.
  intros Hall Hin.
  assert (∃ e, e ∈ tr ∧ ∀ names : gset string,
            name ∈ match e with
                   | cmd_select name _ => names ∪ {[name]}
                   | cmd_distance name _ _ => names ∪ {[name]}
                   | cmd_delete name => names ∖ {[name]}
                   | _ => names
                   end) as (e & He & Hstep).
  { destruct Hin as [[sel Hin]|(s1 & s2 & Hin)]; eexists; (split; [exact Hin|]);
      intros names; apply elem_of_union; right; by apply elem_of_singleton. }
  apply list_elem_of_split in He as (l1 & l2 & ->).
  apply Forall_app in Hall as [_ [_ Hl2]%Forall_cons].
  unfold registry_after. rewrite foldl_app. cbn [foldl].
  apply (registry_step_no_delete _ l2 Hl2). apply Hstep.
Qed.

(** X9. A run raises only [IndexError] or [CmdException]; when it does, it
    has issued no [cmd.delete], so every selection and every distance object
    it has created up to then is still registered; in particular, a run that
    raises after it has asked for the bridging waters leaves the four
    temporary selections registered: an exception skips the clean-up. *)
Theorem X9_exception_skips_cleanup (tk : Toolkit) (ord : SetOrder)
    (domainA domainB : string) (e : exn) :
  result (select_residue_water_residue_combined tk ord domainA domainB) = Raise e →
  let tr := trace (select_residue_water_residue_combined tk ord domainA domainB) in
  (e = IndexError ∨ e = CmdException)
  ∧ (∀ name, cmd_delete name ∉ tr)
  ∧ (∀ name selection, cmd_select name selection ∈ tr → name ∈ registry_after tr)
  ∧ (∀ name s1 s2, cmd_distance name s1 s2 ∈ tr → name ∈ registry_after tr)
  ∧ (cmd_index bridge_query ∈ tr → temporaries ⊆ registry_after tr).
Proof.
  intros Hres tr.
  rewrite select_residue_water_residue_combined_result in Hres.
  destruct (truthy (tk_index tk bridge_query)) eqn:Hidx; [|done].
  cbn [negb] in Hres.
  destruct (result (for_each _ _ _)) as [st|e'] eqn:Hloop; [done|].
  injection Hres as ->.
  assert (Htr : tr = run_setup tk domainA domainB
                     ++ trace (for_each (tk_index tk bridge_query)
                                 (water_body tk ord domainA domainB) (0, 0, []))).
  { unfold tr. rewrite select_residue_water_residue_combined_trace by done.
    by rewrite Hloop, app_nil_r. }
  assert (Hnodel : Forall (λ ev, ∀ n, ev ≠ cmd_delete n) tr).
  { rewrite Htr. apply Forall_app. split.
    - unfold run_setup. by repeat constructor.
    - eapply Forall_impl; [apply for_each_Forall; intros; apply water_body_events|].
      apply loop_event_no_delete. }
  split_and!.
  - exact (for_each_raises (λ e, e = IndexError ∨ e = CmdException) _ _
             (λ w st e', water_body_raises tk ord domainA domainB w st e') _ _ Hloop).
  - intros name Hin. rewrite Forall_forall in Hnodel. by apply (Hnodel _ Hin name).
  - intros name selection Hin. apply registered_stays; [done|]. left. by exists selection.
  - intros name s1 s2 Hin. apply registered_stays; [done|]. right. by exists s1, s2.
  - intros _ name Hname. apply registered_stays; [done|]. left.
    unfold temporaries in Hname. rewrite Htr. unfold run_setup.
    rewrite !elem_of_union, !elem_of_singleton in Hname.
    destruct Hname as [[[->| ->]| ->]| ->]; eexists; apply elem_of_app; left;
      rewrite !elem_of_cons; tauto.
Qed.

(** The water that [cmd.index] reports and [cmd.get_atom_coords] does not
    find: the run raises [CmdException] at its first water. *)
Lemma X9_witness :
  result (select_residue_water_residue_combined tk_lost_water insertion_order
            "chain A" "chain B") = Raise CmdException
  ∧ (CmdException = IndexError ∨ CmdException = CmdException)
  ∧ (∀ name, cmd_delete name
             ∉ trace (select_residue_water_residue_combined tk_lost_water
                        insertion_order "chain A" "chain B"))
  ∧ (∀ name selection,
       cmd_select name selection
       ∈ trace (select_residue_water_residue_combined tk_lost_water
                  insertion_order "chain A" "chain B") →
       name ∈ registry_after
                (trace (select_residue_water_residue_combined tk_lost_water
                          insertion_order "chain A" "chain B")))
  ∧ (∀ name s1 s2,
       cmd_distance name s1 s2
       ∈ trace (select_residue_water_residue_combined tk_lost_water
                  insertion_order "chain A" "chain B") →
       name ∈ registry_after
                (trace (select_residue_water_residue_combined tk_lost_water
                          insertion_order "chain A" "chain B")))
  ∧ (cmd_index bridge_query
     ∈ trace (select_residue_water_residue_combined tk_lost_water
                insertion_order "chain A" "chain B") →
     temporaries
     ⊆ registry_after (trace (select_residue_water_residue_combined tk_lost_water
                                insertion_order "chain A" "chain B"))).
Proof.
  assert (H : result (select_residue_water_residue_combined tk_lost_water
                        insertion_order "chain A" "chain B") = Raise CmdException)
    by (vm_compute; reflexivity).
  split; [exact H|].
  exact (X9_exception_skips_cleanup tk_lost_water insertion_order "chain A" "chain B"
           CmdException H).
Defined.


(** X10. In a run that has bridging waters and returns, the display is
    touched (show, hide, color, set, label) only when the list returned is
    non-empty, and then it is; the line saying that no residue interaction
    was found is printed exactly when the list is empty. *)
Theorem X10_display_only_with_records (tk : Toolkit) (ord : SetOrder)
    (domainA domainB : string) (interaction_list : list InteractionRecord) :
  tk_index tk bridge_query ≠ [] →
  result (select_residue_water_residue_combined tk ord domainA domainB)
    = Return interaction_list →
  let tr := trace (select_residue_water_residue_combined tk ord domainA domainB) in
  (∀ e, e ∈ tr → is_display e → interaction_list ≠ [])
  ∧ (interaction_list ≠ [] →
     cmd_show "sticks" "interacting_residues_domain1" ∈ tr
     ∧ cmd_show "sticks" "interacting_residues_domain2" ∈ tr
     ∧ cmd_show "spheres" "interacting_waters" ∈ tr)
  ∧ (py_print no_interaction_message ∈ tr ↔ interaction_list = []).
Proof.
  intros Hne Hres tr.
  assert (Hidx : truthy (tk_index tk bridge_query) = true)
    by (by destruct (tk_index tk bridge_query)).
  assert (Htr : tr = run_setup tk domainA domainB
                     ++ trace (for_each (tk_index tk bridge_query)
                                 (water_body tk ord domainA domainB) (0, 0, []))
                     ++ trace (visualize interaction_list)
                     ++ run_report interaction_list)
    by (by apply returning_run_trace).
  clearbody tr. subst tr.
  pose proof (for_each_Forall loop_event (water_body tk ord domainA domainB)
                (tk_index tk bridge_query)
                (λ w st, water_body_events tk ord domainA domainB w st) (0, 0, []))
    as Hloop.
  rewrite Forall_forall in Hloop.
  assert (Hsetup : ∀ e, e ∈ run_setup tk domainA domainB →
            ¬ is_display e ∧ e ≠ py_print no_interaction_message).
  { intros e. unfold run_setup. rewrite !elem_of_cons, elem_of_nil.
    intros H. repeat (destruct H as [H|H]); try done; subst e;
      (split; [by intros [] | unfold no_interaction_message; by intros [=]]). }
  assert (Hreport : ∀ e, e ∈ run_report interaction_list →
            ¬ is_display e ∧ e ≠ py_print no_interaction_message).
  { intros e. unfold run_report.
    intros [->|[Hin|Hin]%elem_of_app]%elem_of_cons.
    - split; [by intros [] | unfold no_interaction_message; by intros [=]].
    - apply list_elem_of_fmap in Hin as (r & -> & _).
      split; [by intros [] | by intros [=]].
    - rewrite !elem_of_cons, elem_of_nil in Hin.
      repeat (destruct Hin as [Hin|Hin]); try done; subst e;
        (split; [by intros [] | by intros [=]]). }
  assert (Hbody : ∀ e, e ∈ trace (for_each (tk_index tk bridge_query)
                                    (water_body tk ord domainA domainB) (0, 0, [])) →
            ¬ is_display e ∧ e ≠ py_print no_interaction_message).
  { intros e He%Hloop. destruct e; try done; (split; [by intros [] | by intros [=]]). }
  split_and!.
  - intros e Hin Hdisp ->.
    rewrite !elem_of_app in Hin. destruct Hin as [Hin|[Hin|[Hin|Hin]]].
    + by destruct (Hsetup e Hin).
    + by destruct (Hbody e Hin).
    + simpl in Hin. apply list_elem_of_singleton in Hin as ->. done.
    + by destruct (Hreport e Hin).
  - intros Hil. rewrite !elem_of_app.
    destruct interaction_list as [|r il]; [done|].
    split_and!; right; right; left; unfold visualize; simpl.
    + apply list_elem_of_here.
    + do 2 apply list_elem_of_further. apply list_elem_of_here.
    + do 4 apply list_elem_of_further. apply list_elem_of_here.
  - split.
    + rewrite !elem_of_app. intros [Hin|[Hin|[Hin|Hin]]].
      * by destruct (Hsetup _ Hin).
      * by destruct (Hbody _ Hin).
      * destruct interaction_list as [|r il]; [done|]. exfalso.
        unfold visualize in Hin. simpl in Hin.
        rewrite !elem_of_cons, elem_of_nil in Hin.
        repeat (destruct Hin as [Hin|Hin]); done.
      * by destruct (Hreport _ Hin).
    + intros ->. rewrite !elem_of_app. right. right. left.
      simpl. apply list_elem_of_here.
Qed.

(** The run on [scene_water_first] has a bridging water and returns no
    record. *)
Lemma X10_witness :
  tk_index tk_water_first bridge_query ≠ []
  ∧ result (select_residue_water_residue_combined tk_water_first insertion_order
              "chain A" "chain B") = Return []
  ∧ (∀ e, e ∈ trace (select_residue_water_residue_combined tk_water_first
                       insertion_order "chain A" "chain B") →
          is_display e → @nil InteractionRecord ≠ [])
  ∧ (@nil InteractionRecord ≠ [] →
     cmd_show "sticks" "interacting_residues_domain1"
       ∈ trace (select_residue_water_residue_combined tk_water_first
                  insertion_order "chain A" "chain B")
     ∧ cmd_show "sticks" "interacting_residues_domain2"
         ∈ trace (select_residue_water_residue_combined tk_water_first
                    insertion_order "chain A" "chain B")
     ∧ cmd_show "spheres" "interacting_waters"
         ∈ trace (select_residue_water_residue_combined tk_water_first
                    insertion_order "chain A" "chain B"))
  ∧ (py_print no_interaction_message
       ∈ trace (select_residue_water_residue_combined tk_water_first
                  insertion_order "chain A" "chain B")
     ↔ @nil InteractionRecord = []).
Proof.
  assert (Hne : tk_index tk_water_first bridge_query ≠ []) by (vm_compute; discriminate).
  assert (H : result (select_residue_water_residue_combined tk_water_first
                        insertion_order "chain A" "chain B") = Return [])
    by (vm_compute; reflexivity).
  split; [exact Hne|]. split; [exact H|].
  exact (X10_display_only_with_records tk_water_first insertion_order
           "chain A" "chain B" [] Hne H).
Defined.

(** ** Texts built from numbers *)

(** X11. The decimal text of an integer reads back as that integer, so
    ['%d'] never gives two indices or two identifiers the same text. *)
Theorem X11_fmt_d_round_trip (z : Z) : parse_d (fmt_d z) = Some z.
Proof.
  unfold parse_d, fmt_d. rewrite NilZero.isi.
  - simpl. by rewrite DecimalZ.of_to.
  - destruct z as [|p|p]; simpl; try discriminate.
    intros [= H]. by apply (DecimalPos.Unsigned.to_uint_nonnil p).
  - destruct z as [|p|p]; simpl; try discriminate.
    intros [= H]. by apply (DecimalPos.Unsigned.to_uint_nonnil p).
Qed.

Lemma fmt_d_inj (z1 z2 : Z) : fmt_d z1 = fmt_d z2 → z1 = z2.
Proof.
  intros H. apply (f_equal parse_d) in H. revert H.
  unfold parse_d, fmt_d.
  assert (Hrt : ∀ z, Z.of_int <$> NilZero.int_of_string
                       (NilZero.string_of_int (Z.to_int z)) = Some z).
  { intros z. rewrite NilZero.isi.
    - simpl. by rewrite DecimalZ.of_to.
    - destruct z as [|p|p]; simpl; try discriminate.
      intros [= H]. by apply (DecimalPos.Unsigned.to_uint_nonnil p).
    - destruct z as [|p|p]; simpl; try discriminate.
      intros [= H]. by apply (DecimalPos.Unsigned.to_uint_nonnil p). }
  rewrite !Hrt. by intros [= ->].
Qed.

Lemma append_inj_same_length (a a' b b' : string) :
  String.length b = String.length b' → a +:+ b = a' +:+ b' → a = a' ∧ b = b'.
Proof.
  intros Hlen. revert a'. induction a as [|x a IH]; intros [|y a'] H.
  - done.
  - apply (f_equal String.length) in H.
    rewrite !append_length in H. simpl in H. lia.
  - apply (f_equal String.length) in H.
    rewrite !append_length in H. simpl in H. lia.
  - simpl in H. injection H as -> H. destruct (IH _ H) as [-> ->]. done.
Qed.

(** X12. Distance objects get different names unless they agree on the
    kind (hydrogen bond or not), on the identifier and on the side: the
    objects of two waters of the same kind never share a name, nor do those
    of a hydrogen-bond water and of a polar-contact water. *)
Theorem X12_distance_names_distinct (ty ty' : string) (id id' : Z) (side side' : string) :
  side ∈ ["_A"; "_B"] → side' ∈ ["_A"; "_B"] →
  distance_name ty id side = distance_name ty' id' side' →
  String.eqb ty "hbond" = String.eqb ty' "hbond" ∧ id = id' ∧ side = side'.
Proof.
  intros Hs Hs'. unfold distance_name.
  assert (Hlen : String.length side = String.length side').
  { rewrite !elem_of_cons, elem_of_nil in Hs, Hs'.
    destruct Hs as [->|[->|[]]], Hs' as [->|[->|[]]]; done. }
  destruct (String.eqb ty "hbond"), (String.eqb ty' "hbond");
    try (simpl; discriminate); intros H; apply append_inj_l in H;
    apply append_inj_same_length in H as [H ->]; try done;
    by apply fmt_d_inj in H as ->.
Qed.

Lemma X12_witness :
  "_A" ∈ ["_A"; "_B"] ∧ "_A" ∈ ["_A"; "_B"]
  ∧ distance_name "hbond" 3 "_A" = distance_name "hbond" 3 "_A"
  ∧ String.eqb "hbond" "hbond" = String.eqb "hbond" "hbond" ∧ 3 = 3 ∧ "_A" = "_A".
Proof.
  assert (H : "_A" ∈ ["_A"; "_B"]) by apply list_elem_of_here.
  split; [exact H|]. split; [exact H|]. split; [reflexivity|].
  exact (X12_distance_names_distinct "hbond" "hbond" 3 3 "_A" "_A" H H eq_refl).
Defined.

(** ** The searches of one water *)

(** X13. When the searches of a water succeed, every hydrogen-bond contact
    is a pair as [cmd.find_pairs] gave it and every polar contact is a
    triple whose distance is at most the half-threshold 3.5. *)
Theorem X13_search_contacts_shapes (tk : Toolkit) (domainA domainB water_sele : string)
    (water_coords : Coord)
    (hbonds_A hbonds_B polar_contacts_A polar_contacts_B : list Contact) :
  result (search_contacts tk domainA domainB water_sele) =
    Return (water_coords, hbonds_A, hbonds_B, polar_contacts_A, polar_contacts_B) →
  Forall is_pair hbonds_A ∧ Forall is_pair hbonds_B
  ∧ Forall is_near_triple polar_contacts_A ∧ Forall is_near_triple polar_contacts_B.
Proof.
  assert (Hhb : ∀ d, Forall is_pair (hbonds_of tk d water_sele)).
  { intros d. unfold hbonds_of. apply Forall_app.
    split; apply Forall_fmap, Forall_true; by intros [a b]. }
  assert (Hpc : ∀ d l, result (find_polar_contacts tk d water_sele
                                 max_residue_water_distance) = Return l →
                       Forall is_near_triple l).
  { intros d l. rewrite find_polar_contacts_result.
    destruct (tk_get_model tk (water_O_sele water_sele)) as [|wa ?]; [done|].
    intros [= <-]. apply Forall_fmap, Forall_forall.
    intros atom [_ Hatom]%list_elem_of_In%filter_In. exact Hatom. }
  unfold search_contacts, cmd.get_atom_coords.
  rewrite result_bind. cbn [result snd].
  destruct (tk_get_atom_coords tk water_sele) as [wc|]; [|done].
  rewrite result_bind, find_hydrogen_bonds_eq. cbn [result snd].
  rewrite result_bind, find_hydrogen_bonds_eq. cbn [result snd].
  fold (hbonds_of tk domainA water_sele). fold (hbonds_of tk domainB water_sele).
  rewrite result_bind.
  assert (HpA : ∀ l, result (if negb (truthy (hbonds_of tk domainA water_sele))
                             then find_polar_contacts tk domainA water_sele
                                    max_residue_water_distance
                             else mret []) = Return l → Forall is_near_triple l).
  { intros l. destruct (negb (truthy (hbonds_of tk domainA water_sele))); [apply Hpc|].
    intros [= <-]. constructor. }
  assert (HpB : ∀ l, result (if negb (truthy (hbonds_of tk domainB water_sele))
                             then find_polar_contacts tk domainB water_sele
                                    max_residue_water_distance
                             else mret []) = Return l → Forall is_near_triple l).
  { intros l. destruct (negb (truthy (hbonds_of tk domainB water_sele))); [apply Hpc|].
    intros [= <-]. constructor. }
  destruct (result (if negb (truthy (hbonds_of tk domainA water_sele)) then _ else _))
    as [pcA|e] eqn:EA; [|done].
  rewrite result_bind.
  destruct (result (if negb (truthy (hbonds_of tk domainB water_sele)) then _ else _))
    as [pcB|e] eqn:EB; [|done].
  cbn [result snd mret Py_ret py_ret]. intros [= <- <- <- <- <-].
  split_and!; auto.
Qed.

Lemma X13_witness :
  result (search_contacts tk_mixed "chain A" "chain B" wat_sele) =
    Return (origin, [pair2 ("m", 1) wat_ref], [], [],
            [pair3 ("m", 3) wat_ref 2.25; pair3 ("m", 4) wat_ref 3])
  ∧ Forall is_pair [pair2 ("m", 1) wat_ref] ∧ Forall is_pair []
  ∧ Forall is_near_triple []
  ∧ Forall is_near_triple [pair3 ("m", 3) wat_ref 2.25; pair3 ("m", 4) wat_ref 3].
Proof.
  assert (Hsearch : result (search_contacts tk_mixed "chain A" "chain B" wat_sele) =
                    Return (origin, [pair2 ("m", 1) wat_ref], [], [],
                            [pair3 ("m", 3) wat_ref 2.25; pair3 ("m", 4) wat_ref 3]))
    by (vm_compute; reflexivity).
  split; [exact Hsearch|].
  exact (X13_search_contacts_shapes tk_mixed "chain A" "chain B" wat_sele origin
           _ _ _ _ Hsearch).
Defined.

(** ** Distances *)

Lemma binary_round_aux_not_negative (prec emax : Z) (mx ex : Z)
    (lx : SpecFloat.location) :
  SpecFloat.SFltb (SpecFloat.binary_round_aux prec emax false mx ex lx)
    (SpecFloat.S754_zero false) = false.
Proof.
  unfold SpecFloat.binary_round_aux.
  destruct (SpecFloat.shr_fexp prec emax mx ex lx) as [mrs' e'].
  destruct (SpecFloat.shr_fexp prec emax _ e' SpecFloat.loc_Exact) as [mrs'' e''].
  destruct (SpecFloat.shr_m mrs'') as [|m|m]; [done| |done].
  by destruct (e'' <=? emax - prec).
Qed.

Lemma SFsqrt_not_negative (prec emax : Z) (x : SpecFloat.spec_float) :
  SpecFloat.SFltb (SpecFloat.SFsqrt prec emax x) (SpecFloat.S754_zero false) = false.
Proof.
  destruct x as [s|s| |s m e]; simpl; try done.
  - by destruct s.
  - destruct s; [done|].
    destruct (SpecFloat.SFsqrt_core_binary prec emax (Z.pos m) e) as [[mz ez] lz].
    apply binary_round_aux_not_negative.
Qed.

(** X14. A distance computed by [distance_between_coords] is never below
    zero (it is a number at least zero, or not a number at all). *)
Theorem X14_distance_not_negative (coord1 coord2 : Coord) :
  (distance_between_coords coord1 coord2 <? 0)%float = false.
Proof.
  destruct coord1 as [[x1 y1] z1], coord2 as [[x2 y2] z2].
  unfold distance_between_coords.
  rewrite ltb_spec, sqrt_spec.
  change (Prim2SF 0) with (SpecFloat.S754_zero false).
  apply SFsqrt_not_negative.
Qed.

(** X15. In every record a call of [process_interactions] appends, each
    side names the residue of an atom found for one of the contacts of that
    side, not a water, and gives as distance the one computed from the
    coordinates of that atom and the water coordinates passed to the call:
    the distance a contact may carry is not used. *)
Theorem X15_record_distances_recomputed (tk : Toolkit) (ord : SetOrder)
    (contacts_A contacts_B : list Contact) (water_obj : string)
    (water_idx interaction_id : Z) (interaction_type : string)
    (interaction_list : list InteractionRecord)
    (domainA domainB water_sele : string) (water_coords : Coord)
    (id' : Z) (il' : list InteractionRecord) :
  result (process_interactions tk ord contacts_A contacts_B water_obj water_idx
            interaction_id interaction_type interaction_list domainA domainB
            water_sele water_coords) = Return (id', il') →
  ∃ new, il' = interaction_list ++ new
    ∧ Forall (λ r,
        (∃ c atom, c ∈ contacts_A ∧ resolve tk c = Some atom ∧ resn atom ≠ "HOH"
                   ∧ resA r = fmt_res (residue_key atom)
                   ∧ distA r = distance_between_coords (coord atom) water_coords)
        ∧ (∃ c atom, c ∈ contacts_B ∧ resolve tk c = Some atom ∧ resn atom ≠ "HOH"
                     ∧ resB r = fmt_res (residue_key atom)
                     ∧ distB r = distance_between_coords (coord atom) water_coords))
        new.
Proof.
  intros (sA & dA & sB & dB & HA & HB & _ & ->)%process_interactions_returns.
  eexists. split; [done|].
  apply collected_last_wins in HA, HB.
  apply Forall_forall. intros r ([kA kB] & _ & Hr)%list_elem_of_omap.
  apply pair_record_residues in Hr as (a & b & Ha & Hb & -> & -> & -> & ->).
  destruct (last_wins_source _ _ _ _ _ _ HA Ha) as (cA & atomA & ? & ? & ? & -> & ->).
  destruct (last_wins_source _ _ _ _ _ _ HB Hb) as (cB & atomB & ? & ? & ? & -> & ->).
  split; [by exists cA, atomA | by exists cB, atomB].
Qed.

(** The polar contacts of [scene_mixed] carry 9.5 here instead of their
    distances; the records still show 2.25 and 3. *)
Lemma X15_witness :
  ∃ id' il',
    result (process_interactions tk_mixed insertion_order
              [pair2 ("m", 1) wat_ref]
              [pair3 ("m", 3) wat_ref 9.5; pair3 ("m", 4) wat_ref 9.5]
              "m" 10 0 "polar_contact" [] "chain A" "chain B" wat_sele origin)
    = Return (id', il')
    ∧ distB <$> il' = [2.25%float; 3%float]
    ∧ ∃ new, il' = [] ++ new
        ∧ Forall (λ r,
            (∃ c atom, c ∈ [pair2 ("m", 1) wat_ref]
                       ∧ resolve tk_mixed c = Some atom ∧ resn atom ≠ "HOH"
                       ∧ resA r = fmt_res (residue_key atom)
                       ∧ distA r = distance_between_coords (coord atom) origin)
            ∧ (∃ c atom, c ∈ [pair3 ("m", 3) wat_ref 9.5; pair3 ("m", 4) wat_ref 9.5]
                         ∧ resolve tk_mixed c = Some atom ∧ resn atom ≠ "HOH"
                         ∧ resB r = fmt_res (residue_key atom)
                         ∧ distB r = distance_between_coords (coord atom) origin))
            new.
Proof.
  eexists _, _. split; [vm_compute; reflexivity|]. split; [reflexivity|].
  apply (X15_record_distances_recomputed tk_mixed insertion_order
           [pair2 ("m", 1) wat_ref]
           [pair3 ("m", 3) wat_ref 9.5; pair3 ("m", 4) wat_ref 9.5]
           "m" 10 0 "polar_contact" [] "chain A" "chain B" wat_sele origin 1).
  vm_compute. reflexivity.
Defined.
